(** * mcp-server-fakestore: validators, HTTP wrapper, resource tools, dispatcher

    A shallow embedding of the TypeScript sources

      - [utils/validators.ts]  (input validation)
      - [utils/api.ts]         (axios wrapper, rate-limit interceptor)
      - [tools/products.ts], [tools/carts.ts], [tools/users.ts]
      - [index.ts]             (the CallTool request handler)

    followed by the properties of the specification that are stated about
    them.  JavaScript values are an inductive type, thrown exceptions are an
    explicit [Throw] result, the module-level counter and the pending timers
    live in an explicit [World] that is threaded through every HTTP call. *)

From Stdlib Require Import String Ascii List ZArith QArith Bool Lia DecimalString.
Import ListNotations.
#[local] Set Warnings "-register-all".
Open Scope string_scope.
Open Scope Z_scope.

(* ===================================================================== *)
(** ** JavaScript values *)
(* ===================================================================== *)

(** A JavaScript number.  A finite double is represented by the rational it
    denotes (negative zero is identified with zero); the sources only test
    numbers for their type, their sign, integrality and truthiness, all of
    which are functions of the denoted value. *)
Inductive number : Type :=
| NaN
| Infinity (negative : bool)
| Finite (q : Q).

(** Objects are association lists in insertion order (the order in which
    [JSON.stringify] enumerates the keys). *)
Inductive JsValue : Type :=
| JUndefined
| JNull
| JBool (b : bool)
| JNum (n : number)
| JStr (s : string)
| JArr (items : list JsValue)
| JObj (props : list (string * JsValue)).

(** What a [throw] can carry.  [JsError] is any instance of [Error] that is
    not an axios error ([Error], [TypeError], ...); [AxiosError] is the
    transport library's error, itself an [Error] instance with the
    [isAxiosError] flag, [status] being [response?.status]; [ThrownObject]
    is a thrown plain object, [ThrownValue] any other thrown value. *)
Record ApiError : Type := mkApiError {
  message : string;
  status : option number;
  code : option string
}.

Inductive Thrown : Type :=
| JsError (msg : string)
| AxiosError (msg : string) (response_status : option number) (error_code : option string)
| ThrownObject (e : ApiError)
| ThrownValue (v : JsValue).

Inductive Result (A : Type) : Type :=
| Ok (a : A)
| Throw (t : Thrown).
Arguments Ok {A} a.
Arguments Throw {A} t.

Definition bind {A B : Type} (r : Result A) (k : A -> Result B) : Result B :=
  match r with
  | Ok a => k a
  | Throw t => Throw t
  end.

Notation "'do' x <- r ; k" := (bind r (fun x => k))
  (at level 10, x name, r at level 100, k at level 200).

(** [try { body } catch (e) { handler e }] *)
Definition try_catch {A : Type} (body : Result A) (handler : Thrown -> Result A) : Result A :=
  match body with
  | Ok a => Ok a
  | Throw t => handler t
  end.

(** [if (cond) throw new Error(msg)] *)
Definition throw_if (cond : bool) (msg : string) : Result unit :=
  if cond then Throw (JsError msg) else Ok tt.

(* --------------------------------------------------------------------- *)
(** *** Numbers *)

Definition Number_isInteger (n : number) : bool :=
  match n with
  | Finite q => Qnum q mod Zpos (Qden q) =? 0
  | _ => false
  end.

(** [n <= 0] *)
Definition number_le_zero (n : number) : bool :=
  match n with
  | NaN => false
  | Infinity negative => negative
  | Finite q => Qle_bool q 0
  end.

(** The integer denoted by an integral finite number. *)
Definition number_to_Z (n : number) : Z :=
  match n with
  | Finite q => Qnum q / Zpos (Qden q)
  | _ => 0
  end.

Definition of_Z (z : Z) : number := Finite (inject_Z z).

(* --------------------------------------------------------------------- *)
(** *** Strings

    A [string] holds the UTF-8 encoding of a JavaScript string.  A
    surrogate code unit that is not half of a pair is encoded like a code
    point of its own ([ED A0..BF 80..BF], which well-formed UTF-8 never
    contains), so that every JavaScript string has its encoding. *)

Definition byte (n : Z) : ascii := ascii_of_N (Z.to_N n).

(** The value of a byte, [0 .. 255]. *)
Definition byte_value (c : ascii) : Z := Z.of_N (N_of_ascii c).

(** The one-character string holding a double quote. *)
Definition dquote : string := String (byte 34) EmptyString.

Fixpoint bytes (l : list Z) : string :=
  match l with
  | [] => EmptyString
  | n :: r => String (byte n) (bytes r)
  end.

(** A UTF-8 continuation byte, [0x80 .. 0xBF]. *)
Definition is_continuation (c : ascii) : bool :=
  let n := byte_value c in (128 <=? n) && (n <=? 191).

Definition starts_with_continuation (s : string) : bool :=
  match s with
  | String c _ => is_continuation c
  | EmptyString => false
  end.

(** The characters (code points) of a string, each with its encoding. *)
Fixpoint chars (s : string) : list string :=
  match s with
  | EmptyString => []
  | String c r =>
      match chars r with
      | hd :: tl =>
          if starts_with_continuation hd then String c hd :: tl
          else String c EmptyString :: hd :: tl
      | [] => [String c EmptyString]
      end
  end.

(** ECMAScript WhiteSpace and LineTerminator code points: what
    [String.prototype.trim] strips and what [\s] matches. *)
Definition white_space : list string :=
  [ bytes [9]; bytes [10]; bytes [11]; bytes [12]; bytes [13]; bytes [32];
    bytes [194; 160];                       (* U+00A0 *)
    bytes [225; 154; 128];                  (* U+1680 *)
    bytes [226; 128; 128]; bytes [226; 128; 129]; bytes [226; 128; 130];
    bytes [226; 128; 131]; bytes [226; 128; 132]; bytes [226; 128; 133];
    bytes [226; 128; 134]; bytes [226; 128; 135]; bytes [226; 128; 136];
    bytes [226; 128; 137]; bytes [226; 128; 138];   (* U+2000 .. U+200A *)
    bytes [226; 128; 168]; bytes [226; 128; 169];   (* U+2028, U+2029 *)
    bytes [226; 128; 175];                  (* U+202F *)
    bytes [226; 129; 159];                  (* U+205F *)
    bytes [227; 128; 128];                  (* U+3000 *)
    bytes [239; 187; 191] ].                (* U+FEFF *)

Definition is_white_space (c : string) : bool :=
  existsb (String.eqb c) white_space.

Fixpoint drop_while {A : Type} (p : A -> bool) (l : list A) : list A :=
  match l with
  | [] => []
  | x :: r => if p x then drop_while p r else l
  end.

(** [String.prototype.trim] *)
Definition trim (s : string) : string :=
  String.concat EmptyString
    (rev (drop_while is_white_space (rev (drop_while is_white_space (chars s))))).

Definition is_empty (s : string) : bool :=
  match s with
  | EmptyString => true
  | _ => false
  end.

(** The characters [encodeURIComponent] leaves alone:
    [A-Z a-z 0-9 - _ . ! ~ * ' ( )]. *)
Definition uri_unreserved (c : ascii) : bool :=
  let n := byte_value c in
  (65 <=? n) && (n <=? 90) || (97 <=? n) && (n <=? 122) || (48 <=? n) && (n <=? 57)
  || existsb (Ascii.eqb c) ["-"; "_"; "."; "!"; "~"; "*"; "'"; "("; ")"]%char.

Definition hex_digit (n : Z) : ascii :=
  if n <? 10 then byte (48 + n) else byte (55 + n).

Definition percent_encode (c : ascii) : string :=
  let n := byte_value c in
  String "%" (String (hex_digit (n / 16)) (String (hex_digit (n mod 16)) EmptyString)).

(** Every byte of the UTF-8 encoding outside the unreserved set becomes
    [%XX]. *)
Fixpoint uri_encode (s : string) : string :=
  match s with
  | EmptyString => EmptyString
  | String c r =>
      if uri_unreserved c then String c (uri_encode r)
      else percent_encode c ++ uri_encode r
  end.

(** The string holds a surrogate that is not half of a pair: the byte
    [0xED] followed by one of [0xA0 .. 0xBF]. *)
Fixpoint has_lone_surrogate (s : string) : bool :=
  match s with
  | EmptyString => false
  | String c r =>
      (byte_value c =? 237)
      && match r with
         | String d _ => (160 <=? byte_value d) && (byte_value d <=? 191)
         | EmptyString => false
         end
      || has_lone_surrogate r
  end.

(** [encodeURIComponent]: a [URIError] on a lone surrogate, the
    percent-encoding otherwise. *)
Definition encodeURIComponent (s : string) : Result string :=
  if has_lone_surrogate s then Throw (JsError "URI malformed")
  else Ok (uri_encode s).

(* --------------------------------------------------------------------- *)
(** *** Operators on values *)

Inductive JsType : Type :=
| TUndefined | TObject | TBoolean | TNumber | TString.

Definition typeof (v : JsValue) : JsType :=
  match v with
  | JUndefined => TUndefined
  | JNull => TObject
  | JBool _ => TBoolean
  | JNum _ => TNumber
  | JStr _ => TString
  | JArr _ => TObject
  | JObj _ => TObject
  end.

Definition is_undefined (v : JsValue) : bool :=
  match v with JUndefined => true | _ => false end.

Definition is_number (v : JsValue) : bool :=
  match v with JNum _ => true | _ => false end.

Definition is_string (v : JsValue) : bool :=
  match v with JStr _ => true | _ => false end.

(** [v === 'literal'] *)
Definition strict_eq_string (v : JsValue) (lit : string) : bool :=
  match v with
  | JStr s => String.eqb s lit
  | _ => false
  end.

(** ToBoolean *)
Definition truthy (v : JsValue) : bool :=
  match v with
  | JUndefined | JNull => false
  | JBool b => b
  | JNum NaN => false
  | JNum (Infinity _) => true
  | JNum (Finite q) => negb (Qnum q =? 0)
  | JStr s => negb (is_empty s)
  | JArr _ | JObj _ => true
  end.

Fixpoint assoc (k : string) (props : list (string * JsValue)) : option JsValue :=
  match props with
  | [] => None
  | (k', v) :: r => if String.eqb k k' then Some v else assoc k r
  end.

(** [o.k] for a value [o] that is neither [null] nor [undefined].  The
    sources read fixed keys, none of them an array index, [length] or a
    property inherited by objects, strings, numbers or booleans, so that
    everything but an own property of an object reads as [undefined].  (Of
    those keys an array inherits [sort] alone; it is read from argument
    bags only, which the host admits as records, never as arrays.) *)
Definition get_prop (o : JsValue) (k : string) : JsValue :=
  match o with
  | JObj props => match assoc k props with Some v => v | None => JUndefined end
  | _ => JUndefined
  end.

(** [o[k] = v] on the property list of an object. *)
Fixpoint set_assoc (k : string) (v : JsValue) (props : list (string * JsValue))
  : list (string * JsValue) :=
  match props with
  | [] => [(k, v)]
  | (k', v') :: r =>
      if String.eqb k k' then (k, v) :: r else (k', v') :: set_assoc k v r
  end.

Definition set_prop (o : JsValue) (k : string) (v : JsValue) : JsValue :=
  match o with
  | JObj props => JObj (set_assoc k v props)
  | _ => o
  end.

Definition is_nullish (v : JsValue) : bool :=
  match v with JUndefined | JNull => true | _ => false end.

(** [const { k, ... } = args]: destructuring [null] or [undefined] throws a
    [TypeError] (message as worded by V8), anything else is read with
    [get_prop]. *)
Definition destructure (args : JsValue) (first_key : string) : Result unit :=
  match args with
  | JUndefined =>
      Throw (JsError ("Cannot destructure property '" ++ first_key
                      ++ "' of 'args' as it is undefined."))
  | JNull =>
      Throw (JsError ("Cannot destructure property '" ++ first_key
                      ++ "' of 'args' as it is null."))
  | _ => Ok tt
  end.

(** [o.k] where [o] may be [null] or [undefined]. *)
Definition read_prop (o : JsValue) (k : string) : Result JsValue :=
  match o with
  | JUndefined =>
      Throw (JsError ("Cannot read properties of undefined (reading '" ++ k ++ "')"))
  | JNull =>
      Throw (JsError ("Cannot read properties of null (reading '" ++ k ++ "')"))
  | _ => Ok (get_prop o k)
  end.

(** [v <= 0], evaluated by the sources on numbers only (behind a [typeof]
    test). *)
Definition le_zero (v : JsValue) : bool :=
  match v with
  | JNum n => number_le_zero n
  | _ => false
  end.

(** [Number.isInteger(v)] *)
Definition isInteger (v : JsValue) : bool :=
  match v with
  | JNum n => Number_isInteger n
  | _ => false
  end.

(* --------------------------------------------------------------------- *)
(** *** Regular expressions

    A matcher by derivatives, over the characters of the subject.  The
    class [[^\s@]] consumes one UTF-16 code unit in the source; a character
    outside the BMP is two such units, neither of them white space nor [@],
    and the class only occurs under [+], so consuming whole characters
    accepts the same strings. *)

Inductive CharClass : Type :=
| Literal (c : string)          (* that character *)
| NotSpaceNor (c : string).     (* [^\s c] *)

Inductive Regex : Type :=
| RNone
| REps
| RChar (cls : CharClass)
| RSeq (r1 r2 : Regex)
| RAlt (r1 r2 : Regex)
| RStar (r : Regex).

Definition RPlus (r : Regex) : Regex := RSeq r (RStar r).

Definition class_matches (cls : CharClass) (c : string) : bool :=
  match cls with
  | Literal l => String.eqb c l
  | NotSpaceNor l => negb (is_white_space c) && negb (String.eqb c l)
  end.

Fixpoint nullable (r : Regex) : bool :=
  match r with
  | RNone => false
  | REps => true
  | RChar _ => false
  | RSeq r1 r2 => nullable r1 && nullable r2
  | RAlt r1 r2 => nullable r1 || nullable r2
  | RStar _ => true
  end.

Fixpoint derive (c : string) (r : Regex) : Regex :=
  match r with
  | RNone => RNone
  | REps => RNone
  | RChar cls => if class_matches cls c then REps else RNone
  | RSeq r1 r2 =>
      if nullable r1 then RAlt (RSeq (derive c r1) r2) (derive c r2)
      else RSeq (derive c r1) r2
  | RAlt r1 r2 => RAlt (derive c r1) (derive c r2)
  | RStar r1 => RSeq (derive c r1) (RStar r1)
  end.

(** Does [r], anchored at both ends, match the whole of [cs]? *)
Fixpoint matches_chars (r : Regex) (cs : list string) : bool :=
  match cs with
  | [] => nullable r
  | c :: rest => matches_chars (derive c r) rest
  end.

Definition regex_test (r : Regex) (s : string) : bool := matches_chars r (chars s).

(** [/^[^\s@]+@[^\s@]+\.[^\s@]+$/] *)
Definition email_pattern : Regex :=
  RSeq (RPlus (RChar (NotSpaceNor "@")))
    (RSeq (RChar (Literal "@"))
      (RSeq (RPlus (RChar (NotSpaceNor "@")))
        (RSeq (RChar (Literal "."))
          (RPlus (RChar (NotSpaceNor "@")))))).

(* ===================================================================== *)
(** ** utils/validators.ts *)
(* ===================================================================== *)

Definition validatePositiveInteger (value : JsValue) (fieldName : string) : Result unit :=
  throw_if (negb (is_number value) || negb (isInteger value) || le_zero value)
    (fieldName ++ " must be a positive integer").

Definition validateSortOrder (value : JsValue) : Result unit :=
  throw_if (negb (is_undefined value)
            && negb (strict_eq_string value "asc")
            && negb (strict_eq_string value "desc"))
    ("Sort order must be " ++ dquote ++ "asc" ++ dquote ++ " or "
     ++ dquote ++ "desc" ++ dquote).

Definition validateLimit (value : JsValue) : Result unit :=
  if negb (is_undefined value) then
    throw_if (negb (is_number value) || negb (isInteger value) || le_zero value)
      "Limit must be a positive integer"
  else Ok tt.

Definition validateString (value : JsValue) (fieldName : string) : Result unit :=
  match value with
  | JStr s => throw_if (is_empty (trim s)) (fieldName ++ " must be a non-empty string")
  | _ => Throw (JsError (fieldName ++ " must be a non-empty string"))
  end.

Definition validateEmail (value : JsValue) : Result unit :=
  match value with
  | JStr s => throw_if (negb (regex_test email_pattern s)) "Invalid email format"
  | _ => Throw (JsError "Invalid email format")
  end.

Definition sanitizePathSegment (value : string) : Result string :=
  encodeURIComponent (trim value).

(* ===================================================================== *)
(** ** The platform and the upstream service *)
(* ===================================================================== *)

(** The four operations of [utils/api.ts], as the call a resource function
    ends in. *)
Inductive ApiCall : Type :=
| Get (endpoint : string) (params : JsValue)
| Post (endpoint : string) (data : JsValue)
| Put (endpoint : string) (data : JsValue)
| Del (endpoint : string).

(** What the axios instance settles with once the request has left: the
    response (its [data]) or a rejection. *)
Inductive Outcome : Type :=
| Response (data : JsValue)
| Rejected (t : Thrown).

(** *** A sample platform

    One concrete choice of the platform functions and of the upstream
    service, on which the properties below are instantiated: URLs are
    recognized by their scheme prefix, reads answer with an empty list,
    writes echo their body and deletions fail with a 500. *)

Definition sample_URL_protocol (s : string) : option string :=
  if String.prefix "https://" s then Some "https:"
  else if String.prefix "http://" s then Some "http:"
  else if String.prefix "ftp://" s then Some "ftp:"
  else None.

Definition sample_Number_toString_other (n : number) : string := "1e+21".

Definition sample_JSON_stringify (v : JsValue) : option string :=
  match v with
  | JUndefined => None
  | JArr [] => Some "[]"
  | JStr s => Some (dquote ++ s ++ dquote)
  | _ => Some "{}"
  end.

Definition sample_upstream (history : list ApiCall) (c : ApiCall) : Outcome :=
  match c with
  | Get _ _ => Response (JArr [])
  | Post _ data => Response data
  | Put _ data => Response data
  | Del _ =>
      Rejected (AxiosError "Request failed with status code 500"
                  (Some (Finite (inject_Z 500))) (Some "ERR_BAD_RESPONSE"))
  end.

Section Platform.

(** [new URL(s).protocol], [None] when the constructor throws. *)
Variable URL_protocol : string -> option string.

(** [Number::toString] outside the integers up to [2^53] in magnitude:
    fractions, exponent notation, and the integers whose shortest
    round-trip digits are not their exact decimal expansion. *)
Variable Number_toString_other : number -> string.

(** [JSON.stringify(v, null, 2)]; [None] is [undefined]. *)
Variable JSON_stringify : JsValue -> option string.

(** The upstream service together with the transport: what the request
    [c] settles with, given the requests that left before it. *)
Variable upstream : list ApiCall -> ApiCall -> Outcome.

(** [Number::toString]: an integer up to [2^53] in magnitude prints as
    its decimal digits. *)
Definition Number_toString (n : number) : string :=
  match n with
  | NaN => "NaN"
  | Infinity false => "Infinity"
  | Infinity true => "-Infinity"
  | Finite _ =>
      if Number_isInteger n && (Z.abs (number_to_Z n) <=? 2 ^ 53)
      then NilZero.string_of_int (Z.to_int (number_to_Z n))
      else Number_toString_other n
  end.

(** [`${v}`] *)
Fixpoint ToString (v : JsValue) : string :=
  match v with
  | JUndefined => "undefined"
  | JNull => "null"
  | JBool true => "true"
  | JBool false => "false"
  | JNum n => Number_toString n
  | JStr s => s
  | JArr items =>
      String.concat ","
        (map (fun x => if is_nullish x then EmptyString else ToString x) items)
  | JObj _ => "[object Object]"
  end.

Definition new_URL (s : string) : Result string :=
  match URL_protocol s with
  | Some protocol => Ok protocol
  | None => Throw (JsError "Invalid URL")
  end.

Definition validateUrl (value : JsValue) (fieldName : string) : Result unit :=
  match value with
  | JStr s =>
      do _ <- throw_if (is_empty (trim s)) (fieldName ++ " must be a non-empty string");
      try_catch
        (do protocol <- new_URL s;
         throw_if (negb (existsb (String.eqb protocol) ["http:"; "https:"]))
           (fieldName ++ " must use HTTP or HTTPS protocol"))
        (fun _ => Throw (JsError (fieldName ++ " must be a valid URL")))
  | _ => Throw (JsError (fieldName ++ " must be a non-empty string"))
  end.

(* ===================================================================== *)
(** ** Resource functions

    Every resource function is straight-line validation that ends in a tail
    call [return get(...)], [post(...)], [put(...)] or [del(...)].  It is
    modelled by its result up to that call: [Throw e] when it throws, and
    [Ok c] where [c] is the wrapper call it ends in; [invoke] below runs
    that call. *)
(* ===================================================================== *)

Definition is_array (v : JsValue) : bool :=
  match v with JArr _ => true | _ => false end.

(** The elements of a value known to be an array. *)
Definition items_of (v : JsValue) : list JsValue :=
  match v with JArr items => items | _ => [] end.

(** The contents of a value known to be a string. *)
Definition string_of (v : JsValue) : string :=
  match v with JStr s => s | _ => EmptyString end.

(** [if (cond) o.k = v] on a local object. *)
Definition set_if (cond : bool) (o : JsValue) (k : string) (v : JsValue) : JsValue :=
  if cond then set_prop o k v else o.

(** [o.k1.k2...kn = v], the objects along the path being mutated in place. *)
Fixpoint set_path (o : JsValue) (path : list string) (v : JsValue) : JsValue :=
  match path with
  | [] => v
  | k :: rest => set_prop o k (set_path (get_prop o k) rest v)
  end.

Definition set_path_if (cond : bool) (o : JsValue) (path : list string) (v : JsValue)
  : JsValue :=
  if cond then set_path o path v else o.

(** [l.forEach((x, index) => f x index)], from position [index] on. *)
Fixpoint forEach {A : Type} (f : A -> Z -> Result unit) (l : list A) (index : Z)
  : Result unit :=
  match l with
  | [] => Ok tt
  | x :: rest => do _ <- f x index; forEach f rest (index + 1)
  end.

(* --------------------------------------------------------------------- *)
(** *** tools/products.ts *)

Definition getAllProducts (args : JsValue) : Result ApiCall :=
  do _ <- destructure args "limit";
  let limit := get_prop args "limit" in
  let sort := get_prop args "sort" in
  do _ <- (if negb (is_undefined limit) then validateLimit limit else Ok tt);
  do _ <- (if negb (is_undefined sort) then validateSortOrder sort else Ok tt);
  let params := JObj [] in
  let params := set_if (truthy limit) params "limit" limit in
  let params := set_if (truthy sort) params "sort" sort in
  Ok (Get "/products" params).

Definition getProductById (args : JsValue) : Result ApiCall :=
  do _ <- destructure args "id";
  let id := get_prop args "id" in
  do _ <- validatePositiveInteger id "Product ID";
  Ok (Get ("/products/" ++ ToString id) JUndefined).

Definition getCategories : Result ApiCall :=
  Ok (Get "/products/categories" JUndefined).

Definition getProductsByCategory (args : JsValue) : Result ApiCall :=
  do _ <- destructure args "category";
  let category := get_prop args "category" in
  do _ <- throw_if (negb (truthy category) || negb (is_string category))
            "Category must be a non-empty string";
  do sanitizedCategory <- sanitizePathSegment (string_of category);
  Ok (Get ("/products/category/" ++ sanitizedCategory) JUndefined).

Definition addProduct (args : JsValue) : Result ApiCall :=
  do _ <- destructure args "title";
  let title := get_prop args "title" in
  let price := get_prop args "price" in
  let description := get_prop args "description" in
  let image := get_prop args "image" in
  let category := get_prop args "category" in
  do _ <- throw_if (negb (truthy title) || negb (is_string title))
            "Title must be a non-empty string";
  do _ <- throw_if (negb (is_number price) || le_zero price)
            "Price must be a positive number";
  do _ <- throw_if (negb (truthy description) || negb (is_string description))
            "Description must be a non-empty string";
  do _ <- validateUrl image "Image URL";
  do _ <- throw_if (negb (truthy category) || negb (is_string category))
            "Category must be a non-empty string";
  Ok (Post "/products"
        (JObj [("title", title); ("price", price); ("description", description);
               ("image", image); ("category", category)])).

Definition updateProduct (args : JsValue) : Result ApiCall :=
  do _ <- destructure args "id";
  let id := get_prop args "id" in
  let title := get_prop args "title" in
  let price := get_prop args "price" in
  let description := get_prop args "description" in
  let image := get_prop args "image" in
  let category := get_prop args "category" in
  do _ <- validatePositiveInteger id "Product ID";
  let updateData := JObj [] in
  let updateData := set_if (negb (is_undefined title)) updateData "title" title in
  let updateData := set_if (negb (is_undefined price)) updateData "price" price in
  let updateData :=
    set_if (negb (is_undefined description)) updateData "description" description in
  do updateData <-
    (if negb (is_undefined image) then
       do _ <- validateUrl image "Image URL";
       Ok (set_prop updateData "image" image)
     else Ok updateData);
  let updateData := set_if (negb (is_undefined category)) updateData "category" category in
  Ok (Put ("/products/" ++ ToString id) updateData).

Definition deleteProduct (args : JsValue) : Result ApiCall :=
  do _ <- destructure args "id";
  let id := get_prop args "id" in
  do _ <- validatePositiveInteger id "Product ID";
  Ok (Del ("/products/" ++ ToString id)).

(* --------------------------------------------------------------------- *)
(** *** tools/carts.ts *)

Definition getAllCarts (args : JsValue) : Result ApiCall :=
  do _ <- destructure args "limit";
  let limit := get_prop args "limit" in
  let sort := get_prop args "sort" in
  do _ <- (if negb (is_undefined limit) then validateLimit limit else Ok tt);
  do _ <- (if negb (is_undefined sort) then validateSortOrder sort else Ok tt);
  let params := JObj [] in
  let params := set_if (truthy limit) params "limit" limit in
  let params := set_if (truthy sort) params "sort" sort in
  Ok (Get "/carts" params).

Definition getCartById (args : JsValue) : Result ApiCall :=
  do _ <- destructure args "id";
  let id := get_prop args "id" in
  do _ <- validatePositiveInteger id "Cart ID";
  Ok (Get ("/carts/" ++ ToString id) JUndefined).

Definition getUserCarts (args : JsValue) : Result ApiCall :=
  do _ <- destructure args "userId";
  let userId := get_prop args "userId" in
  do _ <- validatePositiveInteger userId "User ID";
  Ok (Get ("/carts/user/" ++ ToString userId) JUndefined).

(** The callback of [products.forEach] in [addCart]. *)
Definition check_cart_product (product : JsValue) (index : Z) : Result unit :=
  do productId <- read_prop product "productId";
  do _ <- throw_if (negb (is_number productId) || le_zero productId)
            ("Product " ++ Number_toString (of_Z (index + 1))
             ++ ": productId must be a positive number");
  do quantity <- read_prop product "quantity";
  throw_if (negb (is_number quantity) || le_zero quantity)
    ("Product " ++ Number_toString (of_Z (index + 1))
     ++ ": quantity must be a positive number").

Definition addCart (args : JsValue) : Result ApiCall :=
  do _ <- destructure args "userId";
  let userId := get_prop args "userId" in
  let date := get_prop args "date" in
  let products := get_prop args "products" in
  do _ <- validatePositiveInteger userId "User ID";
  do _ <- throw_if (negb (truthy date) || negb (is_string date))
            "Date must be a non-empty string";
  do _ <- throw_if (negb (is_array products) || (Z.of_nat (length (items_of products)) =? 0))
            "Products must be a non-empty array";
  do _ <- forEach check_cart_product (items_of products) 0;
  Ok (Post "/carts"
        (JObj [("userId", userId); ("date", date); ("products", products)])).

Definition updateCart (args : JsValue) : Result ApiCall :=
  do _ <- destructure args "id";
  let id := get_prop args "id" in
  let userId := get_prop args "userId" in
  let date := get_prop args "date" in
  let products := get_prop args "products" in
  do _ <- validatePositiveInteger id "Cart ID";
  let updateData := JObj [] in
  do updateData <-
    (if negb (is_undefined userId) then
       do _ <- validatePositiveInteger userId "User ID";
       Ok (set_prop updateData "userId" userId)
     else Ok updateData);
  let updateData := set_if (negb (is_undefined date)) updateData "date" date in
  do updateData <-
    (if negb (is_undefined products) then
       do _ <- throw_if (negb (is_array products)
                         || (Z.of_nat (length (items_of products)) =? 0))
                 "Products must be a non-empty array";
       Ok (set_prop updateData "products" products)
     else Ok updateData);
  Ok (Put ("/carts/" ++ ToString id) updateData).

Definition deleteCart (args : JsValue) : Result ApiCall :=
  do _ <- destructure args "id";
  let id := get_prop args "id" in
  do _ <- validatePositiveInteger id "Cart ID";
  Ok (Del ("/carts/" ++ ToString id)).

(* --------------------------------------------------------------------- *)
(** *** tools/users.ts *)

Definition getAllUsers (args : JsValue) : Result ApiCall :=
  do _ <- destructure args "limit";
  let limit := get_prop args "limit" in
  let sort := get_prop args "sort" in
  do _ <- (if negb (is_undefined limit) then validateLimit limit else Ok tt);
  do _ <- (if negb (is_undefined sort) then validateSortOrder sort else Ok tt);
  let params := JObj [] in
  let params := set_if (truthy limit) params "limit" limit in
  let params := set_if (truthy sort) params "sort" sort in
  Ok (Get "/users" params).

Definition getUserById (args : JsValue) : Result ApiCall :=
  do _ <- destructure args "id";
  let id := get_prop args "id" in
  do _ <- validatePositiveInteger id "User ID";
  Ok (Get ("/users/" ++ ToString id) JUndefined).

Definition addUser (args : JsValue) : Result ApiCall :=
  do _ <- destructure args "email";
  let email := get_prop args "email" in
  let username := get_prop args "username" in
  let password := get_prop args "password" in
  let firstname := get_prop args "firstname" in
  let lastname := get_prop args "lastname" in
  let city := get_prop args "city" in
  let street := get_prop args "street" in
  let number := get_prop args "number" in
  let zipcode := get_prop args "zipcode" in
  let lat := get_prop args "lat" in
  let long := get_prop args "long" in
  let phone := get_prop args "phone" in
  do _ <- throw_if (negb (truthy email) || negb (is_string email))
            "Email must be a non-empty string";
  do _ <- throw_if (negb (truthy username) || negb (is_string username))
            "Username must be a non-empty string";
  do _ <- throw_if (negb (truthy password) || negb (is_string password))
            "Password must be a non-empty string";
  do _ <- throw_if (negb (truthy firstname) || negb (is_string firstname))
            "First name must be a non-empty string";
  do _ <- throw_if (negb (truthy lastname) || negb (is_string lastname))
            "Last name must be a non-empty string";
  Ok (Post "/users"
        (JObj [("email", email);
               ("username", username);
               ("password", password);
               ("name", JObj [("firstname", firstname); ("lastname", lastname)]);
               ("address",
                JObj [("city", city);
                      ("street", street);
                      ("number", number);
                      ("zipcode", zipcode);
                      ("geolocation", JObj [("lat", lat); ("long", long)])]);
               ("phone", phone)])).

Definition updateUser (args : JsValue) : Result ApiCall :=
  do _ <- destructure args "id";
  let id := get_prop args "id" in
  let email := get_prop args "email" in
  let username := get_prop args "username" in
  let password := get_prop args "password" in
  let firstname := get_prop args "firstname" in
  let lastname := get_prop args "lastname" in
  let city := get_prop args "city" in
  let street := get_prop args "street" in
  let number := get_prop args "number" in
  let zipcode := get_prop args "zipcode" in
  let lat := get_prop args "lat" in
  let long := get_prop args "long" in
  let phone := get_prop args "phone" in
  do _ <- validatePositiveInteger id "User ID";
  let updateData := JObj [] in
  let updateData := set_if (negb (is_undefined email)) updateData "email" email in
  let updateData := set_if (negb (is_undefined username)) updateData "username" username in
  let updateData := set_if (negb (is_undefined password)) updateData "password" password in
  let updateData := set_if (negb (is_undefined phone)) updateData "phone" phone in
  (* Handle name updates *)
  let updateData :=
    if negb (is_undefined firstname) || negb (is_undefined lastname) then
      let updateData := set_path updateData ["name"] (JObj []) in
      let updateData :=
        set_path_if (negb (is_undefined firstname)) updateData ["name"; "firstname"] firstname in
      let updateData :=
        set_path_if (negb (is_undefined lastname)) updateData ["name"; "lastname"] lastname in
      updateData
    else updateData in
  (* Handle address updates *)
  let updateData :=
    if negb (is_undefined city) || negb (is_undefined street) || negb (is_undefined number)
       || negb (is_undefined zipcode) || negb (is_undefined lat) || negb (is_undefined long)
    then
      let updateData := set_path updateData ["address"] (JObj []) in
      let updateData :=
        set_path_if (negb (is_undefined city)) updateData ["address"; "city"] city in
      let updateData :=
        set_path_if (negb (is_undefined street)) updateData ["address"; "street"] street in
      let updateData :=
        set_path_if (negb (is_undefined number)) updateData ["address"; "number"] number in
      let updateData :=
        set_path_if (negb (is_undefined zipcode)) updateData ["address"; "zipcode"] zipcode in
      if negb (is_undefined lat) || negb (is_undefined long) then
        let updateData := set_path updateData ["address"; "geolocation"] (JObj []) in
        let updateData :=
          set_path_if (negb (is_undefined lat)) updateData
            ["address"; "geolocation"; "lat"] lat in
        let updateData :=
          set_path_if (negb (is_undefined long)) updateData
            ["address"; "geolocation"; "long"] long in
        updateData
      else updateData
    else updateData in
  Ok (Put ("/users/" ++ ToString id) updateData).

Definition deleteUser (args : JsValue) : Result ApiCall :=
  do _ <- destructure args "id";
  let id := get_prop args "id" in
  do _ <- validatePositiveInteger id "User ID";
  Ok (Del ("/users/" ++ ToString id)).

(* ===================================================================== *)
(** ** utils/api.ts *)
(* ===================================================================== *)

(** The process-wide state: the module variable [requestCount], the
    callbacks handed to [setTimeout] and still pending (each by the time it
    is due), the clock in milliseconds, and the requests that have left for
    the upstream service, oldest first. *)
Record World : Type := mkWorld {
  requestCount : Z;
  timers : list Z;
  clock : Z;
  sent : list ApiCall
}.

(** The world when the process starts. *)
Definition start : World := mkWorld 0 [] 0 [].

Definition RATE_LIMIT : Z := 100.
Definition RATE_LIMIT_WINDOW : Z := 60000.

(** The request interceptor of the axios instance. *)
Definition rateLimitInterceptor (w : World) : Result unit * World :=
  let w := mkWorld (requestCount w + 1) (timers w) (clock w) (sent w) in
  if RATE_LIMIT <? requestCount w then
    (Throw (JsError ("Rate limit exceeded. Maximum " ++ Number_toString (of_Z RATE_LIMIT)
                     ++ " requests per minute allowed.")), w)
  else
    (Ok tt, mkWorld (requestCount w) (timers w ++ [clock w + RATE_LIMIT_WINDOW])
                    (clock w) (sent w)).

(** The callback given to [setTimeout]. *)
Definition timerCallback (w : World) : World :=
  if 0 <? requestCount w
  then mkWorld (requestCount w - 1) (timers w) (clock w) (sent w)
  else w.

(** The event loop letting [ms] milliseconds pass: every timer that has
    become due runs its callback and is gone. *)
Definition advance (ms : Z) (w : World) : World :=
  let now := clock w + Z.max 0 ms in
  let due := filter (fun t => t <=? now) (timers w) in
  let pending := filter (fun t => negb (t <=? now)) (timers w) in
  fold_left (fun w' _ => timerCallback w') due
    (mkWorld (requestCount w) pending now (sent w)).

(** [api.get], [api.post], [api.put], [api.delete]: the interceptor runs
    first; a request it lets through leaves for the upstream service. *)
Definition api_request (c : ApiCall) (w : World) : Result JsValue * World :=
  match rateLimitInterceptor w with
  | (Throw t, w1) => (Throw t, w1)
  | (Ok _, w1) =>
      let w2 := mkWorld (requestCount w1) (timers w1) (clock w1) (sent w1 ++ [c]) in
      match upstream (sent w1) c with
      | Response data => (Ok data, w2)
      | Rejected t => (Throw t, w2)
      end
  end.

Definition handleApiError (error : Thrown) : ApiError :=
  match error with
  | AxiosError msg response_status error_code =>
      mkApiError (if is_empty msg then "API request failed" else msg)
                 response_status error_code
  | JsError msg => mkApiError msg None None
  | _ => mkApiError "Unknown error occurred" None None
  end.

Definition get (endpoint : string) (params : JsValue) (w : World)
  : Result JsValue * World :=
  match api_request (Get endpoint params) w with
  | (Ok data, w') => (Ok data, w')
  | (Throw error, w') => (Throw (ThrownObject (handleApiError error)), w')
  end.

Definition post (endpoint : string) (data : JsValue) (w : World)
  : Result JsValue * World :=
  match api_request (Post endpoint data) w with
  | (Ok data, w') => (Ok data, w')
  | (Throw error, w') => (Throw (ThrownObject (handleApiError error)), w')
  end.

Definition put (endpoint : string) (data : JsValue) (w : World)
  : Result JsValue * World :=
  match api_request (Put endpoint data) w with
  | (Ok data, w') => (Ok data, w')
  | (Throw error, w') => (Throw (ThrownObject (handleApiError error)), w')
  end.

Definition del (endpoint : string) (w : World) : Result JsValue * World :=
  match api_request (Del endpoint) w with
  | (Ok data, w') => (Ok data, w')
  | (Throw error, w') => (Throw (ThrownObject (handleApiError error)), w')
  end.

(** Making the call a resource function ends in. *)
Definition perform (c : ApiCall) (w : World) : Result JsValue * World :=
  match c with
  | Get endpoint params => get endpoint params w
  | Post endpoint data => post endpoint data w
  | Put endpoint data => put endpoint data w
  | Del endpoint => del endpoint w
  end.

(** Running a resource function: nothing touches the world when it throws
    before its call. *)
Definition invoke (f : Result ApiCall) (w : World) : Result JsValue * World :=
  match f with
  | Ok c => perform c w
  | Throw t => (Throw t, w)
  end.

(* ===================================================================== *)
(** ** index.ts *)
(* ===================================================================== *)

(** A JSON schema as the catalogs write them: [type: 'number'],
    [type: 'string'] with its [enum] if any, [type: 'array'] with its
    [items], [type: 'object'] with its [properties] and its [required]
    keys (none when the key is absent).  Descriptions are left out. *)
Inductive Schema : Type :=
| SNumber
| SString (enum : option (list string))
| SArray (items : Schema)
| SObject (properties : list (string * Schema)) (required_keys : list string).

(** A catalog entry. *)
Record Tool : Type := mkTool {
  name : string;
  inputSchema : Schema
}.

Definition string_schema : Schema := SString None.

Definition list_schema : Schema :=
  SObject [("limit", SNumber); ("sort", SString (Some ["asc"; "desc"]))] [].

Definition id_schema : Schema := SObject [("id", SNumber)] ["id"].

(** The [items] of [products] in the two cart tools that take them. *)
Definition cart_entry_schema : Schema :=
  SObject [("productId", SNumber); ("quantity", SNumber)] ["productId"; "quantity"].

Definition productTools : list Tool :=
  [ mkTool "fakestore_get_products" list_schema;
    mkTool "fakestore_get_product" id_schema;
    mkTool "fakestore_get_categories" (SObject [] []);
    mkTool "fakestore_get_products_by_category"
      (SObject [("category", string_schema)] ["category"]);
    mkTool "fakestore_add_product"
      (SObject
         [("title", string_schema); ("price", SNumber); ("description", string_schema);
          ("image", string_schema); ("category", string_schema)]
         ["title"; "price"; "description"; "image"; "category"]);
    mkTool "fakestore_update_product"
      (SObject
         [("id", SNumber); ("title", string_schema); ("price", SNumber);
          ("description", string_schema); ("image", string_schema);
          ("category", string_schema)]
         ["id"]);
    mkTool "fakestore_delete_product" id_schema ].

Definition cartTools : list Tool :=
  [ mkTool "fakestore_get_carts" list_schema;
    mkTool "fakestore_get_cart" id_schema;
    mkTool "fakestore_get_user_carts" (SObject [("userId", SNumber)] ["userId"]);
    mkTool "fakestore_add_cart"
      (SObject
         [("userId", SNumber); ("date", string_schema);
          ("products", SArray cart_entry_schema)]
         ["userId"; "date"; "products"]);
    mkTool "fakestore_update_cart"
      (SObject
         [("id", SNumber); ("userId", SNumber); ("date", string_schema);
          ("products", SArray cart_entry_schema)]
         ["id"]);
    mkTool "fakestore_delete_cart" id_schema ].

Definition userTools : list Tool :=
  [ mkTool "fakestore_get_users" list_schema;
    mkTool "fakestore_get_user" id_schema;
    mkTool "fakestore_add_user"
      (SObject
         [("email", string_schema); ("username", string_schema);
          ("password", string_schema); ("firstname", string_schema);
          ("lastname", string_schema); ("city", string_schema);
          ("street", string_schema); ("number", SNumber); ("zipcode", string_schema);
          ("lat", string_schema); ("long", string_schema); ("phone", string_schema)]
         ["email"; "username"; "password"; "firstname"; "lastname"; "city"; "street";
          "number"; "zipcode"; "lat"; "long"; "phone"]);
    mkTool "fakestore_update_user"
      (SObject
         [("id", SNumber); ("email", string_schema); ("username", string_schema);
          ("password", string_schema); ("firstname", string_schema);
          ("lastname", string_schema); ("city", string_schema);
          ("street", string_schema); ("number", SNumber); ("zipcode", string_schema);
          ("lat", string_schema); ("long", string_schema); ("phone", string_schema)]
         ["id"]);
    mkTool "fakestore_delete_user" id_schema ].

(** The ListTools handler. *)
Definition listTools : list Tool := productTools ++ cartTools ++ userTools.

(** [request.params] of a CallTool request, as the host's request schema
    admits it: a string and an argument bag that is a JSON record or
    absent. *)
Record CallToolParams : Type := mkParams {
  params_name : string;
  params_arguments : JsValue
}.

(** The response: the [text] of its single content item ([None] when
    [JSON.stringify] gave [undefined]) and the [isError] flag, [false]
    standing for its absence. *)
Record Envelope : Type := mkEnvelope {
  text : option string;
  isError : bool
}.

(** [const result = await f(args); return { content: [{ type: 'text',
    text: JSON.stringify(result, null, 2) }] }] *)
Definition respond (r : Result JsValue * World) : Result Envelope * World :=
  match r with
  | (Ok result, w) => (Ok (mkEnvelope (JSON_stringify result) false), w)
  | (Throw t, w) => (Throw t, w)
  end.

(** The [try] block of the CallTool handler. *)
Definition try_block (name : string) (args : JsValue) (w : World)
  : Result Envelope * World :=
  (* Product tools *)
  if String.eqb name "fakestore_get_products" then
    respond (invoke (getAllProducts args) w)
  else if String.eqb name "fakestore_get_product" then
    respond (invoke (getProductById args) w)
  else if String.eqb name "fakestore_get_categories" then
    respond (invoke getCategories w)
  else if String.eqb name "fakestore_get_products_by_category" then
    respond (invoke (getProductsByCategory args) w)
  else if String.eqb name "fakestore_add_product" then
    respond (invoke (addProduct args) w)
  else if String.eqb name "fakestore_update_product" then
    respond (invoke (updateProduct args) w)
  else if String.eqb name "fakestore_delete_product" then
    respond (invoke (deleteProduct args) w)
  (* Cart tools *)
  else if String.eqb name "fakestore_get_carts" then
    respond (invoke (getAllCarts args) w)
  else if String.eqb name "fakestore_get_cart" then
    respond (invoke (getCartById args) w)
  else if String.eqb name "fakestore_get_user_carts" then
    respond (invoke (getUserCarts args) w)
  else if String.eqb name "fakestore_add_cart" then
    respond (invoke (addCart args) w)
  else if String.eqb name "fakestore_update_cart" then
    respond (invoke (updateCart args) w)
  else if String.eqb name "fakestore_delete_cart" then
    respond (invoke (deleteCart args) w)
  (* User tools *)
  else if String.eqb name "fakestore_get_users" then
    respond (invoke (getAllUsers args) w)
  else if String.eqb name "fakestore_get_user" then
    respond (invoke (getUserById args) w)
  else if String.eqb name "fakestore_add_user" then
    respond (invoke (addUser args) w)
  else if String.eqb name "fakestore_update_user" then
    respond (invoke (updateUser args) w)
  else if String.eqb name "fakestore_delete_user" then
    respond (invoke (deleteUser args) w)
  else (Throw (JsError ("Unknown tool: " ++ name)), w).

(** [error instanceof Error ? error.message : 'Unknown error occurred'] *)
Definition errorMessage (error : Thrown) : string :=
  match error with
  | JsError msg => msg
  | AxiosError msg _ _ => msg
  | _ => "Unknown error occurred"
  end.

(** The CallTool request handler: what it returns, or what escapes it. *)
Definition callToolHandler (params : CallToolParams) (w : World)
  : Result Envelope * World :=
  let name := params_name params in
  let args := params_arguments params in
  match try_block name args w with
  | (Ok response, w') => (Ok response, w')
  | (Throw error, w') =>
      (Ok (mkEnvelope (Some ("Error: " ++ errorMessage error)) true), w')
  end.

(* ===================================================================== *)
(** ** Vocabulary of the specification *)
(* ===================================================================== *)

(** [v] is a number whose value is a positive integer. *)
Definition positive_integer (v : JsValue) : Prop :=
  exists (p : positive) (q : Q), v = JNum (Finite q) /\ (q == inject_Z (Zpos p))%Q.

(** [v] is a number that is zero or negative. *)
Definition zero_or_negative (v : JsValue) : Prop :=
  v = JNum (Infinity true) \/ exists q : Q, v = JNum (Finite q) /\ (q <= 0)%Q.

(** [v] is not of type number. *)
Definition not_a_number (v : JsValue) : Prop := forall n : number, v <> JNum n.

(** [s] is a non-empty string value. *)
Definition nonempty_string (v : JsValue) : Prop :=
  exists s : string, v = JStr s /\ s <> EmptyString.

(** The identifier and limit fields of the tool operations: tool name and
    key in its argument bag. *)
Definition integer_fields : list (string * string) :=
  [ ("fakestore_get_products", "limit");
    ("fakestore_get_product", "id");
    ("fakestore_update_product", "id");
    ("fakestore_delete_product", "id");
    ("fakestore_get_carts", "limit");
    ("fakestore_get_cart", "id");
    ("fakestore_get_user_carts", "userId");
    ("fakestore_add_cart", "userId");
    ("fakestore_update_cart", "id");
    ("fakestore_update_cart", "userId");
    ("fakestore_delete_cart", "id");
    ("fakestore_get_users", "limit");
    ("fakestore_get_user", "id");
    ("fakestore_update_user", "id");
    ("fakestore_delete_user", "id") ].

(** The double nearest to the decimal [19.99]. *)
Definition price_19_99 : number := Finite (5626684784446013 # 281474976710656).

(** The message of the rate-limit interceptor. *)
Definition rate_limit_message : string :=
  "Rate limit exceeded. Maximum 100 requests per minute allowed.".

(** Whatever [r] throws carries, for the dispatcher, a non-empty message. *)
Definition throws_with_message {A : Type} (r : Result A) : Prop :=
  forall t, r = Throw t -> errorMessage t <> EmptyString.

(** The keys [updateUser] reads besides [id] and [firstname]. *)
Definition other_user_keys : list string :=
  [ "email"; "username"; "password"; "lastname"; "city"; "street"; "number";
    "zipcode"; "lat"; "long"; "phone" ].

(** *** Vocabulary for the remaining operations *)

(** The strings a regular expression denotes, as lists of characters. *)
Inductive lang : Regex -> list string -> Prop :=
| lang_eps : lang REps []
| lang_char cls c : class_matches cls c = true -> lang (RChar cls) [c]
| lang_seq r1 r2 u v : lang r1 u -> lang r2 v -> lang (RSeq r1 r2) (u ++ v)
| lang_alt_l r1 r2 u : lang r1 u -> lang (RAlt r1 r2) u
| lang_alt_r r1 r2 u : lang r2 u -> lang (RAlt r1 r2) u
| lang_star_nil r : lang (RStar r) []
| lang_star_cons r u v : lang r u -> lang (RStar r) v -> lang (RStar r) (u ++ v).

(** A character that is neither white space nor [@]. *)
Definition plain_char (c : string) : bool :=
  negb (is_white_space c) && negb (String.eqb c "@").

(** [local@domain.tld], each part non-empty and made of plain characters
    (the domain and the last part may hold further dots). *)
Definition email_shape (cs : list string) : Prop :=
  exists local domain tld : list string,
    cs = (local ++ ["@"] ++ domain ++ ["."] ++ tld)%list
    /\ local <> [] /\ domain <> [] /\ tld <> []
    /\ forallb plain_char local = true
    /\ forallb plain_char domain = true
    /\ forallb plain_char tld = true.

(** The fields of an object literal that are not [undefined], in order. *)
Definition supplied (fields : list (string * JsValue)) : list (string * JsValue) :=
  filter (fun kv => negb (is_undefined (snd kv))) fields.

(** [v] is a number that is not [<= 0] (fractions, [Infinity] and [NaN]
    included). *)
Definition passes_positive_number (v : JsValue) : Prop :=
  exists n : number, v = JNum n /\ number_le_zero n = false.

(** [v] is an array with at least one element. *)
Definition nonempty_array (v : JsValue) : Prop :=
  exists x rest, v = JArr (x :: rest).

(** The value of a hexadecimal digit [0-9A-F]. *)
Definition hex_value (c : ascii) : Z :=
  let n := byte_value c in if n <? 58 then n - 48 else n - 55.

(** Percent-decoding: [%XX] back to the byte it stands for. *)
Fixpoint percent_decode (s : string) : string :=
  match s with
  | EmptyString => EmptyString
  | String c r =>
      if Ascii.eqb c "%" then
        match r with
        | String h1 (String h2 r') =>
            String (byte (16 * hex_value h1 + hex_value h2)) (percent_decode r')
        | _ => String c (percent_decode r)
        end
      else String c (percent_decode r)
  end.

(** What happens to the process over time: a wrapper call, or the event
    loop letting some milliseconds pass. *)
Inductive Event : Type :=
| Call (c : ApiCall)
| Wait (ms : Z).

Fixpoint run (events : list Event) (w : World) : World :=
  match events with
  | [] => w
  | Call c :: rest => run rest (snd (perform c w))
  | Wait ms :: rest => run rest (advance ms w)
  end.

(** The wrapper calls among the events. *)
Fixpoint calls (events : list Event) : list ApiCall :=
  match events with
  | [] => []
  | Call c :: rest => c :: calls rest
  | Wait _ :: rest => calls rest
  end.

(** The counter exceeds the pending decrements by the cap or more. *)
Definition locked_out (w : World) : Prop :=
  RATE_LIMIT <= requestCount w - Z.of_nat (length (timers w)).

(** The keys a tool's [inputSchema] lists as [required]. *)
Definition required (t : Tool) : list string :=
  match inputSchema t with
  | SObject _ required_keys => required_keys
  | _ => []
  end.

(** The keys a tool's [inputSchema] requires of the entries of an array
    property: the pairs of the property and the key. *)
Definition required_of_entries (t : Tool) : list (string * string) :=
  match inputSchema t with
  | SObject properties _ =>
      flat_map
        (fun p =>
           match snd p with
           | SArray (SObject _ required_keys) => map (pair (fst p)) required_keys
           | _ => []
           end)
        properties
  | _ => []
  end.

(** A string without a lone surrogate, on which [encodeURIComponent]
    returns. *)
Definition well_formed (s : string) : Prop := has_lone_surrogate s = false.

(** The keys of [addUser] that its schema requires and its code never
    looks at. *)
Definition unchecked_user_keys : list string :=
  [ "city"; "street"; "number"; "zipcode"; "lat"; "long"; "phone" ].

(** An entry of [products] that [addCart] lets through: an object (or any
    value but [null] and [undefined]) whose [productId] and [quantity] are
    numbers that are not [<= 0]. *)
Definition cart_entry_ok (entry : JsValue) : Prop :=
  is_nullish entry = false
  /\ passes_positive_number (get_prop entry "productId")
  /\ passes_positive_number (get_prop entry "quantity").

(** A nested object of an update body: present when it has a field. *)
Definition nest (k : string) (fields : list (string * JsValue))
  : list (string * JsValue) :=
  match fields with
  | [] => []
  | _ :: _ => [(k, JObj fields)]
  end.

(* ===================================================================== *)
(** ** Properties *)
(* ===================================================================== *)

(** *** Validators *)

Lemma positive_integer_check (v : JsValue) :
  negb (is_number v) || negb (isInteger v) || le_zero v = false <-> positive_integer v.
Proof.
  split.
  - destruct v as [| | b | n | s | l | l]; simpl; try discriminate.
    destruct n as [| neg | q]; simpl; try discriminate.
    intros H. apply orb_false_iff in H. destruct H as [Hint Hle].
    apply negb_false_iff in Hint. apply Z.eqb_eq in Hint.
    unfold Qle_bool in Hle. simpl in Hle. apply Z.leb_gt in Hle.
    apply Z.mod_divide in Hint; [| discriminate].
    destruct Hint as [k Hk].
    assert (Hpos : 0 < k) by nia.
    destruct k as [| p | p]; try lia.
    exists p, q. split; [reflexivity |].
    unfold Qeq. simpl. lia.
  - intros (p & q & -> & Hq). simpl.
    unfold Qeq in Hq. simpl in Hq.
    apply orb_false_iff. split.
    + apply negb_false_iff. apply Z.eqb_eq.
      replace (Qnum q) with (Zpos p * Zpos (Qden q)) by lia.
      apply Z_mod_mult.
    + unfold Qle_bool. simpl. apply Z.leb_gt. nia.
Qed.

Lemma validatePositiveInteger_ok (v : JsValue) (fieldName : string) :
  validatePositiveInteger v fieldName = Ok tt <-> positive_integer v.
Proof.
  unfold validatePositiveInteger, throw_if.
  rewrite <- positive_integer_check.
  destruct (negb (is_number v) || negb (isInteger v) || le_zero v);
    split; intros H; try reflexivity; discriminate.
Qed.

Lemma validatePositiveInteger_throws (v : JsValue) (fieldName : string) :
  ~ positive_integer v ->
  validatePositiveInteger v fieldName
  = Throw (JsError (fieldName ++ " must be a positive integer")).
Proof.
  intros H. unfold validatePositiveInteger, throw_if.
  destruct (negb (is_number v) || negb (isInteger v) || le_zero v) eqn:E;
    [reflexivity |].
  apply positive_integer_check in E. contradiction.
Qed.

Lemma validateLimit_throws (v : JsValue) :
  v <> JUndefined -> ~ positive_integer v ->
  validateLimit v = Throw (JsError "Limit must be a positive integer").
Proof.
  intros Hdef H. unfold validateLimit, throw_if.
  destruct v; try contradiction; simpl; try reflexivity.
  match goal with |- (if ?c then _ else _) = _ => destruct c eqn:E end;
    [reflexivity |].
  exfalso. apply H. apply positive_integer_check. exact E.
Qed.

Lemma destructure_cases (args : JsValue) (k : string) :
  destructure args k = Ok tt \/ exists msg, destructure args k = Throw (JsError msg).
Proof. destruct args; simpl; eauto. Qed.

Lemma destructure_object (props : list (string * JsValue)) (k : string) :
  destructure (JObj props) k = Ok tt.
Proof. reflexivity. Qed.

Lemma is_undefined_false (v : JsValue) : v <> JUndefined -> is_undefined v = false.
Proof. destruct v; intros H; try reflexivity; contradiction. Qed.

Lemma nonempty_string_check (v : JsValue) :
  nonempty_string v -> negb (truthy v) || negb (is_string v) = false.
Proof.
  intros (s & -> & Hs). destruct s; [contradiction | reflexivity].
Qed.

Lemma not_positive_number_check (v : JsValue) :
  not_a_number v \/ zero_or_negative v -> negb (is_number v) || le_zero v = true.
Proof.
  intros [H | [-> | (q & -> & Hq)]].
  - destruct v; try reflexivity. exfalso. apply (H n). reflexivity.
  - reflexivity.
  - simpl. apply Qle_bool_iff. exact Hq.
Qed.

(** Peels the validation steps off a resource function: a step that throws
    closes the goal, a step that passes is skipped. *)
Ltac step_throw_if :=
  match goal with
  | |- context [throw_if ?c ?m] =>
      let E := fresh "E" in
      destruct c eqn:E; unfold throw_if at 1; cbn [bind];
      [solve [eexists; reflexivity] |]
  end.

Ltac step_destructure :=
  match goal with
  | |- context [destructure ?a ?k] =>
      let m := fresh "m" in
      let D := fresh "D" in
      destruct (destructure_cases a k) as [D | [m D]]; rewrite D; cbn [bind];
      [| solve [eexists; reflexivity]]
  end.

Ltac reject_id :=
  intros args Hbad; step_destructure;
  rewrite validatePositiveInteger_throws by exact Hbad;
  cbn [bind]; eexists; reflexivity.

Ltac reject_limit :=
  intros args Hdef Hbad; step_destructure;
  rewrite (is_undefined_false _ Hdef); cbn [negb];
  rewrite (validateLimit_throws _ Hdef Hbad);
  cbn [bind]; eexists; reflexivity.

(** *** Identifier and limit fields, operation by operation *)

Lemma getAllProducts_rejects : forall args,
  get_prop args "limit" <> JUndefined -> ~ positive_integer (get_prop args "limit") ->
  exists msg, getAllProducts args = Throw (JsError msg).
Proof. unfold getAllProducts. reject_limit. Qed.

Lemma getAllCarts_rejects : forall args,
  get_prop args "limit" <> JUndefined -> ~ positive_integer (get_prop args "limit") ->
  exists msg, getAllCarts args = Throw (JsError msg).
Proof. unfold getAllCarts. reject_limit. Qed.

Lemma getAllUsers_rejects : forall args,
  get_prop args "limit" <> JUndefined -> ~ positive_integer (get_prop args "limit") ->
  exists msg, getAllUsers args = Throw (JsError msg).
Proof. unfold getAllUsers. reject_limit. Qed.

Lemma getProductById_rejects : forall args,
  ~ positive_integer (get_prop args "id") ->
  exists msg, getProductById args = Throw (JsError msg).
Proof. unfold getProductById. reject_id. Qed.

Lemma updateProduct_rejects : forall args,
  ~ positive_integer (get_prop args "id") ->
  exists msg, updateProduct args = Throw (JsError msg).
Proof. unfold updateProduct. reject_id. Qed.

Lemma deleteProduct_rejects : forall args,
  ~ positive_integer (get_prop args "id") ->
  exists msg, deleteProduct args = Throw (JsError msg).
Proof. unfold deleteProduct. reject_id. Qed.

Lemma getCartById_rejects : forall args,
  ~ positive_integer (get_prop args "id") ->
  exists msg, getCartById args = Throw (JsError msg).
Proof. unfold getCartById. reject_id. Qed.

Lemma getUserCarts_rejects : forall args,
  ~ positive_integer (get_prop args "userId") ->
  exists msg, getUserCarts args = Throw (JsError msg).
Proof. unfold getUserCarts. reject_id. Qed.

Lemma addCart_rejects_userId : forall args,
  ~ positive_integer (get_prop args "userId") ->
  exists msg, addCart args = Throw (JsError msg).
Proof. unfold addCart. reject_id. Qed.

Lemma updateCart_rejects_id : forall args,
  ~ positive_integer (get_prop args "id") ->
  exists msg, updateCart args = Throw (JsError msg).
Proof. unfold updateCart. reject_id. Qed.

Lemma updateCart_rejects_userId : forall args,
  get_prop args "userId" <> JUndefined -> ~ positive_integer (get_prop args "userId") ->
  exists msg, updateCart args = Throw (JsError msg).
Proof.
  unfold updateCart. intros args Hdef Hbad. step_destructure.
  unfold validatePositiveInteger at 1. step_throw_if.
  rewrite (is_undefined_false _ Hdef). cbn [negb].
  rewrite validatePositiveInteger_throws by exact Hbad.
  cbn [bind]. eexists; reflexivity.
Qed.

Lemma deleteCart_rejects : forall args,
  ~ positive_integer (get_prop args "id") ->
  exists msg, deleteCart args = Throw (JsError msg).
Proof. unfold deleteCart. reject_id. Qed.

Lemma getUserById_rejects : forall args,
  ~ positive_integer (get_prop args "id") ->
  exists msg, getUserById args = Throw (JsError msg).
Proof. unfold getUserById. reject_id. Qed.

Lemma updateUser_rejects : forall args,
  ~ positive_integer (get_prop args "id") ->
  exists msg, updateUser args = Throw (JsError msg).
Proof. unfold updateUser. reject_id. Qed.

Lemma deleteUser_rejects : forall args,
  ~ positive_integer (get_prop args "id") ->
  exists msg, deleteUser args = Throw (JsError msg).
Proof. unfold deleteUser. reject_id. Qed.

(** *** The entries of [products] in [addCart] *)

Lemma read_prop_cases (o : JsValue) (k : string) :
  read_prop o k = Ok (get_prop o k) \/ exists msg, read_prop o k = Throw (JsError msg).
Proof. destruct o; simpl; eauto. Qed.

Ltac step_read_prop :=
  match goal with
  | |- context [read_prop ?o ?k] =>
      let m := fresh "m" in
      let D := fresh "D" in
      destruct (read_prop_cases o k) as [D | [m D]]; rewrite D; cbn [bind];
      [| solve [eauto]]
  end.

Lemma check_cart_product_cases (product : JsValue) (index : Z) :
  check_cart_product product index = Ok tt
  \/ exists msg, check_cart_product product index = Throw (JsError msg).
Proof.
  unfold check_cart_product, throw_if.
  step_read_prop.
  destruct (negb (is_number (get_prop product "productId"))
            || le_zero (get_prop product "productId"));
    cbn [bind]; [eauto |].
  step_read_prop.
  destruct (negb (is_number (get_prop product "quantity"))
            || le_zero (get_prop product "quantity")); eauto.
Qed.

Lemma check_cart_product_rejects (product v : JsValue) (index : Z) :
  v = get_prop product "productId" \/ v = get_prop product "quantity" ->
  not_a_number v \/ zero_or_negative v ->
  exists msg, check_cart_product product index = Throw (JsError msg).
Proof.
  intros Hv Hbad. apply not_positive_number_check in Hbad.
  unfold check_cart_product.
  step_read_prop.
  destruct Hv as [-> | ->].
  - rewrite Hbad. unfold throw_if. cbn [bind]. eauto.
  - destruct (negb (is_number (get_prop product "productId"))
              || le_zero (get_prop product "productId"));
      unfold throw_if at 1; cbn [bind]; [eauto |].
    step_read_prop.
    rewrite Hbad. unfold throw_if. eauto.
Qed.

Lemma forEach_rejects (entries : list JsValue) (entry : JsValue) :
  In entry entries ->
  (forall index, exists msg, check_cart_product entry index = Throw (JsError msg)) ->
  forall index, exists msg, forEach check_cart_product entries index = Throw (JsError msg).
Proof.
  intros Hin Hbad. induction entries as [| x rest IH]; [contradiction |].
  intros index. cbn [forEach].
  destruct Hin as [-> | Hin].
  - destruct (Hbad index) as [msg ->]. cbn [bind]. eauto.
  - destruct (check_cart_product_cases x index) as [-> | [msg ->]]; cbn [bind].
    + apply IH. exact Hin.
    + eauto.
Qed.

Lemma addCart_rejects_entry (props : list (string * JsValue))
      (entries : list JsValue) (entry v : JsValue) :
  assoc "products" props = Some (JArr entries) ->
  In entry entries ->
  v = get_prop entry "productId" \/ v = get_prop entry "quantity" ->
  not_a_number v \/ zero_or_negative v ->
  exists msg, addCart (JObj props) = Throw (JsError msg).
Proof.
  intros Hprods Hin Hv Hbad.
  unfold addCart. rewrite destructure_object. cbn [bind].
  unfold validatePositiveInteger at 1. step_throw_if. step_throw_if.
  assert (Hp : get_prop (JObj props) "products" = JArr entries)
    by (simpl; rewrite Hprods; reflexivity).
  rewrite Hp. step_throw_if.
  cbn [items_of].
  destruct (forEach_rejects entries entry Hin
              (fun index => check_cart_product_rejects entry v index Hv Hbad) 0)
    as [msg ->].
  cbn [bind]. eauto.
Qed.

(** *** What the dispatcher does with a resource function that throws *)

Lemma callToolHandler_throw (tool : string) (args : JsValue) (w w' : World) (t : Thrown) :
  try_block tool args w = (Throw t, w') ->
  callToolHandler (mkParams tool args) w
  = (Ok (mkEnvelope (Some ("Error: " ++ errorMessage t)) true), w').
Proof.
  intros H. unfold callToolHandler. simpl. rewrite H. reflexivity.
Qed.

(** Reduces the dispatch on a literal tool name to the resource function
    it selects, and closes the goal when that function throws. *)
Ltac dispatch_throw f H :=
  match goal with
  | |- exists msg, try_block ?tool ?args ?w = _ =>
      let m := fresh "msg" in
      destruct H as [m H]; exists m;
      change (respond (invoke (f args) w) = (Throw (JsError m), w));
      rewrite H; reflexivity
  end.

(** C1 (as amended).  Every value that is not a positive integer, supplied
    as an [id], [userId] or [limit] argument of any tool, makes the
    invocation throw a validation [Error] while the world is untouched: no
    request has left and the request counter has not moved.  In [addCart]
    the same holds for every entry of [products] whose [productId] or
    [quantity] is not a number, or is a number that is zero or negative. *)
Theorem C1_invalid_fields_rejected_before_network (w : World) :
  (forall tool key props v,
      In (tool, key) integer_fields ->
      assoc key props = Some v -> v <> JUndefined -> ~ positive_integer v ->
      exists msg,
        try_block tool (JObj props) w = (Throw (JsError msg), w)
        /\ callToolHandler (mkParams tool (JObj props)) w
           = (Ok (mkEnvelope (Some ("Error: " ++ msg)) true), w))
  /\
  (forall props entries entry v,
      assoc "products" props = Some (JArr entries) ->
      In entry entries ->
      v = get_prop entry "productId" \/ v = get_prop entry "quantity" ->
      not_a_number v \/ zero_or_negative v ->
      exists msg,
        try_block "fakestore_add_cart" (JObj props) w = (Throw (JsError msg), w)
        /\ callToolHandler (mkParams "fakestore_add_cart" (JObj props)) w
           = (Ok (mkEnvelope (Some ("Error: " ++ msg)) true), w)).
Proof.
  split.
  - intros tool key props v Hin Hassoc Hdef Hbad.
    assert (Hget : get_prop (JObj props) key = v) by (simpl; rewrite Hassoc; reflexivity).
    assert (Hdef' : get_prop (JObj props) key <> JUndefined) by (rewrite Hget; exact Hdef).
    assert (Hbad' : ~ positive_integer (get_prop (JObj props) key))
      by (rewrite Hget; exact Hbad).
    clear Hassoc Hget Hdef Hbad.
    assert (Hthrow : exists msg, try_block tool (JObj props) w = (Throw (JsError msg), w)).
    { simpl in Hin.
      repeat (destruct Hin as [Hin | Hin];
              [injection Hin as <- <- | ]); [.. | contradiction].
      - pose proof (getAllProducts_rejects _ Hdef' Hbad') as H.
        dispatch_throw getAllProducts H.
      - pose proof (getProductById_rejects _ Hbad') as H.
        dispatch_throw getProductById H.
      - pose proof (updateProduct_rejects _ Hbad') as H.
        dispatch_throw updateProduct H.
      - pose proof (deleteProduct_rejects _ Hbad') as H.
        dispatch_throw deleteProduct H.
      - pose proof (getAllCarts_rejects _ Hdef' Hbad') as H.
        dispatch_throw getAllCarts H.
      - pose proof (getCartById_rejects _ Hbad') as H.
        dispatch_throw getCartById H.
      - pose proof (getUserCarts_rejects _ Hbad') as H.
        dispatch_throw getUserCarts H.
      - pose proof (addCart_rejects_userId _ Hbad') as H.
        dispatch_throw addCart H.
      - pose proof (updateCart_rejects_id _ Hbad') as H.
        dispatch_throw updateCart H.
      - pose proof (updateCart_rejects_userId _ Hdef' Hbad') as H.
        dispatch_throw updateCart H.
      - pose proof (deleteCart_rejects _ Hbad') as H.
        dispatch_throw deleteCart H.
      - pose proof (getAllUsers_rejects _ Hdef' Hbad') as H.
        dispatch_throw getAllUsers H.
      - pose proof (getUserById_rejects _ Hbad') as H.
        dispatch_throw getUserById H.
      - pose proof (updateUser_rejects _ Hbad') as H.
        dispatch_throw updateUser H.
      - pose proof (deleteUser_rejects _ Hbad') as H.
        dispatch_throw deleteUser H. }
    destruct Hthrow as [msg H]. exists msg. split; [exact H |].
    apply (callToolHandler_throw _ _ _ _ _ H).
  - intros props entries entry v Hprods Hin Hv Hbad.
    assert (Hthrow : exists msg,
               try_block "fakestore_add_cart" (JObj props) w = (Throw (JsError msg), w)).
    { pose proof (addCart_rejects_entry props entries entry v Hprods Hin Hv Hbad) as H.
      dispatch_throw addCart H. }
    destruct Hthrow as [msg H]. exists msg. split; [exact H |].
    apply (callToolHandler_throw _ _ _ _ _ H).
Qed.

(** *** The HTTP wrapper *)

Lemma rate_limit_message_eq :
  "Rate limit exceeded. Maximum " ++ Number_toString (of_Z RATE_LIMIT)
  ++ " requests per minute allowed." = rate_limit_message.
Proof. reflexivity. Qed.

Lemma rateLimitInterceptor_allowed (w : World) :
  requestCount w + 1 <= RATE_LIMIT ->
  rateLimitInterceptor w
  = (Ok tt, mkWorld (requestCount w + 1) (timers w ++ [clock w + RATE_LIMIT_WINDOW])
                    (clock w) (sent w)).
Proof.
  intros H. unfold rateLimitInterceptor. cbn [requestCount timers clock sent].
  destruct (Z.ltb_spec RATE_LIMIT (requestCount w + 1)); [lia | reflexivity].
Qed.

Lemma rateLimitInterceptor_refused (w : World) :
  RATE_LIMIT < requestCount w + 1 ->
  rateLimitInterceptor w
  = (Throw (JsError rate_limit_message),
     mkWorld (requestCount w + 1) (timers w) (clock w) (sent w)).
Proof.
  intros H. unfold rateLimitInterceptor. cbn [requestCount timers clock sent].
  destruct (Z.ltb_spec RATE_LIMIT (requestCount w + 1)); [| lia].
  rewrite rate_limit_message_eq. reflexivity.
Qed.

(** The four wrappers are one and the same [try]/[catch] around the axios
    call. *)
Lemma perform_eq (c : ApiCall) (w : World) :
  perform c w
  = match api_request c w with
    | (Ok data, w') => (Ok data, w')
    | (Throw error, w') => (Throw (ThrownObject (handleApiError error)), w')
    end.
Proof. destruct c; reflexivity. Qed.

Lemma perform_allowed (c : ApiCall) (w : World) :
  requestCount w + 1 <= RATE_LIMIT ->
  perform c w
  = (match upstream (sent w) c with
     | Response data => Ok data
     | Rejected t => Throw (ThrownObject (handleApiError t))
     end,
     mkWorld (requestCount w + 1) (timers w ++ [clock w + RATE_LIMIT_WINDOW])
             (clock w) (sent w ++ [c])).
Proof.
  intros H. rewrite perform_eq. unfold api_request.
  rewrite (rateLimitInterceptor_allowed w H). cbn [requestCount timers clock sent].
  destruct (upstream (sent w) c); reflexivity.
Qed.

Lemma perform_refused (c : ApiCall) (w : World) :
  RATE_LIMIT < requestCount w + 1 ->
  perform c w
  = (Throw (ThrownObject (mkApiError rate_limit_message None None)),
     mkWorld (requestCount w + 1) (timers w) (clock w) (sent w)).
Proof.
  intros H. rewrite perform_eq. unfold api_request.
  rewrite (rateLimitInterceptor_refused w H). reflexivity.
Qed.

(** C8.  Every wrapper call goes through the one counter [requestCount] of
    the world and increments it.  A request that is sent (the incremented
    counter does not exceed the cap of 100) leaves for the upstream service
    and schedules one decrement, due [RATE_LIMIT_WINDOW] = 60000 ms later,
    which takes the increment back when it runs.  A request arriving while
    the incremented counter exceeds the cap is not forwarded: it fails with
    the rate-limit error, normalized by the wrapper; hence nothing is ever
    forwarded with the counter above the cap. *)
Theorem C8_rate_limit_counter (c : ApiCall) (w : World) :
  let r := fst (perform c w) in
  let w' := snd (perform c w) in
  requestCount w' = requestCount w + 1
  /\ (requestCount w + 1 <= RATE_LIMIT ->
      sent w' = (sent w ++ [c])%list
      /\ timers w' = (timers w ++ [clock w + RATE_LIMIT_WINDOW])%list
      /\ (0 <= requestCount w -> requestCount (timerCallback w') = requestCount w)
      /\ (0 <= requestCount w -> timers w = [] ->
          forall ms,
            (0 <= ms < RATE_LIMIT_WINDOW ->
             requestCount (advance ms w') = requestCount w + 1)
            /\ (RATE_LIMIT_WINDOW <= ms ->
                requestCount (advance ms w') = requestCount w
                /\ timers (advance ms w') = [])))
  /\ (RATE_LIMIT < requestCount w + 1 ->
      sent w' = sent w
      /\ timers w' = timers w
      /\ r = Throw (ThrownObject (mkApiError rate_limit_message None None)))
  /\ (sent w' <> sent w -> requestCount w' <= RATE_LIMIT).
Proof.
  cbv zeta.
  destruct (Z.le_gt_cases (requestCount w + 1) RATE_LIMIT) as [Hle | Hgt].
  - rewrite (perform_allowed c w Hle). cbn [fst snd requestCount timers clock sent].
    split; [reflexivity |]. split; [| split; [lia | lia]].
    intros _. split; [reflexivity |]. split; [reflexivity |]. split.
    + intros Hpos. unfold timerCallback. cbn [requestCount timers clock sent].
      destruct (Z.ltb_spec 0 (requestCount w + 1)); [| lia].
      cbn [requestCount]. lia.
    + intros Hpos Hnil ms. rewrite Hnil. unfold advance.
      cbn [requestCount timers clock sent app filter]. split.
      * intros Hms.
        destruct (Z.leb_spec (clock w + RATE_LIMIT_WINDOW) (clock w + Z.max 0 ms));
          [lia |].
        reflexivity.
      * intros Hms.
        destruct (Z.leb_spec (clock w + RATE_LIMIT_WINDOW) (clock w + Z.max 0 ms));
          [| unfold RATE_LIMIT_WINDOW in *; lia].
        cbn [negb fold_left]. unfold timerCallback.
        cbn [requestCount timers clock sent].
        destruct (Z.ltb_spec 0 (requestCount w + 1)); [| lia].
        cbn [requestCount timers]. split; [lia | reflexivity].
  - assert (Hgt' : RATE_LIMIT < requestCount w + 1) by lia.
    rewrite (perform_refused c w Hgt'). cbn [fst snd requestCount timers clock sent].
    split; [reflexivity |]. split; [lia |]. split.
    + intros _. repeat split.
    + intros H. contradiction.
Qed.

(** C9.  Every wrapper call ([get], [post], [put], [del]) either returns
    the response body or throws a normalized [ApiError]: whatever the
    transport or the interceptor raises is caught here and rebuilt by
    [handleApiError], which keeps the message (a default one when the axios
    error has none), the upstream status and the transport code of an axios
    error, the message alone of any other [Error], and a fixed message
    otherwise. *)
Theorem C9_wrapper_normalizes_errors (c : ApiCall) (w : World) :
  ((exists data, fst (perform c w) = Ok data)
   \/ (exists e : ApiError, fst (perform c w) = Throw (ThrownObject e)))
  /\ (forall error w', api_request c w = (Throw error, w') ->
      perform c w = (Throw (ThrownObject (handleApiError error)), w'))
  /\ (forall data w', api_request c w = (Ok data, w') -> perform c w = (Ok data, w'))
  /\ (forall msg response_status error_code,
        let e := handleApiError (AxiosError msg response_status error_code) in
        message e <> EmptyString
        /\ (msg <> EmptyString -> message e = msg)
        /\ status e = response_status
        /\ code e = error_code)
  /\ (forall msg, handleApiError (JsError msg) = mkApiError msg None None)
  /\ (forall e, handleApiError (ThrownObject e) = mkApiError "Unknown error occurred" None None)
  /\ (forall v, handleApiError (ThrownValue v) = mkApiError "Unknown error occurred" None None).
Proof.
  split; [| split; [| split; [| split; [| repeat split]]]].
  - rewrite perform_eq. destruct (api_request c w) as [[data | error] w']; simpl; eauto.
  - intros error w' H. rewrite perform_eq, H. reflexivity.
  - intros data w' H. rewrite perform_eq, H. reflexivity.
  - intros msg response_status error_code. cbv zeta. simpl.
    destruct msg as [| a msg']; simpl; repeat split; try discriminate.
    intros H. contradiction.
Qed.

(** *** The dispatcher *)

Lemma respond_cases (r : Result JsValue * World) :
  (exists response w', respond r = (Ok response, w') /\ isError response = false)
  \/ (exists t w', respond r = (Throw t, w')).
Proof.
  destruct r as [[result | t] w']; simpl; eauto.
Qed.

Lemma try_block_success_not_error (tool : string) (args : JsValue) (w w' : World)
      (response : Envelope) :
  try_block tool args w = (Ok response, w') -> isError response = false.
Proof.
  unfold try_block.
  repeat match goal with
         | |- context [if String.eqb tool ?l then _ else _] =>
             destruct (String.eqb tool l);
             [ match goal with
               | |- respond ?r = _ -> _ =>
                   destruct (respond_cases r) as [(e & w1 & -> & He) | (t & w1 & ->)];
                   intros H; [injection H as <- _; exact He | discriminate]
               end
             | ]
         end.
  discriminate.
Qed.

(** Every error a resource function or the wrapper throws has a message
    for the dispatcher to report. *)

Lemma append_nonempty (a b : string) : b <> EmptyString -> a ++ b <> EmptyString.
Proof.
  intros Hb. destruct a; simpl; [exact Hb | discriminate].
Qed.

Lemma good_Ok {A : Type} (a : A) : throws_with_message (Ok a).
Proof. intros t H. discriminate. Qed.

Lemma good_Throw {A : Type} (msg : string) :
  msg <> EmptyString -> throws_with_message (@Throw A (JsError msg)).
Proof. intros Hm t H. injection H as <-. exact Hm. Qed.

Lemma good_bind {A B : Type} (r : Result A) (k : A -> Result B) :
  throws_with_message r -> (forall a, throws_with_message (k a)) ->
  throws_with_message (bind r k).
Proof.
  intros Hr Hk t. destruct r as [a | t']; simpl.
  - apply Hk.
  - intros H. injection H as <-. apply Hr. reflexivity.
Qed.

Lemma good_if {A : Type} (b : bool) (r1 r2 : Result A) :
  throws_with_message r1 -> throws_with_message r2 ->
  throws_with_message (if b then r1 else r2).
Proof. destruct b; auto. Qed.

Lemma good_throw_if (cond : bool) (msg : string) :
  msg <> EmptyString -> throws_with_message (throw_if cond msg).
Proof.
  intros Hm. unfold throw_if. apply good_if; [apply good_Throw; exact Hm | apply good_Ok].
Qed.

Lemma good_try_catch {A : Type} (body : Result A) (handler : Thrown -> Result A) :
  (forall t, throws_with_message (handler t)) -> throws_with_message (try_catch body handler).
Proof.
  intros Hh. destruct body as [a | t]; simpl; [apply good_Ok | apply Hh].
Qed.

Lemma good_destructure (args : JsValue) (k : string) :
  throws_with_message (destructure args k).
Proof.
  destruct args; simpl; try apply good_Ok; apply good_Throw; discriminate.
Qed.

Lemma good_read_prop (o : JsValue) (k : string) : throws_with_message (read_prop o k).
Proof.
  destruct o; simpl; try apply good_Ok; apply good_Throw; discriminate.
Qed.

Lemma good_validatePositiveInteger (v : JsValue) (fieldName : string) :
  throws_with_message (validatePositiveInteger v fieldName).
Proof.
  apply good_throw_if. apply append_nonempty. discriminate.
Qed.

Lemma good_validateLimit (v : JsValue) : throws_with_message (validateLimit v).
Proof.
  unfold validateLimit. apply good_if; [| apply good_Ok].
  apply good_throw_if. discriminate.
Qed.

Lemma good_validateSortOrder (v : JsValue) : throws_with_message (validateSortOrder v).
Proof. apply good_throw_if. discriminate. Qed.

Lemma good_validateUrl (v : JsValue) (fieldName : string) :
  throws_with_message (validateUrl v fieldName).
Proof.
  unfold validateUrl. destruct v;
    try (apply good_Throw; apply append_nonempty; discriminate).
  apply good_bind.
  - apply good_throw_if. apply append_nonempty. discriminate.
  - intros _. apply good_try_catch. intros t.
    apply good_Throw. apply append_nonempty. discriminate.
Qed.

Lemma good_check_cart_product (product : JsValue) (index : Z) :
  throws_with_message (check_cart_product product index).
Proof.
  unfold check_cart_product.
  apply good_bind; [apply good_read_prop | intros productId].
  apply good_bind; [apply good_throw_if; discriminate | intros _].
  apply good_bind; [apply good_read_prop | intros quantity].
  apply good_throw_if. discriminate.
Qed.

Lemma good_forEach (entries : list JsValue) (index : Z) :
  throws_with_message (forEach check_cart_product entries index).
Proof.
  revert index. induction entries as [| x rest IH]; intros index; cbn [forEach].
  - apply good_Ok.
  - apply good_bind; [apply good_check_cart_product | intros _; apply IH].
Qed.

Lemma good_sanitizePathSegment (value : string) :
  throws_with_message (sanitizePathSegment value).
Proof.
  unfold sanitizePathSegment, encodeURIComponent.
  apply good_if; [apply good_Throw; discriminate | apply good_Ok].
Qed.

(** Walks down a resource function, step by step. *)
Ltac good_steps :=
  cbv zeta;
  repeat first
    [ apply good_Ok
    | apply good_destructure
    | apply good_validatePositiveInteger
    | apply good_validateLimit
    | apply good_validateSortOrder
    | apply good_validateUrl
    | apply good_sanitizePathSegment
    | apply good_forEach
    | apply good_throw_if; discriminate
    | apply good_if
    | apply good_bind; [| intros ?] ].

Lemma good_resource_functions (args : JsValue) :
  throws_with_message (getAllProducts args)
  /\ throws_with_message (getProductById args)
  /\ throws_with_message getCategories
  /\ throws_with_message (getProductsByCategory args)
  /\ throws_with_message (addProduct args)
  /\ throws_with_message (updateProduct args)
  /\ throws_with_message (deleteProduct args)
  /\ throws_with_message (getAllCarts args)
  /\ throws_with_message (getCartById args)
  /\ throws_with_message (getUserCarts args)
  /\ throws_with_message (addCart args)
  /\ throws_with_message (updateCart args)
  /\ throws_with_message (deleteCart args)
  /\ throws_with_message (getAllUsers args)
  /\ throws_with_message (getUserById args)
  /\ throws_with_message (addUser args)
  /\ throws_with_message (updateUser args)
  /\ throws_with_message (deleteUser args).
Proof.
  repeat split.
  - unfold getAllProducts. good_steps.
  - unfold getProductById. good_steps.
  - unfold getCategories. good_steps.
  - unfold getProductsByCategory. good_steps.
  - unfold addProduct. good_steps.
  - unfold updateProduct. good_steps.
  - unfold deleteProduct. good_steps.
  - unfold getAllCarts. good_steps.
  - unfold getCartById. good_steps.
  - unfold getUserCarts. good_steps.
  - unfold addCart. good_steps.
  - unfold updateCart. good_steps.
  - unfold deleteCart. good_steps.
  - unfold getAllUsers. good_steps.
  - unfold getUserById. good_steps.
  - unfold addUser. good_steps.
  - unfold updateUser. good_steps.
  - unfold deleteUser. good_steps.
Qed.

Lemma good_respond_invoke (f : Result ApiCall) (w w' : World) (t : Thrown) :
  throws_with_message f ->
  respond (invoke f w) = (Throw t, w') -> errorMessage t <> EmptyString.
Proof.
  intros Hf. destruct f as [c | t0]; cbn [invoke].
  - rewrite perform_eq.
    destruct (api_request c w) as [[data | error] w1]; simpl; intros H;
      [discriminate |].
    injection H as <- _. simpl. discriminate.
  - simpl. intros H. injection H as <- _. apply Hf. reflexivity.
Qed.

Lemma try_block_throws_with_message (tool : string) (args : JsValue) (w w' : World)
      (t : Thrown) :
  try_block tool args w = (Throw t, w') -> errorMessage t <> EmptyString.
Proof.
  pose proof (good_resource_functions args) as Hgood.
  unfold try_block.
  repeat match goal with
         | |- context [if String.eqb tool ?l then _ else _] =>
             destruct (String.eqb tool l);
             [ apply good_respond_invoke; tauto | ]
         end.
  intros H. injection H as <- _. simpl. discriminate.
Qed.

(** C2.  The CallTool handler always returns a response object and never
    lets an exception escape: whatever is thrown inside its [try] block
    (a validation error, an unknown name, the normalized error of a failed
    or refused upstream call) becomes the envelope whose [isError] is
    [true] and whose text is ["Error: "] followed by the message, that
    message being itself non-empty; and every envelope flagged as an error
    carries a non-empty text. *)
Theorem C2_handler_always_returns_envelope (params : CallToolParams) (w : World) :
  exists response w',
    callToolHandler params w = (Ok response, w')
    /\ (forall error w'',
           try_block (params_name params) (params_arguments params) w = (Throw error, w'') ->
           w' = w''
           /\ response = mkEnvelope (Some ("Error: " ++ errorMessage error)) true
           /\ errorMessage error <> EmptyString)
    /\ (isError response = true ->
        exists msg, text response = Some msg /\ msg <> EmptyString).
Proof.
  unfold callToolHandler.
  destruct (try_block (params_name params) (params_arguments params) w)
    as [[response | error] w'] eqn:E.
  - exists response, w'. split; [reflexivity |]. split.
    + intros error w'' H. discriminate.
    + intros Herr. rewrite (try_block_success_not_error _ _ _ _ _ E) in Herr.
      discriminate.
  - eexists. exists w'. split; [reflexivity |]. split.
    + intros error' w'' H. injection H as <- <-.
      split; [reflexivity |]. split; [reflexivity |].
      exact (try_block_throws_with_message _ _ _ _ _ E).
    + intros _. eexists. split; [reflexivity |]. discriminate.
Qed.

(** C3, with the text the handler returns.  A name that matches none of
    the registered tool names makes the [try] block throw an [Error] whose
    message is [Unknown tool: <name>], and the handler return, without
    throwing and without touching the world, the envelope whose [isError]
    is [true] and whose text is [Error: Unknown tool: <name>]: the message
    behind the prefix that the handler puts before every error. *)
Theorem C3_unknown_tool_envelope (tool : string) (args : JsValue) (w : World) :
  ~ In tool (map name listTools) ->
  try_block tool args w = (Throw (JsError ("Unknown tool: " ++ tool)), w)
  /\ callToolHandler (mkParams tool args) w
     = (Ok (mkEnvelope (Some ("Error: Unknown tool: " ++ tool)) true), w).
Proof.
  intros Hunknown.
  assert (Ht : try_block tool args w = (Throw (JsError ("Unknown tool: " ++ tool)), w)).
  { unfold try_block.
    repeat match goal with
           | |- context [if String.eqb tool ?l then _ else _] =>
               destruct (String.eqb_spec tool l) as [Heq | _];
               [ exfalso; apply Hunknown; rewrite Heq; vm_compute; tauto | ]
           end.
    reflexivity. }
  split; [exact Ht |].
  rewrite (callToolHandler_throw _ _ _ _ _ Ht). reflexivity.
Qed.

(** *** Sort order *)

(** C7.  Sort-order validation succeeds exactly on an absent value and on
    the two tokens [asc] and [desc]; every other value, case variants such
    as [ASC] and [Desc] included, is rejected with the sort-order error. *)
Theorem C7_sort_order_exact (v : JsValue) :
  (validateSortOrder v = Ok tt <-> v = JUndefined \/ v = JStr "asc" \/ v = JStr "desc")
  /\ (validateSortOrder v = Ok tt
      \/ validateSortOrder v
         = Throw (JsError ("Sort order must be " ++ dquote ++ "asc" ++ dquote ++ " or "
                           ++ dquote ++ "desc" ++ dquote)))
  /\ validateSortOrder (JStr "ASC") <> Ok tt
  /\ validateSortOrder (JStr "Desc") <> Ok tt.
Proof.
  split; [| split; [| split; discriminate]].
  - unfold validateSortOrder, throw_if. split.
    + destruct v as [| | b | n | s | l | l]; simpl; try discriminate; auto.
      destruct (String.eqb_spec s "asc") as [-> | _]; [auto |].
      destruct (String.eqb_spec s "desc") as [-> | _]; [auto |].
      simpl. discriminate.
    + intros [-> | [-> | ->]]; reflexivity.
  - unfold validateSortOrder, throw_if.
    destruct (negb (is_undefined v) && negb (strict_eq_string v "asc")
              && negb (strict_eq_string v "desc")); auto.
Qed.

(** *** Path segments *)

Lemma percent_encode_no_slash (c : ascii) :
  ~ In "/"%char (list_ascii_of_string (percent_encode c)).
Proof.
  destruct c as [[] [] [] [] [] [] [] []]; vm_compute;
    intros [H | [H | [H | H]]]; try discriminate H; exact H.
Qed.

Lemma uri_unreserved_not_slash (c : ascii) : uri_unreserved c = true -> c <> "/"%char.
Proof. intros H ->. vm_compute in H. discriminate. Qed.

Lemma uri_encode_no_slash (s : string) :
  ~ In "/"%char (list_ascii_of_string (uri_encode s)).
Proof.
  induction s as [| c r IH]; [simpl; tauto |].
  cbn [uri_encode]. destruct (uri_unreserved c) eqn:E.
  - cbn [list_ascii_of_string]. intros [H | H]; [| exact (IH H)].
    apply (uri_unreserved_not_slash c E). exact H.
  - intros H.
    assert (Happ : forall a b, list_ascii_of_string (a ++ b)
                               = (list_ascii_of_string a ++ list_ascii_of_string b)%list).
    { induction a as [| x a IHa]; intros b; simpl; [reflexivity | rewrite IHa; reflexivity]. }
    rewrite Happ in H. apply in_app_or in H. destruct H as [H | H].
    + exact (percent_encode_no_slash c H).
    + exact (IH H).
Qed.

Lemma sanitizePathSegment_returns (value segment : string) :
  sanitizePathSegment value = Ok segment <->
  well_formed (trim value) /\ segment = uri_encode (trim value).
Proof.
  unfold sanitizePathSegment, encodeURIComponent, well_formed.
  destruct (has_lone_surrogate (trim value)); split.
  - discriminate.
  - intros [H _]. discriminate H.
  - intros H. injection H as <-. split; reflexivity.
  - intros [_ ->]. reflexivity.
Qed.

Lemma sanitizePathSegment_throws (value : string) :
  ~ well_formed (trim value) ->
  sanitizePathSegment value = Throw (JsError "URI malformed").
Proof.
  unfold sanitizePathSegment, encodeURIComponent, well_formed.
  destruct (has_lone_surrogate (trim value)); [reflexivity |].
  intros H. exfalso. apply H. reflexivity.
Qed.

(** C5.  [getProductsByCategory] with the category
    [electronics/accessories] percent-encodes the slash: the request path is
    [/products/category/electronics%2Faccessories]; and whatever the
    category, the sanitized segment holds no raw slash: none of the
    percent-encodings does, and every segment that [sanitizePathSegment]
    returns is one of them. *)
Theorem C5_category_segment_sanitized :
  sanitizePathSegment "electronics/accessories" = Ok "electronics%2Faccessories"
  /\ getProductsByCategory (JObj [("category", JStr "electronics/accessories")])
     = Ok (Get "/products/category/electronics%2Faccessories" JUndefined)
  /\ (forall category : string,
        ~ In "/"%char (list_ascii_of_string (uri_encode (trim category))))
  /\ (forall category segment : string,
        sanitizePathSegment category = Ok segment ->
        segment = uri_encode (trim category)
        /\ ~ In "/"%char (list_ascii_of_string segment)).
Proof.
  split; [reflexivity |]. split; [reflexivity |]. split.
  - intros category. apply uri_encode_no_slash.
  - intros category segment H. apply sanitizePathSegment_returns in H.
    destruct H as [_ ->]. split; [reflexivity | apply uri_encode_no_slash].
Qed.

(** *** Create and update bodies *)

Lemma respond_world (r : Result JsValue * World) : snd (respond r) = snd r.
Proof. destruct r as [[result | t] w']; reflexivity. Qed.

Lemma issued_call_is_sent (f : Result ApiCall) (c : ApiCall) (w : World) :
  f = Ok c -> requestCount w + 1 <= RATE_LIMIT ->
  sent (snd (respond (invoke f w))) = (sent w ++ [c])%list.
Proof.
  intros -> H. rewrite respond_world. cbn [invoke].
  rewrite (perform_allowed c w H). reflexivity.
Qed.

Lemma nonempty_string_truthy (s : string) :
  s <> EmptyString -> negb (truthy (JStr s)) || negb (is_string (JStr s)) = false.
Proof. intros H. destruct s; [contradiction | reflexivity]. Qed.

Lemma get_prop_defined_object (args : JsValue) (k : string) :
  get_prop args k <> JUndefined -> exists props, args = JObj props.
Proof.
  destruct args; simpl; intros H; try contradiction. eauto.
Qed.

(** C4.  [addProduct] with price [0] or [-5] throws a validation error and
    nothing leaves for the upstream service (with a valid title the error is
    the price error); with price [19.99] and valid strings for the four
    other fields it ends in the create call on [/products] whose body holds
    exactly the five supplied fields, in the order [title], [price],
    [description], [image], [category], and that call is what is sent. *)
Theorem C4_addProduct_price (args : JsValue) (w : World) :
  (get_prop args "price" = JNum (of_Z 0) \/ get_prop args "price" = JNum (of_Z (-5)) ->
   exists msg,
     addProduct args = Throw (JsError msg)
     /\ try_block "fakestore_add_product" args w = (Throw (JsError msg), w)
     /\ (nonempty_string (get_prop args "title") ->
         msg = "Price must be a positive number"))
  /\
  (forall title description image category,
     get_prop args "title" = JStr title -> title <> EmptyString ->
     get_prop args "price" = JNum price_19_99 ->
     get_prop args "description" = JStr description -> description <> EmptyString ->
     get_prop args "image" = JStr image -> validateUrl (JStr image) "Image URL" = Ok tt ->
     get_prop args "category" = JStr category -> category <> EmptyString ->
     let body := JObj [("title", JStr title); ("price", JNum price_19_99);
                       ("description", JStr description); ("image", JStr image);
                       ("category", JStr category)] in
     addProduct args = Ok (Post "/products" body)
     /\ (requestCount w + 1 <= RATE_LIMIT ->
         sent (snd (try_block "fakestore_add_product" args w))
         = (sent w ++ [Post "/products" body])%list)).
Proof.
  split.
  - intros Hprice.
    assert (Hcheck : negb (is_number (get_prop args "price"))
                     || le_zero (get_prop args "price") = true)
      by (destruct Hprice as [-> | ->]; reflexivity).
    assert (H : exists msg, addProduct args = Throw (JsError msg)
                /\ (nonempty_string (get_prop args "title") ->
                    msg = "Price must be a positive number")).
    { unfold addProduct.
      destruct (destructure_cases args "title") as [D | [m D]]; rewrite D; cbn [bind].
      - destruct (negb (truthy (get_prop args "title"))
                  || negb (is_string (get_prop args "title"))) eqn:Et;
          unfold throw_if at 1; cbn [bind].
        + eexists. split; [reflexivity |]. intros Hne.
          rewrite (nonempty_string_check _ Hne) in Et. discriminate.
        + rewrite Hcheck. unfold throw_if at 1. cbn [bind].
          eexists. split; [reflexivity |]. intros _. reflexivity.
      - eexists. split; [reflexivity |]. intros (s & Hs & _).
        destruct args; simpl in D; try discriminate; simpl in Hs; discriminate. }
    destruct H as (msg & H & Hmsg). exists msg. split; [exact H |]. split; [| exact Hmsg].
    change (respond (invoke (addProduct args) w) = (Throw (JsError msg), w)).
    rewrite H. reflexivity.
  - intros title description image category Ht Htne Hp Hd Hdne Hi Hurl Hc Hcne body.
    assert (H : addProduct args = Ok (Post "/products" body)).
    { assert (Hobj : exists props, args = JObj props).
      { apply (get_prop_defined_object args "title"). rewrite Ht. discriminate. }
      destruct Hobj as [props ->].
      unfold addProduct. rewrite destructure_object. cbn [bind].
      rewrite Ht, Hp, Hd, Hi, Hc.
      rewrite (nonempty_string_truthy title Htne). unfold throw_if at 1. cbn [bind].
      replace (negb (is_number (JNum price_19_99)) || le_zero (JNum price_19_99))
        with false by reflexivity.
      unfold throw_if at 1. cbn [bind].
      rewrite (nonempty_string_truthy description Hdne). unfold throw_if at 1. cbn [bind].
      rewrite Hurl. cbn [bind].
      rewrite (nonempty_string_truthy category Hcne). unfold throw_if at 1. cbn [bind].
      reflexivity. }
    split; [exact H |].
    intros Hcap.
    change (sent (snd (respond (invoke (addProduct args) w)))
            = (sent w ++ [Post "/products" body])%list).
    apply issued_call_is_sent; assumption.
Qed.

(** C6.  [updateUser] with a valid [id] and only [firstname] supplied ends
    in the replace call on [/users/<id>] whose body is the object with the
    single key [name], itself the object with the single key [firstname]:
    no [name.lastname], no [address], no [geolocation], nothing else. *)
Theorem C6_updateUser_firstname_only (args id firstname : JsValue) :
  get_prop args "id" = id -> positive_integer id ->
  get_prop args "firstname" = firstname -> firstname <> JUndefined ->
  (forall k, In k other_user_keys -> get_prop args k = JUndefined) ->
  updateUser args
  = Ok (Put ("/users/" ++ ToString id) (JObj [("name", JObj [("firstname", firstname)])])).
Proof.
  intros Hid Hpos Hfn Hdef Hothers.
  assert (Hobj : exists props, args = JObj props).
  { apply (get_prop_defined_object args "firstname"). rewrite Hfn. exact Hdef. }
  destruct Hobj as [props ->].
  unfold updateUser. rewrite destructure_object. cbn [bind].
  rewrite Hid, Hfn.
  rewrite (proj2 (validatePositiveInteger_ok id "User ID") Hpos). cbn [bind].
  rewrite (Hothers "email"), (Hothers "username"), (Hothers "password"),
    (Hothers "lastname"), (Hothers "city"), (Hothers "street"), (Hothers "number"),
    (Hothers "zipcode"), (Hothers "lat"), (Hothers "long"), (Hothers "phone")
    by (unfold other_user_keys; repeat (first [left; reflexivity | right])).
  rewrite (is_undefined_false firstname Hdef).
  reflexivity.
Qed.

(** C10.  [addUser] applies no format check to [email]: with any non-empty
    string as [email] the email step passes, so that the only validation
    errors left are those of the four other checked fields; these being
    non-empty strings as well, the function ends in the create call on
    [/users] carrying that very string, which is what is sent.  The
    validator [validateEmail] of the validators module takes no part in it:
    it rejects [not-an-email], which [addUser] accepts like any other
    non-empty string. *)
Theorem C10_addUser_accepts_any_nonempty_email (args : JsValue) (email : string) (w : World) :
  get_prop args "email" = JStr email -> email <> EmptyString ->
  let body :=
    JObj [("email", JStr email);
          ("username", get_prop args "username");
          ("password", get_prop args "password");
          ("name", JObj [("firstname", get_prop args "firstname");
                         ("lastname", get_prop args "lastname")]);
          ("address",
           JObj [("city", get_prop args "city");
                 ("street", get_prop args "street");
                 ("number", get_prop args "number");
                 ("zipcode", get_prop args "zipcode");
                 ("geolocation", JObj [("lat", get_prop args "lat");
                                       ("long", get_prop args "long")])]);
          ("phone", get_prop args "phone")] in
  (addUser args = Ok (Post "/users" body)
   \/ exists field,
        In field ["Username"; "Password"; "First name"; "Last name"]
        /\ addUser args = Throw (JsError (field ++ " must be a non-empty string")))
  /\ (nonempty_string (get_prop args "username") ->
      nonempty_string (get_prop args "password") ->
      nonempty_string (get_prop args "firstname") ->
      nonempty_string (get_prop args "lastname") ->
      addUser args = Ok (Post "/users" body)
      /\ (requestCount w + 1 <= RATE_LIMIT ->
          sent (snd (try_block "fakestore_add_user" args w))
          = (sent w ++ [Post "/users" body])%list))
  /\ validateEmail (JStr "not-an-email") = Throw (JsError "Invalid email format").
Proof.
  intros He Hene body.
  assert (Hobj : exists props, args = JObj props).
  { apply (get_prop_defined_object args "email"). rewrite He. discriminate. }
  destruct Hobj as [props ->].
  split; [| split; [| reflexivity]].
  - unfold addUser. rewrite destructure_object. cbn [bind].
    rewrite He. rewrite (nonempty_string_truthy email Hene).
    unfold throw_if at 1. cbn [bind].
    destruct (negb (truthy (get_prop (JObj props) "username"))
              || negb (is_string (get_prop (JObj props) "username")));
      unfold throw_if at 1; cbn [bind].
    { right. exists "Username". split; [simpl; tauto | reflexivity]. }
    destruct (negb (truthy (get_prop (JObj props) "password"))
              || negb (is_string (get_prop (JObj props) "password")));
      unfold throw_if at 1; cbn [bind].
    { right. exists "Password". split; [simpl; tauto | reflexivity]. }
    destruct (negb (truthy (get_prop (JObj props) "firstname"))
              || negb (is_string (get_prop (JObj props) "firstname")));
      unfold throw_if at 1; cbn [bind].
    { right. exists "First name". split; [simpl; tauto | reflexivity]. }
    destruct (negb (truthy (get_prop (JObj props) "lastname"))
              || negb (is_string (get_prop (JObj props) "lastname")));
      unfold throw_if at 1; cbn [bind].
    { right. exists "Last name". split; [simpl; tauto | reflexivity]. }
    left. reflexivity.
  - intros Hu Hp Hf Hl.
    assert (H : addUser (JObj props) = Ok (Post "/users" body)).
    { unfold addUser. rewrite destructure_object. cbn [bind].
      rewrite (nonempty_string_check _ Hu), (nonempty_string_check _ Hp),
        (nonempty_string_check _ Hf), (nonempty_string_check _ Hl).
      rewrite He. rewrite (nonempty_string_truthy email Hene).
      reflexivity. }
    split; [exact H |].
    intros Hcap.
    change (sent (snd (respond (invoke (addUser (JObj props)) w)))
            = (sent w ++ [Post "/users" body])%list).
    apply issued_call_is_sent; assumption.
Qed.

(* ===================================================================== *)
(** ** Further properties of the validators *)
(* ===================================================================== *)

(** [validatePositiveInteger] lets through exactly the numbers whose value
    is a positive integer; anything else (another type, a numeric string,
    a fraction, zero, a negative number, [NaN], an infinity) throws the
    error naming the field. *)
Theorem validatePositiveInteger_exact (v : JsValue) (fieldName : string) :
  (validatePositiveInteger v fieldName = Ok tt <-> positive_integer v)
  /\ (validatePositiveInteger v fieldName = Ok tt
      \/ validatePositiveInteger v fieldName
         = Throw (JsError (fieldName ++ " must be a positive integer")))
  /\ (forall s, validatePositiveInteger (JStr s) fieldName <> Ok tt)
  /\ validatePositiveInteger (JNum NaN) fieldName <> Ok tt
  /\ (forall negative, validatePositiveInteger (JNum (Infinity negative)) fieldName <> Ok tt).
Proof.
  split; [apply validatePositiveInteger_ok |]. split.
  - unfold validatePositiveInteger, throw_if.
    destruct (negb (is_number v) || negb (isInteger v) || le_zero v); auto.
  - repeat split; intros; discriminate.
Qed.

(** [validateLimit] lets through exactly an absent value and the positive
    integers; [null] is not taken for absent. *)
Theorem validateLimit_exact (v : JsValue) :
  (validateLimit v = Ok tt <-> v = JUndefined \/ positive_integer v)
  /\ (validateLimit v = Ok tt
      \/ validateLimit v = Throw (JsError "Limit must be a positive integer"))
  /\ validateLimit JNull = Throw (JsError "Limit must be a positive integer").
Proof.
  split; [| split; [| reflexivity]].
  - split.
    + intros H. destruct (is_undefined v) eqn:E.
      * left. destruct v; try discriminate. reflexivity.
      * right. unfold validateLimit in H. rewrite E in H. cbn [negb] in H.
        apply positive_integer_check. unfold throw_if in H.
        destruct (negb (is_number v) || negb (isInteger v) || le_zero v);
          [discriminate | reflexivity].
    + intros [-> | H]; [reflexivity |].
      unfold validateLimit.
      destruct (negb (is_undefined v)); [| reflexivity].
      apply positive_integer_check in H. rewrite H. reflexivity.
  - unfold validateLimit, throw_if.
    destruct (negb (is_undefined v)); [| auto].
    destruct (negb (is_number v) || negb (isInteger v) || le_zero v); auto.
Qed.

Lemma chars_nonempty (s c : string) : In c (chars s) -> c <> EmptyString.
Proof.
  revert c. induction s as [| a r IH]; intros c; cbn [chars]; [contradiction |].
  destruct (chars r) as [| hd tl].
  - intros [<- | []]. discriminate.
  - destruct (starts_with_continuation hd).
    + intros [<- | H]; [discriminate |]. apply IH. right. exact H.
    + intros [<- | H]; [discriminate |]. apply IH. exact H.
Qed.

Lemma concat_nonempty (l : list string) :
  l <> [] -> (forall x, In x l -> x <> EmptyString) ->
  String.concat EmptyString l <> EmptyString.
Proof.
  intros Hl Hne. destruct l as [| x rest]; [contradiction |].
  assert (Hx : x <> EmptyString) by (apply Hne; left; reflexivity).
  destruct x as [| a x']; [contradiction |].
  destruct rest; simpl; discriminate.
Qed.

Lemma drop_while_all {A : Type} (p : A -> bool) (l : list A) :
  forallb p l = true -> drop_while p l = [].
Proof.
  induction l as [| x r IH]; simpl; [reflexivity |].
  destruct (p x); simpl; [exact IH | discriminate].
Qed.

Lemma drop_while_some {A : Type} (p : A -> bool) (l : list A) :
  forallb p l = false -> exists x r, drop_while p l = x :: r /\ p x = false.
Proof.
  induction l as [| x r IH]; simpl; [discriminate |].
  destruct (p x) eqn:E; simpl; [exact IH |]. intros _. eauto.
Qed.

Lemma drop_while_incl {A : Type} (p : A -> bool) (l : list A) (x : A) :
  In x (drop_while p l) -> In x l.
Proof.
  induction l as [| y r IH]; simpl; [tauto |].
  destruct (p y); simpl; [intros H; right; apply IH; exact H | tauto].
Qed.

Lemma drop_while_last {A : Type} (p : A -> bool) (l : list A) (x : A) :
  p x = false -> drop_while p (l ++ [x]) <> [].
Proof.
  intros Hx. induction l as [| y r IH]; simpl.
  - rewrite Hx. discriminate.
  - destruct (p y); [exact IH | discriminate].
Qed.

Lemma trim_empty_iff (s : string) :
  trim s = EmptyString <-> forallb is_white_space (chars s) = true.
Proof.
  unfold trim. split.
  - intros H. destruct (forallb is_white_space (chars s)) eqn:E; [reflexivity |].
    exfalso. revert H.
    destruct (drop_while_some _ _ E) as (x & r & Hd & Hx).
    apply concat_nonempty.
    + rewrite Hd. cbn [rev]. intros Hnil.
      apply (f_equal (@rev string)) in Hnil. rewrite rev_involutive in Hnil.
      cbn [rev] in Hnil. exact (drop_while_last _ _ _ Hx Hnil).
    + intros y Hy. apply (chars_nonempty s).
      apply in_rev in Hy. apply drop_while_incl in Hy.
      apply in_rev in Hy. apply drop_while_incl in Hy. exact Hy.
  - intros H. rewrite (drop_while_all _ _ H). reflexivity.
Qed.

(** [validateString] lets through exactly the strings that hold at least
    one character that is not white space; the empty string and strings
    of blanks, tabs or line breaks throw like a value of another type. *)
Theorem validateString_exact (v : JsValue) (fieldName : string) :
  (validateString v fieldName = Ok tt
   <-> exists s, v = JStr s
                 /\ existsb (fun c => negb (is_white_space c)) (chars s) = true)
  /\ (validateString v fieldName = Ok tt
      \/ validateString v fieldName
         = Throw (JsError (fieldName ++ " must be a non-empty string"))).
Proof.
  assert (Hex : forall l : list string,
             existsb (fun c => negb (is_white_space c)) l
             = negb (forallb is_white_space l)).
  { induction l as [| x r IH]; simpl; [reflexivity |].
    rewrite IH. destruct (is_white_space x); reflexivity. }
  split.
  - split.
    + destruct v; simpl; try discriminate.
      intros H. exists s. split; [reflexivity |].
      rewrite Hex. unfold throw_if in H.
      destruct (is_empty (trim s)) eqn:E; [discriminate |].
      destruct (forallb is_white_space (chars s)) eqn:F; [| reflexivity].
      apply trim_empty_iff in F. rewrite F in E. discriminate.
    + intros (s & -> & H). simpl. rewrite Hex in H.
      apply negb_true_iff in H.
      destruct (trim s) eqn:E; [| reflexivity].
      apply trim_empty_iff in E. rewrite E in H. discriminate.
  - destruct v; simpl; auto. unfold throw_if. destruct (is_empty (trim s)); auto.
Qed.

Lemma append_cancel (a b c : string) : a ++ b = a ++ c -> b = c.
Proof.
  induction a as [| x a IH]; simpl; [tauto |].
  intros H. injection H as H. apply IH. exact H.
Qed.

Lemma validateUrl_cases (v : JsValue) (fieldName : string) :
  (((forall s, v <> JStr s) \/ (exists s, v = JStr s /\ trim s = EmptyString))
   /\ validateUrl v fieldName
      = Throw (JsError (fieldName ++ " must be a non-empty string")))
  \/ ((exists s, v = JStr s /\ trim s <> EmptyString
                 /\ (URL_protocol s = Some "http:" \/ URL_protocol s = Some "https:"))
      /\ validateUrl v fieldName = Ok tt)
  \/ ((exists s, v = JStr s /\ trim s <> EmptyString
                 /\ URL_protocol s <> Some "http:" /\ URL_protocol s <> Some "https:")
      /\ validateUrl v fieldName = Throw (JsError (fieldName ++ " must be a valid URL"))).
Proof.
  unfold validateUrl.
  destruct v as [| | b | n | s | l | l];
    try (left; split; [left; intros s0; discriminate | reflexivity]).
  destruct (trim s) as [| c t] eqn:E.
  - left. split; [right; exists s; split; [reflexivity | exact E] | reflexivity].
  - right. unfold throw_if at 1. cbn [is_empty bind]. unfold new_URL.
    assert (Hne : trim s <> EmptyString) by (rewrite E; discriminate).
    destruct (URL_protocol s) as [p |] eqn:Ep; cbn [bind try_catch existsb].
    + destruct (String.eqb_spec p "http:") as [-> | H1].
      { left. split; [exists s; auto | reflexivity]. }
      destruct (String.eqb_spec p "https:") as [-> | H2].
      { left. split; [exists s; auto | reflexivity]. }
      right. split; [| reflexivity].
      exists s. repeat split; [exact Hne | congruence | congruence].
    + right. split; [| reflexivity].
      exists s. repeat split; [exact Hne | congruence | congruence].
Qed.

(** [validateUrl] has three outcomes, each with its own inputs.  It lets
    through exactly the non-blank strings that parse as a URL whose scheme
    is [http] or [https].  It throws [<field> must be a non-empty string]
    exactly on a value that is no string and on a blank string.  It throws
    [<field> must be a valid URL] exactly on the non-blank strings that do
    not parse or parse with another scheme: the error naming the HTTP and
    HTTPS protocols is thrown inside the [try] and never leaves the
    function. *)
Theorem validateUrl_outcomes (v : JsValue) (fieldName : string) :
  (validateUrl v fieldName = Ok tt
   <-> exists s, v = JStr s /\ trim s <> EmptyString
                 /\ (URL_protocol s = Some "http:" \/ URL_protocol s = Some "https:"))
  /\ (validateUrl v fieldName = Throw (JsError (fieldName ++ " must be a non-empty string"))
      <-> (forall s, v <> JStr s) \/ (exists s, v = JStr s /\ trim s = EmptyString))
  /\ (validateUrl v fieldName = Throw (JsError (fieldName ++ " must be a valid URL"))
      <-> exists s, v = JStr s /\ trim s <> EmptyString
                    /\ URL_protocol s <> Some "http:" /\ URL_protocol s <> Some "https:")
  /\ (forall s,
        v = JStr s -> trim s <> EmptyString -> URL_protocol s = None ->
        validateUrl v fieldName = Throw (JsError (fieldName ++ " must be a valid URL")))
  /\ (forall s protocol,
        v = JStr s -> trim s <> EmptyString -> URL_protocol s = Some protocol ->
        protocol <> "http:" -> protocol <> "https:" ->
        validateUrl v fieldName = Throw (JsError (fieldName ++ " must be a valid URL")))
  /\ validateUrl v fieldName
     <> Throw (JsError (fieldName ++ " must use HTTP or HTTPS protocol")).
Proof.
  assert (Hmsg : forall a b, a <> b ->
                   Throw (A := unit) (JsError (fieldName ++ a))
                   <> Throw (JsError (fieldName ++ b))).
  { intros a b Hab H. injection H as H. apply append_cancel in H. contradiction. }
  assert (Hblank : ((forall s, v <> JStr s)
                    \/ (exists s, v = JStr s /\ trim s = EmptyString)) ->
                   forall s, v = JStr s -> trim s <> EmptyString -> False).
  { intros [Hn | (s0 & H0 & Hb)] s Hs Hne; [exact (Hn s Hs) |].
    rewrite Hs in H0. injection H0 as <-. contradiction. }
  assert (Hinvalid : (exists s, v = JStr s /\ trim s <> EmptyString
                                /\ URL_protocol s <> Some "http:"
                                /\ URL_protocol s <> Some "https:") ->
                     validateUrl v fieldName
                     = Throw (JsError (fieldName ++ " must be a valid URL"))).
  { intros (s & Hs & Hne & H1 & H2).
    destruct (validateUrl_cases v fieldName)
      as [[Ha _] | [[(s0 & H0 & _ & Hp) _] | [_ Hr]]]; [| | exact Hr].
    - destruct (Hblank Ha s Hs Hne).
    - rewrite Hs in H0. injection H0 as <-. destruct Hp; contradiction. }
  split; [| split; [| split; [| split; [| split]]]].
  - split.
    + intros H. destruct (validateUrl_cases v fieldName)
        as [[_ Hr] | [[Hb _] | [_ Hr]]]; [congruence | exact Hb | congruence].
    + intros (s & Hs & Hne & Hp).
      destruct (validateUrl_cases v fieldName)
        as [[Ha _] | [[_ Hr] | [(s0 & H0 & _ & H1 & H2) _]]]; [| exact Hr |].
      * destruct (Hblank Ha s Hs Hne).
      * rewrite Hs in H0. injection H0 as <-. destruct Hp; contradiction.
  - split.
    + intros H. destruct (validateUrl_cases v fieldName)
        as [[Ha _] | [[_ Hr] | [_ Hr]]]; [exact Ha | congruence |].
      rewrite Hr in H. exfalso. revert H. apply Hmsg. discriminate.
    + intros Ha. destruct (validateUrl_cases v fieldName)
        as [[_ Hr] | [[(s & Hs & Hne & _) _] | [(s & Hs & Hne & _) _]]];
        [exact Hr | |]; destruct (Hblank Ha s Hs Hne).
  - split; [| exact Hinvalid].
    intros H. destruct (validateUrl_cases v fieldName)
      as [[_ Hr] | [[_ Hr] | [Hc _]]]; [| congruence | exact Hc].
    rewrite Hr in H. exfalso. revert H. apply Hmsg. discriminate.
  - intros s Hs Hne Hp. apply Hinvalid. exists s.
    rewrite Hp. repeat split; [exact Hs | exact Hne | discriminate | discriminate].
  - intros s p Hs Hne Hp H1 H2. apply Hinvalid. exists s.
    rewrite Hp. repeat split; [exact Hs | exact Hne | congruence | congruence].
  - destruct (validateUrl_cases v fieldName) as [[_ Hr] | [[_ Hr] | [_ Hr]]];
      rewrite Hr; [apply Hmsg; discriminate | discriminate | apply Hmsg; discriminate].
Qed.

(** *** The email pattern *)

Ltac invert H := inversion H; subst; clear H.

Lemma nullable_lang (r : Regex) : nullable r = true <-> lang r [].
Proof.
  induction r as [| | cls | r1 IH1 r2 IH2 | r1 IH1 r2 IH2 | r IH]; simpl.
  - split; [discriminate | intros H; inversion H].
  - split; [intros _; constructor | reflexivity].
  - split; [discriminate | intros H; inversion H].
  - rewrite andb_true_iff, IH1, IH2. split.
    + intros [H1 H2]. change (@nil string) with (@nil string ++ [])%list.
      constructor; assumption.
    + intros H. invert H.
      match goal with
      | Heq : (?u ++ ?v)%list = [] |- _ =>
          apply app_eq_nil in Heq; destruct Heq as [-> ->]
      end.
      split; assumption.
  - rewrite orb_true_iff, IH1, IH2. split.
    + intros [H | H]; [apply lang_alt_l | apply lang_alt_r]; exact H.
    + intros H. invert H; auto.
  - split; [intros _; constructor | reflexivity].
Qed.

Lemma lang_seq_cons_inv (r1 r2 : Regex) (c : string) (u : list string) :
  lang (RSeq r1 r2) (c :: u) ->
  (exists u1 u2, u = (u1 ++ u2)%list /\ lang r1 (c :: u1) /\ lang r2 u2)
  \/ (lang r1 [] /\ lang r2 (c :: u)).
Proof.
  intros H. remember (RSeq r1 r2) as rs eqn:Hr. remember (c :: u) as l eqn:Hl.
  destruct H as [| | r1' r2' u1 u2 Hu1 Hu2 | | | |]; try discriminate.
  injection Hr as -> ->.
  destruct u1 as [| x u1'].
  - simpl in Hl. subst u2. right. split; assumption.
  - simpl in Hl. injection Hl as -> <-. left. exists u1', u2. auto.
Qed.

Lemma lang_seq_inv (r1 r2 : Regex) (l : list string) :
  lang (RSeq r1 r2) l -> exists u v, l = (u ++ v)%list /\ lang r1 u /\ lang r2 v.
Proof.
  intros H. remember (RSeq r1 r2) as rs eqn:Hr.
  destruct H as [| | r1' r2' u1 u2 Hu1 Hu2 | | | |]; try discriminate.
  injection Hr as -> ->. exists u1, u2. auto.
Qed.

Lemma lang_char_inv (cls : CharClass) (l : list string) :
  lang (RChar cls) l -> exists c, l = [c] /\ class_matches cls c = true.
Proof.
  intros H. remember (RChar cls) as rs eqn:Hr.
  destruct H as [| cls' c Hc | | | | |]; try discriminate.
  injection Hr as ->. exists c. auto.
Qed.

Lemma lang_star_cons_inv (r : Regex) (c : string) (u : list string) :
  lang (RStar r) (c :: u) ->
  exists u1 u2, u = (u1 ++ u2)%list /\ lang r (c :: u1) /\ lang (RStar r) u2.
Proof.
  intros H. remember (RStar r) as rs eqn:Hr. remember (c :: u) as l eqn:Hl.
  revert u Hl.
  induction H as [| | | | | r0 | r0 u0 v Hu _ Hv IHv]; intros u' Hl;
    try discriminate.
  injection Hr as ->.
  destruct u0 as [| x u0'].
  - simpl in Hl. apply IHv; [reflexivity | exact Hl].
  - simpl in Hl. injection Hl as -> <-. exists u0', v. auto.
Qed.

Lemma derive_lang (c : string) (r : Regex) :
  forall u, lang (derive c r) u <-> lang r (c :: u).
Proof.
  induction r as [| | cls | r1 IH1 r2 IH2 | r1 IH1 r2 IH2 | r IH]; intros u; simpl.
  - split; intros H; inversion H.
  - split; intros H; inversion H.
  - destruct (class_matches cls c) eqn:E.
    + split; intros H.
      * invert H. constructor. exact E.
      * apply lang_char_inv in H. destruct H as (c' & Heq & _).
        injection Heq as <- ->. constructor.
    + split; intros H; [inversion H |].
      apply lang_char_inv in H. destruct H as (c' & Heq & Hc).
      injection Heq as <- ->. congruence.
  - assert (Hseq : lang (RSeq (derive c r1) r2) u -> lang (RSeq r1 r2) (c :: u)).
    { intros H. apply lang_seq_inv in H. destruct H as (u1 & u2 & -> & Hu1 & Hu2).
      apply IH1 in Hu1. change (c :: u1 ++ u2)%list with ((c :: u1) ++ u2)%list.
      constructor; assumption. }
    assert (Hinv : lang (RSeq r1 r2) (c :: u) ->
                   lang (RSeq (derive c r1) r2) u
                   \/ (lang r1 [] /\ lang (derive c r2) u)).
    { intros H. apply lang_seq_cons_inv in H.
      destruct H as [(u1 & u2 & -> & Hu1 & Hu2) | [H0 H2]].
      - left. constructor; [apply IH1; exact Hu1 | exact Hu2].
      - right. split; [exact H0 | apply IH2; exact H2]. }
    destruct (nullable r1) eqn:En.
    + split.
      * intros H. invert H; [apply Hseq; assumption |].
        change (c :: u) with ([] ++ c :: u)%list.
        constructor; [apply nullable_lang; exact En | apply IH2; assumption].
      * intros H. destruct (Hinv H) as [H1 | [_ H2]];
          [apply lang_alt_l | apply lang_alt_r]; assumption.
    + split; [exact Hseq |].
      intros H. destruct (Hinv H) as [H1 | [H0 _]]; [exact H1 |].
      apply nullable_lang in H0. congruence.
  - split; intros H; invert H.
    + apply lang_alt_l. apply IH1. assumption.
    + apply lang_alt_r. apply IH2. assumption.
    + apply lang_alt_l. apply IH1. assumption.
    + apply lang_alt_r. apply IH2. assumption.
  - split.
    + intros H. apply lang_seq_inv in H. destruct H as (u1 & u2 & -> & Hu1 & Hu2).
      apply IH in Hu1. change (c :: u1 ++ u2)%list with ((c :: u1) ++ u2)%list.
      constructor; assumption.
    + intros H. destruct (lang_star_cons_inv r c u H) as (u1 & u2 & -> & H1 & H2).
      constructor; [apply IH; exact H1 | exact H2].
Qed.

(** The matcher decides membership in the language of the expression. *)
Lemma matches_chars_lang (cs : list string) :
  forall r, matches_chars r cs = true <-> lang r cs.
Proof.
  induction cs as [| c rest IH]; intros r; simpl.
  - apply nullable_lang.
  - rewrite IH. apply derive_lang.
Qed.

Lemma lang_star_class (cls : CharClass) (u : list string) :
  lang (RStar (RChar cls)) u <-> forallb (class_matches cls) u = true.
Proof.
  split.
  - intros H. remember (RStar (RChar cls)) as rs eqn:Hr.
    induction H as [| | | | | r0 | r0 u0 v Hu _ Hv IHv]; try discriminate.
    + reflexivity.
    + injection Hr as ->. apply lang_char_inv in Hu. destruct Hu as (c & -> & Hc).
      simpl. rewrite Hc. apply IHv. reflexivity.
  - induction u as [| x rest IH]; simpl; [intros _; constructor |].
    intros H. apply andb_true_iff in H. destruct H as [Hx Hrest].
    change (x :: rest) with ([x] ++ rest)%list.
    constructor; [constructor; exact Hx | apply IH; exact Hrest].
Qed.

Lemma lang_plus_class (cls : CharClass) (u : list string) :
  lang (RPlus (RChar cls)) u <-> u <> [] /\ forallb (class_matches cls) u = true.
Proof.
  unfold RPlus. split.
  - intros H. apply lang_seq_inv in H. destruct H as (u1 & u2 & -> & Hu1 & Hu2).
    apply lang_char_inv in Hu1. destruct Hu1 as (c & -> & Hc).
    apply lang_star_class in Hu2. simpl. rewrite Hc, Hu2.
    split; [discriminate | reflexivity].
  - intros [Hne H]. destruct u as [| x rest]; [contradiction |].
    simpl in H. apply andb_true_iff in H. destruct H as [Hx Hrest].
    change (x :: rest) with ([x] ++ rest)%list.
    constructor; [constructor; exact Hx | apply lang_star_class; exact Hrest].
Qed.

Lemma lang_literal (l : string) (u : list string) :
  lang (RChar (Literal l)) u <-> u = [l].
Proof.
  split.
  - intros H. apply lang_char_inv in H. destruct H as (c & -> & Hc).
    simpl in Hc. apply String.eqb_eq in Hc. subst. reflexivity.
  - intros ->. constructor. simpl. apply String.eqb_refl.
Qed.

Lemma email_pattern_lang (cs : list string) : lang email_pattern cs <-> email_shape cs.
Proof.
  unfold email_pattern, email_shape. split.
  - intros H.
    apply lang_seq_inv in H. destruct H as (local & rest1 & -> & Hlocal & H).
    apply lang_seq_inv in H. destruct H as (at_ & rest2 & -> & Hat & H).
    apply lang_seq_inv in H. destruct H as (domain & rest3 & -> & Hdomain & H).
    apply lang_seq_inv in H. destruct H as (dot & tld & -> & Hdot & Htld).
    apply lang_plus_class in Hlocal, Hdomain, Htld.
    apply lang_literal in Hat, Hdot. subst.
    exists local, domain, tld. tauto.
  - intros (local & domain & tld & -> & H1 & H2 & H3 & F1 & F2 & F3).
    constructor; [apply lang_plus_class; auto |].
    constructor; [apply lang_literal; reflexivity |].
    constructor; [apply lang_plus_class; auto |].
    constructor; [apply lang_literal; reflexivity |].
    apply lang_plus_class; auto.
Qed.

(** [validateEmail] lets through exactly the strings of the shape
    [local@domain.tld]: three non-empty runs of characters that are
    neither white space nor [@], the first two separated by [@] and the
    last two by a dot.  A second [@], a blank anywhere, a missing dot
    after the [@], an empty part or a value that is no string throw
    the format error. *)
Theorem validateEmail_exact (v : JsValue) :
  (validateEmail v = Ok tt <-> exists s, v = JStr s /\ email_shape (chars s))
  /\ (validateEmail v = Ok tt \/ validateEmail v = Throw (JsError "Invalid email format")).
Proof.
  split.
  - split.
    + destruct v; simpl; try discriminate.
      unfold throw_if. destruct (regex_test email_pattern s) eqn:E; [| discriminate].
      intros _. exists s. split; [reflexivity |].
      apply email_pattern_lang. apply matches_chars_lang. exact E.
    + intros (s & -> & H). simpl.
      apply email_pattern_lang in H. apply matches_chars_lang in H.
      unfold regex_test. rewrite H. reflexivity.
  - destruct v; simpl; auto. unfold throw_if.
    destruct (regex_test email_pattern s); auto.
Qed.

(* ===================================================================== *)
(** ** Further properties of path segments *)
(* ===================================================================== *)

Lemma unreserved_not_percent (c : ascii) :
  uri_unreserved c = true -> Ascii.eqb c "%" = false.
Proof.
  intros H. destruct (Ascii.eqb_spec c "%") as [-> | _]; [| reflexivity].
  vm_compute in H. discriminate.
Qed.

Lemma hex_round_trip (c : ascii) :
  byte (16 * hex_value (hex_digit (byte_value c / 16))
        + hex_value (hex_digit (byte_value c mod 16))) = c.
Proof. destruct c as [[] [] [] [] [] [] [] []]; vm_compute; reflexivity. Qed.

Lemma percent_decode_encode (s : string) : percent_decode (uri_encode s) = s.
Proof.
  induction s as [| c r IH]; [reflexivity |].
  cbn [uri_encode]. destruct (uri_unreserved c) eqn:E.
  - cbn [percent_decode]. rewrite (unreserved_not_percent c E), IH. reflexivity.
  - unfold percent_encode. cbn [append percent_decode].
    change (Ascii.eqb "%" "%") with true. cbv iota.
    rewrite hex_round_trip, IH. reflexivity.
Qed.

Lemma uri_encode_injective (x y : string) : uri_encode x = uri_encode y -> x = y.
Proof.
  intros H. rewrite <- (percent_decode_encode x), <- (percent_decode_encode y), H.
  reflexivity.
Qed.

(** Percent-encoding loses nothing: different strings are encoded
    differently.  Two categories without a lone surrogate (on which
    [encodeURIComponent] returns instead of throwing its [URIError]) are
    both given a segment by [sanitizePathSegment], and the two segments
    are the same exactly when the categories are equal up to surrounding
    white space. *)
Theorem sanitizePathSegment_injective (a b : string) :
  well_formed (trim a) -> well_formed (trim b) ->
  exists sa sb,
    sanitizePathSegment a = Ok sa
    /\ sanitizePathSegment b = Ok sb
    /\ (sa = sb <-> trim a = trim b).
Proof.
  intros Ha Hb. exists (uri_encode (trim a)), (uri_encode (trim b)).
  split; [apply sanitizePathSegment_returns; split; [exact Ha | reflexivity] |].
  split; [apply sanitizePathSegment_returns; split; [exact Hb | reflexivity] |].
  split; [apply uri_encode_injective | intros ->; reflexivity].
Qed.

Lemma percent_encode_alphabet (c x : ascii) :
  In x (list_ascii_of_string (percent_encode c)) ->
  uri_unreserved x = true \/ x = "%"%char.
Proof.
  intros H.
  destruct c as [[] [] [] [] [] [] [] []]; vm_compute in H;
    destruct H as [H | [H | [H | H]]]; try contradiction; subst x;
    first [right; reflexivity | left; reflexivity].
Qed.

Lemma list_ascii_of_string_app (a b : string) :
  list_ascii_of_string (a ++ b)
  = (list_ascii_of_string a ++ list_ascii_of_string b)%list.
Proof.
  induction a as [| x a IH]; simpl; [reflexivity | rewrite IH; reflexivity].
Qed.

Lemma uri_encode_alphabet (s : string) (x : ascii) :
  In x (list_ascii_of_string (uri_encode s)) ->
  uri_unreserved x = true \/ x = "%"%char.
Proof.
  induction s as [| c r IH]; [contradiction |].
  cbn [uri_encode]. destruct (uri_unreserved c) eqn:E.
  - cbn [list_ascii_of_string]. intros [<- | H]; [auto | exact (IH H)].
  - rewrite list_ascii_of_string_app. intros H. apply in_app_or in H.
    destruct H as [H | H]; [exact (percent_encode_alphabet c x H) | exact (IH H)].
Qed.

(** The sanitized segment is made of unreserved characters and percent
    signs only: no slash, question mark, hash, ampersand, blank or byte
    above 127 can reach the request path through a category. *)
Theorem sanitizePathSegment_alphabet (value segment : string) (x : ascii) :
  sanitizePathSegment value = Ok segment ->
  In x (list_ascii_of_string segment) ->
  uri_unreserved x = true \/ x = "%"%char.
Proof.
  intros H. apply sanitizePathSegment_returns in H. destruct H as [_ ->].
  apply uri_encode_alphabet.
Qed.

Lemma unreserved_not_continuation (c : ascii) :
  uri_unreserved c = true -> is_continuation c = false.
Proof.
  destruct c as [[] [] [] [] [] [] [] []]; vm_compute; intros H;
    first [reflexivity | discriminate H].
Qed.

Lemma unreserved_not_white_space (c : ascii) :
  uri_unreserved c = true -> is_white_space (String c EmptyString) = false.
Proof.
  destruct c as [[] [] [] [] [] [] [] []]; vm_compute; intros H;
    first [reflexivity | discriminate H].
Qed.

Lemma chars_unreserved (s : string) :
  forallb uri_unreserved (list_ascii_of_string s) = true ->
  chars s = map (fun c => String c EmptyString) (list_ascii_of_string s).
Proof.
  induction s as [| a r IH]; [reflexivity |].
  cbn [list_ascii_of_string forallb map chars]. intros H.
  apply andb_true_iff in H. destruct H as [Ha Hr].
  rewrite (IH Hr). destruct r as [| b r']; [reflexivity |].
  cbn [list_ascii_of_string map starts_with_continuation].
  cbn [list_ascii_of_string forallb] in Hr. apply andb_true_iff in Hr.
  rewrite (unreserved_not_continuation b (proj1 Hr)). reflexivity.
Qed.

Lemma drop_while_none {A : Type} (p : A -> bool) (l : list A) :
  (forall x, In x l -> p x = false) -> drop_while p l = l.
Proof.
  intros H. destruct l as [| x r]; [reflexivity |].
  simpl. rewrite (H x); [reflexivity | left; reflexivity].
Qed.

Lemma concat_singletons (l : list ascii) :
  String.concat EmptyString (map (fun c => String c EmptyString) l)
  = string_of_list_ascii l.
Proof.
  induction l as [| c r IH]; [reflexivity |].
  cbn [map string_of_list_ascii]. rewrite <- IH.
  destruct r; reflexivity.
Qed.

Lemma trim_unreserved (s : string) :
  forallb uri_unreserved (list_ascii_of_string s) = true -> trim s = s.
Proof.
  intros H. unfold trim. rewrite (chars_unreserved s H).
  assert (Hws : forall x,
             In x (map (fun c => String c EmptyString) (list_ascii_of_string s)) ->
             is_white_space x = false).
  { intros x Hx. apply in_map_iff in Hx. destruct Hx as (c & <- & Hc).
    apply unreserved_not_white_space.
    rewrite forallb_forall in H. apply H. exact Hc. }
  rewrite (drop_while_none _ _ Hws).
  rewrite drop_while_none; [| intros x Hx; apply Hws; apply in_rev; exact Hx].
  rewrite rev_involutive, concat_singletons.
  apply string_of_list_ascii_of_string.
Qed.

Lemma uri_encode_unreserved (s : string) :
  forallb uri_unreserved (list_ascii_of_string s) = true -> uri_encode s = s.
Proof.
  induction s as [| c r IH]; [reflexivity |].
  cbn [list_ascii_of_string forallb uri_encode]. intros H.
  apply andb_true_iff in H. destruct H as [Hc Hr].
  rewrite Hc, (IH Hr). reflexivity.
Qed.

Lemma unreserved_not_surrogate_lead (c : ascii) :
  uri_unreserved c = true -> (byte_value c =? 237) = false.
Proof.
  destruct c as [[] [] [] [] [] [] [] []]; vm_compute; intros H;
    first [reflexivity | discriminate H].
Qed.

Lemma well_formed_unreserved (s : string) :
  forallb uri_unreserved (list_ascii_of_string s) = true -> well_formed s.
Proof.
  unfold well_formed. induction s as [| c r IH]; [reflexivity |].
  cbn [list_ascii_of_string forallb has_lone_surrogate]. intros H.
  apply andb_true_iff in H. destruct H as [Hc Hr].
  rewrite (unreserved_not_surrogate_lead c Hc), (IH Hr). reflexivity.
Qed.

(** A category written with unreserved characters only (letters, digits
    and [-_.!~*'()]) is sent as it is: the request path is
    [/products/category/] followed by the category, unchanged. *)
Theorem getProductsByCategory_plain (args : JsValue) (category : string) :
  get_prop args "category" = JStr category ->
  category <> EmptyString ->
  forallb uri_unreserved (list_ascii_of_string category) = true ->
  sanitizePathSegment category = Ok category
  /\ getProductsByCategory args = Ok (Get ("/products/category/" ++ category) JUndefined).
Proof.
  intros Hc Hne Hplain.
  assert (Hs : sanitizePathSegment category = Ok category).
  { apply sanitizePathSegment_returns. rewrite (trim_unreserved _ Hplain).
    split; [apply well_formed_unreserved; exact Hplain |].
    symmetry. apply uri_encode_unreserved. exact Hplain. }
  split; [exact Hs |].
  assert (Hobj : exists props, args = JObj props).
  { apply (get_prop_defined_object args "category"). rewrite Hc. discriminate. }
  destruct Hobj as [props ->].
  unfold getProductsByCategory. rewrite destructure_object. cbn [bind].
  rewrite Hc, (nonempty_string_truthy category Hne). unfold throw_if. cbn [bind string_of].
  rewrite Hs. reflexivity.
Qed.

Lemma nonempty_string_check_iff (v : JsValue) :
  negb (truthy v) || negb (is_string v) = false <-> nonempty_string v.
Proof.
  split; [| apply nonempty_string_check].
  destruct v as [| | b | n | s | l | l]; simpl;
    try (rewrite orb_true_r; discriminate); try discriminate.
  destruct s as [| a s']; [discriminate |].
  intros _. exists (String a s'). split; [reflexivity | discriminate].
Qed.

(** [getProductsByCategory] has three outcomes.  A value that is not a
    non-empty string throws the category error.  A non-empty string that,
    once trimmed, holds a lone surrogate makes [encodeURIComponent] throw
    its [URIError], whose message is [URI malformed].  Every other
    non-empty string is accepted, and the request goes to
    [/products/category/] followed by the percent-encoding of the trimmed
    category.  Nothing is trimmed before the first test: a category made
    of white space only passes and, its segment being trimmed to nothing,
    the request goes to the path [/products/category/] with an empty last
    segment. *)
Theorem getProductsByCategory_exact (props : list (string * JsValue)) :
  let category := get_prop (JObj props) "category" in
  (forall c, getProductsByCategory (JObj props) = Ok c ->
             exists s, category = JStr s /\ s <> EmptyString /\ well_formed (trim s)
                       /\ c = Get ("/products/category/" ++ uri_encode (trim s)) JUndefined)
  /\ (forall s, category = JStr s -> s <> EmptyString -> well_formed (trim s) ->
                getProductsByCategory (JObj props)
                = Ok (Get ("/products/category/" ++ uri_encode (trim s)) JUndefined))
  /\ (forall s, category = JStr s -> s <> EmptyString -> ~ well_formed (trim s) ->
                getProductsByCategory (JObj props) = Throw (JsError "URI malformed"))
  /\ (~ nonempty_string category ->
      getProductsByCategory (JObj props)
      = Throw (JsError "Category must be a non-empty string"))
  /\ (forall s, category = JStr s -> s <> EmptyString ->
                forallb is_white_space (chars s) = true ->
                getProductsByCategory (JObj props)
                = Ok (Get "/products/category/" JUndefined)).
Proof.
  cbv zeta.
  assert (Hstep : forall s, get_prop (JObj props) "category" = JStr s -> s <> EmptyString ->
                            getProductsByCategory (JObj props)
                            = do segment <- sanitizePathSegment s;
                              Ok (Get ("/products/category/" ++ segment) JUndefined)).
  { intros s Hs Hne. unfold getProductsByCategory. rewrite destructure_object.
    cbn [bind]. rewrite Hs, (nonempty_string_truthy s Hne). reflexivity. }
  assert (Hok : forall s, get_prop (JObj props) "category" = JStr s -> s <> EmptyString ->
                          well_formed (trim s) ->
                          getProductsByCategory (JObj props)
                          = Ok (Get ("/products/category/" ++ uri_encode (trim s))
                                  JUndefined)).
  { intros s Hs Hne Hwf. rewrite (Hstep s Hs Hne).
    rewrite (proj2 (sanitizePathSegment_returns s _) (conj Hwf eq_refl)). reflexivity. }
  assert (Hbad : ~ nonempty_string (get_prop (JObj props) "category") ->
                 getProductsByCategory (JObj props)
                 = Throw (JsError "Category must be a non-empty string")).
  { intros Hn. unfold getProductsByCategory. rewrite destructure_object. cbn [bind].
    destruct (negb (truthy (get_prop (JObj props) "category"))
              || negb (is_string (get_prop (JObj props) "category"))) eqn:E;
      [reflexivity |].
    apply nonempty_string_check_iff in E. contradiction. }
  assert (Huri : forall s, get_prop (JObj props) "category" = JStr s -> s <> EmptyString ->
                           ~ well_formed (trim s) ->
                           getProductsByCategory (JObj props)
                           = Throw (JsError "URI malformed")).
  { intros s Hs Hne Hwf. rewrite (Hstep s Hs Hne).
    rewrite (sanitizePathSegment_throws s Hwf). reflexivity. }
  split; [| split; [exact Hok | split; [exact Huri | split; [exact Hbad |]]]].
  - intros c H.
    destruct (negb (truthy (get_prop (JObj props) "category"))
              || negb (is_string (get_prop (JObj props) "category"))) eqn:E.
    + rewrite Hbad in H; [discriminate |].
      intros Hn. apply nonempty_string_check_iff in Hn. congruence.
    + apply nonempty_string_check_iff in E. destruct E as (s & Hs & Hne).
      exists s. split; [exact Hs |]. split; [exact Hne |].
      destruct (has_lone_surrogate (trim s)) eqn:Ew.
      * rewrite (Huri s Hs Hne) in H; [discriminate |].
        unfold well_formed. rewrite Ew. discriminate.
      * split; [exact Ew |].
        rewrite (Hok s Hs Hne Ew) in H. injection H as <-. reflexivity.
  - intros s Hs Hne Hblank. rewrite (Hok s Hs Hne).
    + rewrite (proj2 (trim_empty_iff s) Hblank). reflexivity.
    + rewrite (proj2 (trim_empty_iff s) Hblank). reflexivity.
Qed.

(* ===================================================================== *)
(** ** Further properties of the resource functions *)
(* ===================================================================== *)

(** *** The validation steps, each with what it decides *)

Lemma id_step (v : JsValue) (fieldName : string) :
  (validatePositiveInteger v fieldName = Ok tt /\ positive_integer v)
  \/ (validatePositiveInteger v fieldName
      = Throw (JsError (fieldName ++ " must be a positive integer"))
      /\ ~ positive_integer v).
Proof.
  unfold validatePositiveInteger, throw_if.
  destruct (negb (is_number v) || negb (isInteger v) || le_zero v) eqn:E.
  - right. split; [reflexivity |]. intros H. apply positive_integer_check in H. congruence.
  - left. split; [reflexivity |]. apply positive_integer_check. exact E.
Qed.

Lemma limit_step (v : JsValue) :
  ((if negb (is_undefined v) then validateLimit v else Ok tt) = Ok tt
   /\ (v = JUndefined \/ positive_integer v))
  \/ ((if negb (is_undefined v) then validateLimit v else Ok tt)
      = Throw (JsError "Limit must be a positive integer")
      /\ ~ (v = JUndefined \/ positive_integer v)).
Proof.
  destruct (is_undefined v) eqn:U; cbn [negb].
  - left. split; [reflexivity |]. left. destruct v; try discriminate. reflexivity.
  - unfold validateLimit. rewrite U. cbn [negb]. unfold throw_if.
    destruct (negb (is_number v) || negb (isInteger v) || le_zero v) eqn:E.
    + right. split; [reflexivity |]. intros [-> | H]; [discriminate |].
      apply positive_integer_check in H. congruence.
    + left. split; [reflexivity |]. right. apply positive_integer_check. exact E.
Qed.

Lemma sort_step (v : JsValue) :
  ((if negb (is_undefined v) then validateSortOrder v else Ok tt) = Ok tt
   /\ (v = JUndefined \/ v = JStr "asc" \/ v = JStr "desc"))
  \/ ((if negb (is_undefined v) then validateSortOrder v else Ok tt)
      = Throw (JsError ("Sort order must be " ++ dquote ++ "asc" ++ dquote ++ " or "
                        ++ dquote ++ "desc" ++ dquote))
      /\ ~ (v = JUndefined \/ v = JStr "asc" \/ v = JStr "desc")).
Proof.
  destruct v as [| | b | n | s | l | l];
    try (right; split; [reflexivity | intros [H | [H | H]]; discriminate]).
  - left. split; [reflexivity | auto].
  - cbn [is_undefined negb]. unfold validateSortOrder, throw_if.
    cbn [is_undefined negb andb strict_eq_string].
    destruct (String.eqb_spec s "asc") as [-> | Ha]; [left; split; [reflexivity | auto] |].
    destruct (String.eqb_spec s "desc") as [-> | Hd]; [left; split; [reflexivity | auto] |].
    right. split; [reflexivity |].
    intros [H | [H | H]]; try discriminate; injection H as ->; contradiction.
Qed.

Lemma string_step (v : JsValue) (msg : string) :
  (throw_if (negb (truthy v) || negb (is_string v)) msg = Ok tt /\ nonempty_string v)
  \/ (throw_if (negb (truthy v) || negb (is_string v)) msg = Throw (JsError msg)
      /\ ~ nonempty_string v).
Proof.
  unfold throw_if. destruct (negb (truthy v) || negb (is_string v)) eqn:E.
  - right. split; [reflexivity |]. intros H. apply nonempty_string_check_iff in H.
    congruence.
  - left. split; [reflexivity |]. apply nonempty_string_check_iff. exact E.
Qed.

Lemma positive_number_check (v : JsValue) :
  negb (is_number v) || le_zero v = false <-> passes_positive_number v.
Proof.
  split.
  - destruct v as [| | b | n | s | l | l]; simpl; try discriminate.
    intros H. exists n. split; [reflexivity | exact H].
  - intros (n & -> & H). simpl. exact H.
Qed.

Lemma number_step (v : JsValue) (msg : string) :
  (throw_if (negb (is_number v) || le_zero v) msg = Ok tt /\ passes_positive_number v)
  \/ (throw_if (negb (is_number v) || le_zero v) msg = Throw (JsError msg)
      /\ ~ passes_positive_number v).
Proof.
  unfold throw_if. destruct (negb (is_number v) || le_zero v) eqn:E.
  - right. split; [reflexivity |]. intros H. apply positive_number_check in H. congruence.
  - left. split; [reflexivity |]. apply positive_number_check. exact E.
Qed.

Lemma array_step (v : JsValue) (msg : string) :
  (throw_if (negb (is_array v) || (Z.of_nat (length (items_of v)) =? 0)) msg = Ok tt
   /\ nonempty_array v)
  \/ (throw_if (negb (is_array v) || (Z.of_nat (length (items_of v)) =? 0)) msg
      = Throw (JsError msg)
      /\ ~ nonempty_array v).
Proof.
  destruct v as [| | b | n | s | l | l];
    try (right; split; [reflexivity | intros (x & r & H); discriminate]).
  destruct l as [| x r].
  - right. split; [reflexivity | intros (y & r & H); discriminate].
  - left. split; [reflexivity | exists x, r; reflexivity].
Qed.

Lemma positive_integer_defined (v : JsValue) :
  positive_integer v -> is_undefined v = false /\ truthy v = true.
Proof.
  intros (p & q & -> & Hq). split; [reflexivity |]. simpl.
  unfold Qeq in Hq. simpl in Hq. apply negb_true_iff. apply Z.eqb_neq. nia.
Qed.

(** Takes the step at the head of a resource function: continues on the
    passing side, and closes the throwing side when asked to. *)
Ltac take_step lemma H :=
  let R := fresh "R" in
  destruct lemma as [[R H] | [R H]]; rewrite R; cbn [bind].

(** *** List operations *)

Lemma list_params (limit sort : JsValue) :
  limit = JUndefined \/ positive_integer limit ->
  sort = JUndefined \/ sort = JStr "asc" \/ sort = JStr "desc" ->
  set_if (truthy sort) (set_if (truthy limit) (JObj []) "limit" limit) "sort" sort
  = JObj (supplied [("limit", limit); ("sort", sort)]).
Proof.
  intros Hl Hs.
  assert (Tl : truthy limit = negb (is_undefined limit)).
  { destruct Hl as [-> | H]; [reflexivity |].
    destruct (positive_integer_defined _ H) as [-> ->]. reflexivity. }
  assert (Ts : truthy sort = negb (is_undefined sort)).
  { destruct Hs as [-> | [-> | ->]]; reflexivity. }
  rewrite Tl, Ts. cbn [supplied filter snd].
  destruct (is_undefined limit), (is_undefined sort); reflexivity.
Qed.

(** The three list operations ([getAllProducts], [getAllCarts],
    [getAllUsers]) succeed exactly when [limit] is absent or a positive
    integer and [sort] is absent, [asc] or [desc] ([null] counts as neither
    absent nor valid); they then end in the GET on [/products], [/carts]
    or [/users] whose query parameters are the supplied ones among [limit]
    and [sort], in that order, and nothing else of the argument bag.
    Otherwise all three throw the same validation error. *)
Theorem list_operations_exact (props : list (string * JsValue)) :
  let limit := get_prop (JObj props) "limit" in
  let sort := get_prop (JObj props) "sort" in
  let valid := (limit = JUndefined \/ positive_integer limit)
               /\ (sort = JUndefined \/ sort = JStr "asc" \/ sort = JStr "desc") in
  let params := JObj (supplied [("limit", limit); ("sort", sort)]) in
  (valid ->
   getAllProducts (JObj props) = Ok (Get "/products" params)
   /\ getAllCarts (JObj props) = Ok (Get "/carts" params)
   /\ getAllUsers (JObj props) = Ok (Get "/users" params))
  /\ (~ valid ->
      exists msg,
        getAllProducts (JObj props) = Throw (JsError msg)
        /\ getAllCarts (JObj props) = Throw (JsError msg)
        /\ getAllUsers (JObj props) = Throw (JsError msg)).
Proof.
  cbv zeta. unfold getAllProducts, getAllCarts, getAllUsers.
  rewrite !destructure_object. cbn [bind].
  destruct (limit_step (get_prop (JObj props) "limit")) as [[Rl Hl] | [Rl Hl]];
    rewrite !Rl; cbn [bind].
  - destruct (sort_step (get_prop (JObj props) "sort")) as [[Rs Hs] | [Rs Hs]];
      rewrite !Rs; cbn [bind].
    + split.
      * intros _. rewrite (list_params _ _ Hl Hs). repeat split.
      * intros Hn. exfalso. apply Hn. split; assumption.
    + split.
      * intros [_ H]. contradiction.
      * intros _. eexists. repeat split.
  - split.
    + intros [H _]. contradiction.
    + intros _. eexists. repeat split.
Qed.

(** *** Operations on one identifier *)

Lemma ToString_positive_integer (z : Z) :
  0 < z <= 2 ^ 53 ->
  ToString (JNum (of_Z z)) = NilZero.string_of_int (Z.to_int z).
Proof.
  intros Hz. cbn [ToString]. unfold Number_toString, of_Z.
  cbn [Number_isInteger number_to_Z inject_Z Qnum Qden].
  rewrite Z.mod_1_r, Z.div_1_r. cbn [Z.eqb andb].
  destruct (Z.leb_spec (Z.abs z) (2 ^ 53)); [reflexivity | lia].
Qed.

(** The seven operations that take one identifier succeed exactly when it
    is a positive integer; they then end in the call on the path that
    holds the identifier as a template literal prints it (its decimal
    digits for an identifier up to [2^53], the range in which every
    integer is a number of its own), with no query parameters and no body.
    Any other identifier, a missing one included, throws the error that
    names it. *)
Theorem identifier_operations_exact (props : list (string * JsValue)) :
  let args := JObj props in
  let id := get_prop args "id" in
  let userId := get_prop args "userId" in
  (positive_integer id ->
   getProductById args = Ok (Get ("/products/" ++ ToString id) JUndefined)
   /\ deleteProduct args = Ok (Del ("/products/" ++ ToString id))
   /\ getCartById args = Ok (Get ("/carts/" ++ ToString id) JUndefined)
   /\ deleteCart args = Ok (Del ("/carts/" ++ ToString id))
   /\ getUserById args = Ok (Get ("/users/" ++ ToString id) JUndefined)
   /\ deleteUser args = Ok (Del ("/users/" ++ ToString id)))
  /\ (~ positive_integer id ->
      getProductById args = Throw (JsError "Product ID must be a positive integer")
      /\ deleteProduct args = Throw (JsError "Product ID must be a positive integer")
      /\ getCartById args = Throw (JsError "Cart ID must be a positive integer")
      /\ deleteCart args = Throw (JsError "Cart ID must be a positive integer")
      /\ getUserById args = Throw (JsError "User ID must be a positive integer")
      /\ deleteUser args = Throw (JsError "User ID must be a positive integer"))
  /\ (positive_integer userId ->
      getUserCarts args = Ok (Get ("/carts/user/" ++ ToString userId) JUndefined))
  /\ (~ positive_integer userId ->
      getUserCarts args = Throw (JsError "User ID must be a positive integer"))
  /\ (forall z, 0 < z <= 2 ^ 53 ->
                ToString (JNum (of_Z z)) = NilZero.string_of_int (Z.to_int z)).
Proof.
  cbv zeta.
  unfold getProductById, deleteProduct, getCartById, deleteCart, getUserById,
    deleteUser, getUserCarts.
  rewrite !destructure_object. cbn [bind].
  split; [| split; [| split; [| split; [| exact ToString_positive_integer]]]].
  - intros H.
    rewrite !(proj2 (validatePositiveInteger_ok _ _) H). cbn [bind]. repeat split.
  - intros H. rewrite !(validatePositiveInteger_throws _ _ H). cbn [bind]. repeat split.
  - intros H.
    rewrite !(proj2 (validatePositiveInteger_ok _ _) H). cbn [bind]. reflexivity.
  - intros H. rewrite !(validatePositiveInteger_throws _ _ H). cbn [bind]. reflexivity.
Qed.

(** *** Create operations *)

(** [addProduct] checks its five fields in the order [title], [price],
    [description], [image], [category] and throws at the first that fails;
    it succeeds exactly when all pass, the price being any number that is
    not [<= 0] (a fraction as well as an integer), and then ends in the
    create call whose body holds the five fields and nothing else. *)
Theorem addProduct_exact (props : list (string * JsValue)) :
  let args := JObj props in
  let title := get_prop args "title" in
  let price := get_prop args "price" in
  let description := get_prop args "description" in
  let image := get_prop args "image" in
  let category := get_prop args "category" in
  (~ nonempty_string title ->
   addProduct args = Throw (JsError "Title must be a non-empty string"))
  /\ (nonempty_string title -> ~ passes_positive_number price ->
      addProduct args = Throw (JsError "Price must be a positive number"))
  /\ (nonempty_string title -> passes_positive_number price ->
      ~ nonempty_string description ->
      addProduct args = Throw (JsError "Description must be a non-empty string"))
  /\ (nonempty_string title -> passes_positive_number price ->
      nonempty_string description ->
      forall t, validateUrl image "Image URL" = Throw t -> addProduct args = Throw t)
  /\ (nonempty_string title -> passes_positive_number price ->
      nonempty_string description -> validateUrl image "Image URL" = Ok tt ->
      ~ nonempty_string category ->
      addProduct args = Throw (JsError "Category must be a non-empty string"))
  /\ (nonempty_string title -> passes_positive_number price ->
      nonempty_string description -> validateUrl image "Image URL" = Ok tt ->
      nonempty_string category ->
      addProduct args
      = Ok (Post "/products"
              (JObj [("title", title); ("price", price); ("description", description);
                     ("image", image); ("category", category)]))).
Proof.
  cbv zeta. unfold addProduct. rewrite destructure_object. cbn [bind].
  take_step (string_step (get_prop (JObj props) "title")
               "Title must be a non-empty string") Ht;
    [| repeat split; intros; first [reflexivity | contradiction]].
  take_step (number_step (get_prop (JObj props) "price")
               "Price must be a positive number") Hp;
    [| repeat split; intros; first [reflexivity | contradiction]].
  take_step (string_step (get_prop (JObj props) "description")
               "Description must be a non-empty string") Hd;
    [| repeat split; intros; first [reflexivity | contradiction]].
  destruct (validateUrl (get_prop (JObj props) "image") "Image URL") as [[] | t] eqn:Hu;
    cbn [bind].
  - take_step (string_step (get_prop (JObj props) "category")
                 "Category must be a non-empty string") Hc;
      repeat split; intros; first [reflexivity | contradiction | discriminate].
  - repeat split; intros; try contradiction; try discriminate.
    match goal with H : Throw _ = Throw _ |- _ => injection H as <- end. reflexivity.
Qed.

(** [addUser] checks [email], [username], [password], [firstname] and
    [lastname], in that order, for being non-empty strings, throws at the
    first that fails the error that names it, and checks nothing else: it
    succeeds exactly when the five pass, whatever [city], [street],
    [number], [zipcode], [lat], [long] and [phone] are, absent ones
    included, and these are copied as they are into the nested body. *)
Theorem addUser_exact (props : list (string * JsValue)) :
  let args := JObj props in
  let email := get_prop args "email" in
  let username := get_prop args "username" in
  let password := get_prop args "password" in
  let firstname := get_prop args "firstname" in
  let lastname := get_prop args "lastname" in
  (~ nonempty_string email ->
   addUser args = Throw (JsError "Email must be a non-empty string"))
  /\ (nonempty_string email -> ~ nonempty_string username ->
      addUser args = Throw (JsError "Username must be a non-empty string"))
  /\ (nonempty_string email -> nonempty_string username ->
      ~ nonempty_string password ->
      addUser args = Throw (JsError "Password must be a non-empty string"))
  /\ (nonempty_string email -> nonempty_string username ->
      nonempty_string password -> ~ nonempty_string firstname ->
      addUser args = Throw (JsError "First name must be a non-empty string"))
  /\ (nonempty_string email -> nonempty_string username ->
      nonempty_string password -> nonempty_string firstname ->
      ~ nonempty_string lastname ->
      addUser args = Throw (JsError "Last name must be a non-empty string"))
  /\ (nonempty_string email -> nonempty_string username ->
      nonempty_string password -> nonempty_string firstname ->
      nonempty_string lastname ->
      addUser args
      = Ok (Post "/users"
              (JObj [("email", email);
                     ("username", username);
                     ("password", password);
                     ("name", JObj [("firstname", firstname);
                                    ("lastname", lastname)]);
                     ("address",
                      JObj [("city", get_prop args "city");
                            ("street", get_prop args "street");
                            ("number", get_prop args "number");
                            ("zipcode", get_prop args "zipcode");
                            ("geolocation", JObj [("lat", get_prop args "lat");
                                                  ("long", get_prop args "long")])]);
                     ("phone", get_prop args "phone")]))).
Proof.
  cbv zeta. unfold addUser. rewrite destructure_object. cbn [bind].
  take_step (string_step (get_prop (JObj props) "email")
               "Email must be a non-empty string") He;
    [| repeat split; intros; first [reflexivity | contradiction]].
  take_step (string_step (get_prop (JObj props) "username")
               "Username must be a non-empty string") Hu;
    [| repeat split; intros; first [reflexivity | contradiction]].
  take_step (string_step (get_prop (JObj props) "password")
               "Password must be a non-empty string") Hp;
    [| repeat split; intros; first [reflexivity | contradiction]].
  take_step (string_step (get_prop (JObj props) "firstname")
               "First name must be a non-empty string") Hf;
    [| repeat split; intros; first [reflexivity | contradiction]].
  take_step (string_step (get_prop (JObj props) "lastname")
               "Last name must be a non-empty string") Hl;
    repeat split; intros; first [reflexivity | contradiction].
Qed.

Ltac step_number H :=
  match goal with
  | |- context [throw_if (negb (is_number ?v) || le_zero ?v) ?m] =>
      take_step (number_step v m) H
  end.

Lemma check_cart_product_ok (entry : JsValue) (index : Z) :
  check_cart_product entry index = Ok tt <-> cart_entry_ok entry.
Proof.
  unfold check_cart_product, cart_entry_ok. split.
  - destruct entry as [| | b | n | s | l | l]; cbn [read_prop bind is_nullish];
      try discriminate;
      (step_number Hp; [| discriminate]; step_number Hq; [| discriminate];
       intros _; repeat split; assumption).
  - intros (Hn & Hp & Hq).
    destruct entry as [| | b | n | s | l | l]; try discriminate Hn;
      cbn [read_prop bind];
      (step_number Hp'; [| contradiction]; step_number Hq'; [| contradiction];
       reflexivity).
Qed.

Lemma forEach_cart_ok (entries : list JsValue) (index : Z) :
  forEach check_cart_product entries index = Ok tt <-> Forall cart_entry_ok entries.
Proof.
  revert index. induction entries as [| x rest IH]; intros index; cbn [forEach].
  - split; [intros _; constructor | reflexivity].
  - destruct (check_cart_product x index) as [[] | t] eqn:E; cbn [bind].
    + rewrite IH. split.
      * intros H. constructor; [apply (check_cart_product_ok x index); exact E | exact H].
      * intros H. inversion H; assumption.
    + split; [discriminate |].
      intros H. inversion H as [| ? ? Hx _]; subst.
      apply (check_cart_product_ok x index) in Hx. congruence.
Qed.

Lemma forEach_cart_throws (entries : list JsValue) (index : Z) (t : Thrown) :
  forEach check_cart_product entries index = Throw t -> exists msg, t = JsError msg.
Proof.
  revert index. induction entries as [| x rest IH]; intros index; cbn [forEach];
    [discriminate |].
  destruct (check_cart_product_cases x index) as [-> | [m ->]]; cbn [bind].
  - apply IH.
  - intros H. injection H as <-. eauto.
Qed.

(** [addCart] succeeds exactly when [userId] is a positive integer, [date]
    a non-empty string and [products] a non-empty array every entry of
    which has a [productId] and a [quantity] that are numbers not [<= 0];
    it then ends in the create call whose body is [userId], [date] and the
    array as it came. *)
Theorem addCart_exact (props : list (string * JsValue)) :
  let args := JObj props in
  let userId := get_prop args "userId" in
  let date := get_prop args "date" in
  let products := get_prop args "products" in
  let valid :=
    positive_integer userId /\ nonempty_string date /\ nonempty_array products
    /\ Forall cart_entry_ok (items_of products) in
  (valid ->
   addCart args
   = Ok (Post "/carts" (JObj [("userId", userId); ("date", date); ("products", products)])))
  /\ (~ valid -> exists msg, addCart args = Throw (JsError msg)).
Proof.
  cbv zeta. unfold addCart. rewrite destructure_object. cbn [bind].
  take_step (id_step (get_prop (JObj props) "userId") "User ID") Hu;
    [| split; [intros (H & _); contradiction | intros _; eauto]].
  take_step (string_step (get_prop (JObj props) "date")
               "Date must be a non-empty string") Hd;
    [| split; [intros (_ & H & _); contradiction | intros _; eauto]].
  take_step (array_step (get_prop (JObj props) "products")
               "Products must be a non-empty array") Ha;
    [| split; [intros (_ & _ & H & _); contradiction | intros _; eauto]].
  destruct (forEach check_cart_product (items_of (get_prop (JObj props) "products")) 0)
    as [[] | t] eqn:E; cbn [bind].
  - apply forEach_cart_ok in E. split; [intros _; reflexivity |].
    intros Hn. exfalso. apply Hn. repeat split; assumption.
  - split.
    + intros (_ & _ & _ & H). apply (forEach_cart_ok _ 0) in H. congruence.
    + intros _. destruct (forEach_cart_throws _ _ _ E) as [msg ->]. eauto.
Qed.

(** *** Update operations *)

Lemma is_undefined_true (v : JsValue) : is_undefined v = true -> v = JUndefined.
Proof.
  destruct v; intros H; try discriminate; reflexivity.
Qed.

(** [updateProduct] validates [id] and, when supplied, the URL of [image];
    [title], [price], [description] and [category] are passed on as they
    come, so that a price the create operation refuses (zero, a negative
    number, a string) is accepted here.  The body holds the supplied ones
    among the five fields, in the order [title], [price], [description],
    [image], [category], and never the identifier. *)
Theorem updateProduct_exact (props : list (string * JsValue)) :
  let args := JObj props in
  let id := get_prop args "id" in
  let image := get_prop args "image" in
  let body :=
    JObj (supplied [("title", get_prop args "title"); ("price", get_prop args "price");
                    ("description", get_prop args "description"); ("image", image);
                    ("category", get_prop args "category")]) in
  (~ positive_integer id ->
   updateProduct args = Throw (JsError "Product ID must be a positive integer"))
  /\ (positive_integer id ->
      image = JUndefined \/ validateUrl image "Image URL" = Ok tt ->
      updateProduct args = Ok (Put ("/products/" ++ ToString id) body))
  /\ (positive_integer id -> image <> JUndefined ->
      forall t, validateUrl image "Image URL" = Throw t -> updateProduct args = Throw t).
Proof.
  cbv zeta. unfold updateProduct. rewrite destructure_object. cbn [bind].
  take_step (id_step (get_prop (JObj props) "id") "Product ID") Hid;
    [| repeat split; intros; first [reflexivity | contradiction]].
  split; [intros H; contradiction |]. split.
  - intros _ Himg. cbn [supplied filter snd].
    assert (Hstep :
              (if negb (is_undefined (get_prop (JObj props) "image")) then
                 bind (validateUrl (get_prop (JObj props) "image") "Image URL")
                   (fun _ => Ok tt)
               else Ok tt) = Ok tt).
    { destruct Himg as [-> | ->]; [reflexivity |].
      destruct (negb (is_undefined (get_prop (JObj props) "image"))); reflexivity. }
    destruct (is_undefined (get_prop (JObj props) "image")) eqn:Ui; cbn [negb] in *.
    + destruct (is_undefined (get_prop (JObj props) "title")),
        (is_undefined (get_prop (JObj props) "price")),
        (is_undefined (get_prop (JObj props) "description")),
        (is_undefined (get_prop (JObj props) "category")); reflexivity.
    + destruct (validateUrl (get_prop (JObj props) "image") "Image URL") as [[] | t];
        [| discriminate Hstep]. cbn [bind].
      destruct (is_undefined (get_prop (JObj props) "title")),
        (is_undefined (get_prop (JObj props) "price")),
        (is_undefined (get_prop (JObj props) "description")),
        (is_undefined (get_prop (JObj props) "category")); reflexivity.
  - intros _ Hdef t Ht. rewrite (is_undefined_false _ Hdef). cbn [negb].
    rewrite Ht. reflexivity.
Qed.

(** [updateCart] succeeds exactly when [id] is a positive integer,
    [userId] absent or a positive integer and [products] absent or a
    non-empty array; [date] and the entries of [products] are passed on as
    they come.  The body holds the supplied ones among [userId], [date]
    and [products], in that order, and never the identifier. *)
Theorem updateCart_exact (props : list (string * JsValue)) :
  let args := JObj props in
  let id := get_prop args "id" in
  let userId := get_prop args "userId" in
  let products := get_prop args "products" in
  let valid :=
    positive_integer id
    /\ (userId = JUndefined \/ positive_integer userId)
    /\ (products = JUndefined \/ nonempty_array products) in
  let body :=
    JObj (supplied [("userId", userId); ("date", get_prop args "date");
                    ("products", products)]) in
  (valid -> updateCart args = Ok (Put ("/carts/" ++ ToString id) body))
  /\ (~ valid -> exists msg, updateCart args = Throw (JsError msg)).
Proof.
  cbv zeta. unfold updateCart. rewrite destructure_object. cbn [bind].
  take_step (id_step (get_prop (JObj props) "id") "Cart ID") Hid;
    [| split; [intros (H & _); contradiction | intros _; eauto]].
  cbn [supplied filter snd].
  destruct (is_undefined (get_prop (JObj props) "userId")) eqn:Uu; cbn [negb bind].
  - apply is_undefined_true in Uu.
    destruct (is_undefined (get_prop (JObj props) "products")) eqn:Up; cbn [negb bind].
    + apply is_undefined_true in Up. split.
      * intros _.
        destruct (is_undefined (get_prop (JObj props) "date")); reflexivity.
      * intros Hn. exfalso. apply Hn. auto.
    + take_step (array_step (get_prop (JObj props) "products")
                   "Products must be a non-empty array") Ha.
      * split.
        -- intros _.
           destruct (is_undefined (get_prop (JObj props) "date")); reflexivity.
        -- intros Hn. exfalso. apply Hn. auto.
      * split; [| intros _; eauto].
        intros (_ & _ & [H | H]); [rewrite H in Up; discriminate | contradiction].
  - take_step (id_step (get_prop (JObj props) "userId") "User ID") Hu.
    + destruct (is_undefined (get_prop (JObj props) "products")) eqn:Up; cbn [negb bind].
      * apply is_undefined_true in Up. split.
        -- intros _.
           destruct (is_undefined (get_prop (JObj props) "date")); reflexivity.
        -- intros Hn. exfalso. apply Hn. auto.
      * take_step (array_step (get_prop (JObj props) "products")
                     "Products must be a non-empty array") Ha.
        -- split.
           ++ intros _.
              destruct (is_undefined (get_prop (JObj props) "date")); reflexivity.
           ++ intros Hn. exfalso. apply Hn. auto.
        -- split; [| intros _; eauto].
           intros (_ & _ & [H | H]); [rewrite H in Up; discriminate | contradiction].
    + split; [| intros _; eauto].
      intros (_ & [H | H] & _); [rewrite H in Uu; discriminate | contradiction].
Qed.

Lemma set_assoc_fresh (k : string) (v : JsValue) (l : list (string * JsValue)) :
  assoc k l = None -> set_assoc k v l = (l ++ [(k, v)])%list.
Proof.
  induction l as [| [k' v'] r IH]; cbn [assoc set_assoc app]; [reflexivity |].
  destruct (String.eqb k k'); [discriminate |].
  intros H. rewrite (IH H). reflexivity.
Qed.

Lemma assoc_app_last (k : string) (v : JsValue) (l : list (string * JsValue)) :
  assoc k l = None -> assoc k (l ++ [(k, v)]) = Some v.
Proof.
  induction l as [| [k' v'] r IH]; cbn [assoc app].
  - intros _. rewrite String.eqb_refl. reflexivity.
  - destruct (String.eqb k k'); [discriminate | exact IH].
Qed.

Lemma set_assoc_app_last (k : string) (v v' : JsValue) (l : list (string * JsValue)) :
  assoc k l = None -> set_assoc k v' (l ++ [(k, v)]) = (l ++ [(k, v')])%list.
Proof.
  induction l as [| [k' v0] r IH]; cbn [assoc set_assoc app].
  - intros _. rewrite String.eqb_refl. reflexivity.
  - destruct (String.eqb k k'); [discriminate |].
    intros H. rewrite (IH H). reflexivity.
Qed.

(** Setting a key an object does not have appends it. *)
Lemma set_path_fresh (l : list (string * JsValue)) (k : string) (v : JsValue) :
  assoc k l = None -> set_path (JObj l) [k] v = JObj (l ++ [(k, v)]).
Proof.
  intros H. cbn [set_path set_prop]. rewrite (set_assoc_fresh k v l H). reflexivity.
Qed.

(** Setting below the last key of an object changes that field in place. *)
Lemma set_path_nested (l : list (string * JsValue)) (k : string) (inner : JsValue)
      (path : list string) (v : JsValue) :
  assoc k l = None ->
  set_path (JObj (l ++ [(k, inner)])) (k :: path) v
  = JObj (l ++ [(k, set_path inner path v)]).
Proof.
  intros H. cbn [set_path set_prop get_prop].
  rewrite (assoc_app_last k inner l H), (set_assoc_app_last k inner _ l H).
  reflexivity.
Qed.

Lemma top_stage (email username password phone : JsValue) :
  set_if (negb (is_undefined phone))
    (set_if (negb (is_undefined password))
       (set_if (negb (is_undefined username))
          (set_if (negb (is_undefined email)) (JObj []) "email" email)
          "username" username)
       "password" password)
    "phone" phone
  = JObj (supplied [("email", email); ("username", username); ("password", password);
                    ("phone", phone)]).
Proof.
  cbn [supplied filter snd].
  destruct (is_undefined email), (is_undefined username), (is_undefined password),
    (is_undefined phone); reflexivity.
Qed.

Lemma name_stage (l : list (string * JsValue)) (firstname lastname : JsValue) :
  assoc "name" l = None ->
  (if negb (is_undefined firstname) || negb (is_undefined lastname) then
     set_path_if (negb (is_undefined lastname))
       (set_path_if (negb (is_undefined firstname))
          (set_path (JObj l) ["name"] (JObj [])) ["name"; "firstname"] firstname)
       ["name"; "lastname"] lastname
   else JObj l)
  = JObj (l ++ nest "name" (supplied [("firstname", firstname); ("lastname", lastname)])).
Proof.
  intros H. rewrite (set_path_fresh l "name" (JObj []) H).
  cbn [supplied filter snd].
  destruct (is_undefined firstname), (is_undefined lastname);
    cbn [negb orb set_path_if nest];
    rewrite ?(set_path_nested l "name" _ _ _ H), ?app_nil_r; reflexivity.
Qed.

Lemma address_stage (l : list (string * JsValue))
      (city street number zipcode lat long : JsValue) :
  assoc "address" l = None ->
  (if negb (is_undefined city) || negb (is_undefined street)
      || negb (is_undefined number) || negb (is_undefined zipcode)
      || negb (is_undefined lat) || negb (is_undefined long)
   then
     if negb (is_undefined lat) || negb (is_undefined long) then
       set_path_if (negb (is_undefined long))
         (set_path_if (negb (is_undefined lat))
            (set_path
               (set_path_if (negb (is_undefined zipcode))
                  (set_path_if (negb (is_undefined number))
                     (set_path_if (negb (is_undefined street))
                        (set_path_if (negb (is_undefined city))
                           (set_path (JObj l) ["address"] (JObj []))
                           ["address"; "city"] city)
                        ["address"; "street"] street)
                     ["address"; "number"] number)
                  ["address"; "zipcode"] zipcode)
               ["address"; "geolocation"] (JObj []))
            ["address"; "geolocation"; "lat"] lat)
         ["address"; "geolocation"; "long"] long
     else
       set_path_if (negb (is_undefined zipcode))
         (set_path_if (negb (is_undefined number))
            (set_path_if (negb (is_undefined street))
               (set_path_if (negb (is_undefined city))
                  (set_path (JObj l) ["address"] (JObj []))
                  ["address"; "city"] city)
               ["address"; "street"] street)
            ["address"; "number"] number)
         ["address"; "zipcode"] zipcode
   else JObj l)
  = JObj (l ++ nest "address"
                 (supplied [("city", city); ("street", street); ("number", number);
                            ("zipcode", zipcode)]
                  ++ nest "geolocation" (supplied [("lat", lat); ("long", long)]))).
Proof.
  intros H. rewrite (set_path_fresh l "address" (JObj []) H).
  cbn [supplied filter snd].
  destruct (is_undefined city), (is_undefined street), (is_undefined number),
    (is_undefined zipcode), (is_undefined lat), (is_undefined long);
    cbn [negb orb set_path_if nest app];
    rewrite ?(set_path_nested l "address" _ _ _ H), ?app_nil_r; reflexivity.
Qed.

Lemma top_has_no_nested_key (email username password phone firstname lastname : JsValue) :
  let top := supplied [("email", email); ("username", username);
                       ("password", password); ("phone", phone)] in
  assoc "name" top = None
  /\ assoc "address"
       (top ++ nest "name" (supplied [("firstname", firstname); ("lastname", lastname)]))
     = None.
Proof.
  cbn [supplied filter snd].
  destruct (is_undefined email), (is_undefined username), (is_undefined password),
    (is_undefined phone), (is_undefined firstname), (is_undefined lastname);
    split; reflexivity.
Qed.

(** [updateUser] validates nothing but [id].  Its body holds the supplied
    ones among [email], [username], [password] and [phone], then a [name]
    object when [firstname] or [lastname] is supplied, then an [address]
    object when one of [city], [street], [number], [zipcode], [lat],
    [long] is, the last two inside a [geolocation] object of their own;
    each nested object holds the supplied fields only, and an object with
    nothing to hold is left out. *)
Theorem updateUser_exact (props : list (string * JsValue)) :
  let args := JObj props in
  let id := get_prop args "id" in
  let body :=
    JObj (supplied [("email", get_prop args "email");
                    ("username", get_prop args "username");
                    ("password", get_prop args "password");
                    ("phone", get_prop args "phone")]
          ++ nest "name" (supplied [("firstname", get_prop args "firstname");
                                    ("lastname", get_prop args "lastname")])
          ++ nest "address"
               (supplied [("city", get_prop args "city");
                          ("street", get_prop args "street");
                          ("number", get_prop args "number");
                          ("zipcode", get_prop args "zipcode")]
                ++ nest "geolocation" (supplied [("lat", get_prop args "lat");
                                                 ("long", get_prop args "long")])))%list in
  (positive_integer id -> updateUser args = Ok (Put ("/users/" ++ ToString id) body))
  /\ (~ positive_integer id ->
      updateUser args = Throw (JsError "User ID must be a positive integer")).
Proof.
  cbv zeta. unfold updateUser. rewrite destructure_object. cbn [bind].
  take_step (id_step (get_prop (JObj props) "id") "User ID") Hid;
    [| split; intros; first [reflexivity | contradiction]].
  split; [intros _ | intros H; contradiction].
  destruct (top_has_no_nested_key
              (get_prop (JObj props) "email") (get_prop (JObj props) "username")
              (get_prop (JObj props) "password") (get_prop (JObj props) "phone")
              (get_prop (JObj props) "firstname") (get_prop (JObj props) "lastname"))
    as [Hname Haddress].
  rewrite top_stage.
  rewrite (name_stage _ _ _ Hname).
  rewrite (address_stage _ _ _ _ _ _ _ Haddress).
  rewrite <- app_assoc. reflexivity.
Qed.

(* ===================================================================== *)
(** ** Further properties of the rate limiter *)
(* ===================================================================== *)

Lemma filter_split_length {A : Type} (p : A -> bool) (l : list A) :
  (length (filter p l) + length (filter (fun x => negb (p x)) l))%nat = length l.
Proof.
  induction l as [| x r IH]; simpl; [reflexivity |].
  destruct (p x); simpl; lia.
Qed.

(** Running the callbacks of the timers that are due. *)
Lemma fire_frame (due : list Z) (w : World) :
  let w' := fold_left (fun w0 (_ : Z) => timerCallback w0) due w in
  timers w' = timers w /\ clock w' = clock w /\ sent w' = sent w
  /\ requestCount w - Z.of_nat (length due) <= requestCount w' <= requestCount w
  /\ (Z.of_nat (length due) <= requestCount w ->
      requestCount w' = requestCount w - Z.of_nat (length due)).
Proof.
  cbv zeta. revert w. induction due as [| t rest IH]; intros w.
  - cbn [fold_left length]. repeat split; lia.
  - cbn [fold_left]. destruct (IH (timerCallback w)) as (Ht & Hc & Hs & Hb & He).
    rewrite Ht, Hc, Hs. clear Ht Hc Hs.
    unfold timerCallback in *.
    destruct (Z.ltb_spec 0 (requestCount w)); cbn [requestCount timers clock sent] in *;
      cbn [length]; repeat split; try lia;
      intros Hle; apply He; lia.
Qed.

Lemma advance_frame (ms : Z) (w : World) :
  sent (advance ms w) = sent w
  /\ clock (advance ms w) = clock w + Z.max 0 ms
  /\ timers (advance ms w)
     = filter (fun t => negb (t <=? clock w + Z.max 0 ms)) (timers w)
  /\ requestCount (advance ms w) - Z.of_nat (length (timers (advance ms w)))
     >= requestCount w - Z.of_nat (length (timers w))
  /\ (Z.of_nat (length (timers w)) <= requestCount w ->
      requestCount (advance ms w) - Z.of_nat (length (timers (advance ms w)))
      = requestCount w - Z.of_nat (length (timers w))).
Proof.
  unfold advance.
  set (now := clock w + Z.max 0 ms).
  set (due := filter (fun t => t <=? now) (timers w)).
  set (pending := filter (fun t => negb (t <=? now)) (timers w)).
  destruct (fire_frame due (mkWorld (requestCount w) pending now (sent w)))
    as (Ht & Hc & Hs & Hb & He).
  cbn [requestCount timers clock sent] in *.
  rewrite Ht, Hc, Hs.
  assert (Hlen : (length due + length pending)%nat = length (timers w))
    by apply filter_split_length.
  repeat split; try lia; intros Hle; rewrite He; lia.
Qed.

Lemma run_accounting (events : list Event) :
  forall w,
    Z.of_nat (length (timers w)) <= requestCount w ->
    let w' := run events w in
    Z.of_nat (length (timers w')) <= requestCount w'
    /\ requestCount w' - Z.of_nat (length (timers w'))
       = requestCount w - Z.of_nat (length (timers w))
         + Z.of_nat (length (calls events))
         - (Z.of_nat (length (sent w')) - Z.of_nat (length (sent w)))
    /\ Z.of_nat (length (sent w)) <= Z.of_nat (length (sent w'))
       <= Z.of_nat (length (sent w)) + Z.of_nat (length (calls events)).
Proof.
  cbv zeta. induction events as [| [c | ms] rest IH]; intros w Hinv.
  - cbn [run calls length]. repeat split; lia.
  - cbn [run calls length].
    destruct (Z.le_gt_cases (requestCount w + 1) RATE_LIMIT) as [Hle | Hgt].
    + rewrite (perform_allowed c w Hle). cbn [snd].
      match goal with
      | |- context [run rest ?w1] => destruct (IH w1) as (H1 & H2 & H3)
      end.
      { cbn [requestCount timers]. rewrite length_app. cbn [length]. lia. }
      cbn [requestCount timers sent] in H2, H3.
      repeat rewrite length_app in H2. repeat rewrite length_app in H3.
      cbn [length] in H2, H3.
      repeat split; lia.
    + assert (Hgt' : RATE_LIMIT < requestCount w + 1) by lia.
      rewrite (perform_refused c w Hgt'). cbn [snd].
      match goal with
      | |- context [run rest ?w1] => destruct (IH w1) as (H1 & H2 & H3)
      end.
      { cbn [requestCount timers]. lia. }
      cbn [requestCount timers sent] in H2, H3.
      repeat split; lia.
  - cbn [run calls].
    destruct (advance_frame ms w) as (Hs & _ & _ & _ & He).
    specialize (He Hinv).
    destruct (IH (advance ms w)) as (H1 & H2 & H3); [lia |].
    rewrite Hs in H2, H3. repeat split; lia.
Qed.

(** Whatever calls and waits have happened since start-up, the counter is
    the number of decrements still pending plus the number of requests
    refused so far (the calls made less the requests sent): a refused
    request has incremented the counter and scheduled nothing that would
    take the increment back.  The counter is never negative and at least
    the number of pending decrements. *)
Theorem counter_accounting (events : list Event) :
  let w := run events start in
  requestCount w
  = Z.of_nat (length (timers w))
    + (Z.of_nat (length (calls events)) - Z.of_nat (length (sent w)))
  /\ Z.of_nat (length (sent w)) <= Z.of_nat (length (calls events))
  /\ 0 <= Z.of_nat (length (timers w)) <= requestCount w.
Proof.
  cbv zeta.
  destruct (run_accounting events start) as (H1 & H2 & H3); [cbn; lia |].
  cbn [start requestCount timers sent length] in H2, H3.
  repeat split; lia.
Qed.

Lemma run_locked_out (events : list Event) :
  forall w, locked_out w ->
            locked_out (run events w) /\ sent (run events w) = sent w.
Proof.
  unfold locked_out. induction events as [| [c | ms] rest IH]; intros w Hlock.
  - cbn [run]. split; [exact Hlock | reflexivity].
  - cbn [run].
    assert (Hgt : RATE_LIMIT < requestCount w + 1) by lia.
    rewrite (perform_refused c w Hgt). cbn [snd].
    match goal with
    | |- context [run rest ?w1] => destruct (IH w1) as [H1 H2]
    end.
    { cbn [requestCount timers]. lia. }
    split; [exact H1 | exact H2].
  - cbn [run].
    destruct (advance_frame ms w) as (Hs & _ & _ & Hge & _).
    destruct (IH (advance ms w)) as [H1 H2]; [lia |].
    split; [exact H1 |]. rewrite H2. exact Hs.
Qed.

(** Once a hundred requests have been refused the process is locked out
    for good: however long it waits and whatever it calls afterwards, no
    request is sent any more and every call fails with the rate-limit
    error. *)
Theorem lockout_after_refusals (events later : list Event) (c : ApiCall) :
  let w := run events start in
  RATE_LIMIT <= Z.of_nat (length (calls events)) - Z.of_nat (length (sent w)) ->
  sent (run later w) = sent w
  /\ perform c (run later w)
     = (Throw (ThrownObject (mkApiError rate_limit_message None None)),
        mkWorld (requestCount (run later w) + 1) (timers (run later w))
          (clock (run later w)) (sent w)).
Proof.
  cbv zeta. intros Hrefused.
  destruct (run_accounting events start) as (H1 & H2 & H3); [cbn; lia |].
  cbn [start requestCount timers sent length] in H2.
  assert (Hlock : locked_out (run events start)) by (unfold locked_out; lia).
  destruct (run_locked_out later _ Hlock) as [Hl Hs].
  split; [exact Hs |].
  unfold locked_out in Hl.
  rewrite perform_refused by lia. rewrite Hs. reflexivity.
Qed.

Lemma run_burst (cs : list ApiCall) :
  forall w,
    requestCount w + Z.of_nat (length cs) <= RATE_LIMIT ->
    run (map Call cs) w
    = mkWorld (requestCount w + Z.of_nat (length cs))
        (timers w ++ repeat (clock w + RATE_LIMIT_WINDOW) (length cs))
        (clock w) (sent w ++ cs).
Proof.
  induction cs as [| c rest IH]; intros w Hcap.
  - destruct w. cbn [run map length repeat requestCount timers clock sent].
    rewrite !app_nil_r, Z.add_0_r. reflexivity.
  - cbn [map run length] in *.
    rewrite perform_allowed by lia. cbn [snd].
    rewrite IH by (cbn [requestCount]; lia).
    cbn [requestCount timers clock sent repeat].
    rewrite <- !app_assoc. cbn [app]. f_equal. lia.
Qed.

Lemma filter_repeat {A : Type} (p : A -> bool) (x : A) (n : nat) :
  filter p (repeat x n) = if p x then repeat x n else [].
Proof.
  induction n as [| n IH]; cbn [repeat filter]; [destruct (p x); reflexivity |].
  rewrite IH. destruct (p x); reflexivity.
Qed.

(** From a quiet process (counter at zero, no decrement pending) a burst
    of at most a hundred calls is sent whole and in order; when it holds
    exactly a hundred, one more call is refused and not sent.  Before the
    window of 60 000 ms has elapsed the counter keeps the size of the
    burst; once it has, the counter is back at zero with nothing pending,
    so that the full cap is available again. *)
Theorem burst_then_quiet_window (cs : list ApiCall) (w : World) :
  requestCount w = 0 -> timers w = [] ->
  Z.of_nat (length cs) <= RATE_LIMIT ->
  let w1 := run (map Call cs) w in
  sent w1 = (sent w ++ cs)%list
  /\ requestCount w1 = Z.of_nat (length cs)
  /\ (Z.of_nat (length cs) = RATE_LIMIT ->
      forall c, perform c w1
                = (Throw (ThrownObject (mkApiError rate_limit_message None None)),
                   mkWorld (RATE_LIMIT + 1) (timers w1) (clock w1) (sent w ++ cs)))
  /\ (forall ms, 0 <= ms < RATE_LIMIT_WINDOW ->
                 requestCount (advance ms w1) = Z.of_nat (length cs))
  /\ (forall ms, RATE_LIMIT_WINDOW <= ms ->
                 requestCount (advance ms w1) = 0
                 /\ timers (advance ms w1) = []
                 /\ sent (advance ms w1) = (sent w ++ cs)%list).
Proof.
  intros Hzero Hnone Hcap. cbv zeta.
  rewrite run_burst by lia. rewrite Hzero, Hnone. cbn [app requestCount sent Z.add].
  split; [reflexivity |]. split; [reflexivity |]. split; [| split].
  - intros Hfull c. rewrite perform_refused by (cbn [requestCount]; lia).
    cbn [requestCount timers clock sent]. rewrite Hfull. reflexivity.
  - intros ms Hms. unfold advance. cbn [requestCount timers clock sent].
    rewrite !filter_repeat.
    destruct (Z.leb_spec (clock w + RATE_LIMIT_WINDOW) (clock w + Z.max 0 ms)); [lia |].
    reflexivity.
  - intros ms Hms. unfold advance. cbn [requestCount timers clock sent].
    rewrite !filter_repeat.
    destruct (Z.leb_spec (clock w + RATE_LIMIT_WINDOW) (clock w + Z.max 0 ms));
      [| unfold RATE_LIMIT_WINDOW in *; lia].
    cbn [negb].
    match goal with
    | |- context [fold_left _ ?due ?w0] =>
        destruct (fire_frame due w0) as (Ht & Hc & Hs & _ & He)
    end.
    cbn [requestCount timers clock sent] in *.
    rewrite Ht, Hs, He; [| rewrite repeat_length; lia].
    rewrite repeat_length. repeat split. lia.
Qed.

(* ===================================================================== *)
(** ** Further properties of the dispatcher *)
(* ===================================================================== *)

(** The four ways a dispatched resource function can end. *)
Lemma respond_invoke_cases (f : Result ApiCall) (w : World) :
  (exists t, respond (invoke f w) = (Throw t, w))
  \/ (exists c data,
        requestCount w + 1 <= RATE_LIMIT
        /\ upstream (sent w) c = Response data
        /\ respond (invoke f w)
           = (Ok (mkEnvelope (JSON_stringify data) false),
              mkWorld (requestCount w + 1) (timers w ++ [clock w + RATE_LIMIT_WINDOW])
                (clock w) (sent w ++ [c])))
  \/ (exists c e,
        requestCount w + 1 <= RATE_LIMIT
        /\ respond (invoke f w)
           = (Throw (ThrownObject e),
              mkWorld (requestCount w + 1) (timers w ++ [clock w + RATE_LIMIT_WINDOW])
                (clock w) (sent w ++ [c])))
  \/ (RATE_LIMIT < requestCount w + 1
      /\ respond (invoke f w)
         = (Throw (ThrownObject (mkApiError rate_limit_message None None)),
            mkWorld (requestCount w + 1) (timers w) (clock w) (sent w))).
Proof.
  destruct f as [c | t]; cbn [invoke].
  - destruct (Z.le_gt_cases (requestCount w + 1) RATE_LIMIT) as [Hle | Hgt].
    + rewrite (perform_allowed c w Hle).
      destruct (upstream (sent w) c) as [data | t] eqn:E.
      * right. left. exists c, data. auto.
      * right. right. left. exists c, (handleApiError t). auto.
    + right. right. right.
      assert (Hgt' : RATE_LIMIT < requestCount w + 1) by lia.
      rewrite (perform_refused c w Hgt'). auto.
  - left. exists t. reflexivity.
Qed.

Lemma try_block_cases (tool : string) (args : JsValue) (w : World) :
  (exists t, try_block tool args w = (Throw t, w))
  \/ (exists c data,
        requestCount w + 1 <= RATE_LIMIT
        /\ upstream (sent w) c = Response data
        /\ try_block tool args w
           = (Ok (mkEnvelope (JSON_stringify data) false),
              mkWorld (requestCount w + 1) (timers w ++ [clock w + RATE_LIMIT_WINDOW])
                (clock w) (sent w ++ [c])))
  \/ (exists c e,
        requestCount w + 1 <= RATE_LIMIT
        /\ try_block tool args w
           = (Throw (ThrownObject e),
              mkWorld (requestCount w + 1) (timers w ++ [clock w + RATE_LIMIT_WINDOW])
                (clock w) (sent w ++ [c])))
  \/ (RATE_LIMIT < requestCount w + 1
      /\ try_block tool args w
         = (Throw (ThrownObject (mkApiError rate_limit_message None None)),
            mkWorld (requestCount w + 1) (timers w) (clock w) (sent w))).
Proof.
  unfold try_block.
  repeat match goal with
         | |- context [if String.eqb tool ?l then _ else _] =>
             destruct (String.eqb tool l); [apply respond_invoke_cases |]
         end.
  left. eexists. reflexivity.
Qed.


(** Whatever goes wrong once the wrapper has been reached is reported
    with one and the same text: the message, status and code of an
    upstream or transport failure, and the message of the rate limiter,
    are dropped on the way (the wrapper throws a plain object, of which
    the handler reads no message). *)
Theorem wrapper_errors_are_anonymous (params : CallToolParams) (w : World) :
  forall response w',
    callToolHandler params w = (Ok response, w') ->
    isError response = true ->
    requestCount w' <> requestCount w ->
    response = mkEnvelope (Some "Error: Unknown error occurred") true.
Proof.
  intros response w'. unfold callToolHandler.
  destruct (try_block_cases (params_name params) (params_arguments params) w)
    as [(t & ->) | [(c & data & Hle & Hup & ->) | [(c & e & Hle & ->) | (Hgt & ->)]]];
    intros H; injection H as <- <-; cbn [isError requestCount].
  - intros _ Hn. contradiction.
  - discriminate.
  - intros _ _. reflexivity.
  - intros _ _. reflexivity.
Qed.

(** *** The catalog against the code *)

Lemma not_positive_integer_undefined : ~ positive_integer JUndefined.
Proof. intros (p & q & H & _). discriminate H. Qed.

Lemma validateUrl_throws_error (v : JsValue) (fieldName : string) (t : Thrown) :
  validateUrl v fieldName = Throw t -> exists msg, t = JsError msg.
Proof.
  unfold validateUrl. destruct v; try (intros H; injection H as <-; eauto).
  unfold throw_if at 1. destruct (is_empty (trim s)); cbn [bind];
    [intros H; injection H as <-; eauto |].
  destruct (bind (new_URL s) _) as [[] | t0]; cbn [try_catch];
    [discriminate | intros H; injection H as <-; eauto].
Qed.

Ltac absurd_undefined :=
  match goal with
  | H : nonempty_string JUndefined |- _ => destruct H as (? & H & _); discriminate H
  | H : passes_positive_number JUndefined |- _ => destruct H as (? & H & _); discriminate H
  | H : positive_integer JUndefined |- _ => destruct H as (? & ? & H & _); discriminate H
  | H : nonempty_array JUndefined |- _ => destruct H as (? & ? & H); discriminate H
  end.

(** Peels one validation step: the throwing side closes the goal, the
    passing side goes on unless it is absurd. *)
Ltac peel_step :=
  let H := fresh "Hstep" in
  first
    [ match goal with
      | |- context [throw_if (negb (truthy ?v) || negb (is_string ?v)) ?m] =>
          take_step (string_step v m) H
      end; [try absurd_undefined | solve [eauto]]
    | match goal with
      | |- context [throw_if (negb (is_number ?v) || le_zero ?v) ?m] =>
          take_step (number_step v m) H
      end; [try absurd_undefined | solve [eauto]]
    | match goal with
      | |- context [throw_if (negb (is_array ?v)
                              || (Z.of_nat (length (items_of ?v)) =? 0)) ?m] =>
          take_step (array_step v m) H
      end; [try absurd_undefined | solve [eauto]]
    | match goal with
      | |- context [validatePositiveInteger ?v ?f] => take_step (id_step v f) H
      end; [try absurd_undefined | solve [eauto]]
    | match goal with
      | |- context [validateUrl ?v ?f] =>
          let E := fresh "E" in
          let t := fresh "t" in
          destruct (validateUrl v f) as [[] | t] eqn:E; cbn [bind];
          [ try (cbn in E; discriminate E)
          | destruct (validateUrl_throws_error _ _ _ E) as [? ->]; solve [eauto] ]
      end ].

Ltac peel_steps := repeat peel_step.

Lemma getProductsByCategory_requires (props : list (string * JsValue)) :
  assoc "category" props = None ->
  exists msg, getProductsByCategory (JObj props) = Throw (JsError msg).
Proof.
  intros Hk. unfold getProductsByCategory. rewrite destructure_object.
  cbn [bind get_prop]. rewrite Hk. eexists. reflexivity.
Qed.

Lemma addProduct_requires (props : list (string * JsValue)) (k : string) :
  In k ["title"; "price"; "description"; "image"; "category"] ->
  assoc k props = None ->
  exists msg, addProduct (JObj props) = Throw (JsError msg).
Proof.
  intros Hin Hk.
  assert (Hu : get_prop (JObj props) k = JUndefined) by (simpl; rewrite Hk; reflexivity).
  unfold addProduct. rewrite destructure_object. cbn [bind].
  cbn [In] in Hin.
  repeat (destruct Hin as [<- | Hin]; [rewrite ?Hu; peel_steps |]);
    contradiction.
Qed.

Lemma addCart_requires (props : list (string * JsValue)) (k : string) :
  In k ["userId"; "date"; "products"] ->
  assoc k props = None ->
  exists msg, addCart (JObj props) = Throw (JsError msg).
Proof.
  intros Hin Hk.
  assert (Hu : get_prop (JObj props) k = JUndefined) by (simpl; rewrite Hk; reflexivity).
  unfold addCart. rewrite destructure_object. cbn [bind].
  cbn [In] in Hin.
  repeat (destruct Hin as [<- | Hin]; [rewrite ?Hu; peel_steps |]);
    contradiction.
Qed.

Lemma addUser_requires (props : list (string * JsValue)) (k : string) :
  In k ["email"; "username"; "password"; "firstname"; "lastname"] ->
  assoc k props = None ->
  exists msg, addUser (JObj props) = Throw (JsError msg).
Proof.
  intros Hin Hk.
  assert (Hu : get_prop (JObj props) k = JUndefined) by (simpl; rewrite Hk; reflexivity).
  unfold addUser. rewrite destructure_object. cbn [bind].
  cbn [In] in Hin.
  repeat (destruct Hin as [<- | Hin]; [rewrite ?Hu; peel_steps |]);
    contradiction.
Qed.

Lemma required_top_level (t : Tool) (k : string) (props : list (string * JsValue))
      (w : World) :
  In t listTools -> In k (required t) ->
  ~ (name t = "fakestore_add_user" /\ In k unchecked_user_keys) ->
  assoc k props = None ->
  exists msg, try_block (name t) (JObj props) w = (Throw (JsError msg), w).
Proof.
  intros Ht Hk Hexcept Hmissing.
  assert (Hu : get_prop (JObj props) k = JUndefined)
    by (simpl; rewrite Hmissing; reflexivity).
  assert (Hid : ~ positive_integer (get_prop (JObj props) k))
    by (rewrite Hu; exact not_positive_integer_undefined).
  cbn in Ht.
  repeat (destruct Ht as [<- | Ht]); try contradiction;
    unfold required in Hk; cbn [inputSchema name list_schema id_schema] in *;
    cbn [In] in Hk; try contradiction.
  - destruct Hk as [<- | []].
    pose proof (getProductById_rejects _ Hid) as H. dispatch_throw getProductById H.
  - destruct Hk as [<- | []].
    pose proof (getProductsByCategory_requires props Hmissing) as H.
    dispatch_throw getProductsByCategory H.
  - pose proof (addProduct_requires props k Hk Hmissing) as H.
    dispatch_throw addProduct H.
  - destruct Hk as [<- | []].
    pose proof (updateProduct_rejects _ Hid) as H. dispatch_throw updateProduct H.
  - destruct Hk as [<- | []].
    pose proof (deleteProduct_rejects _ Hid) as H. dispatch_throw deleteProduct H.
  - destruct Hk as [<- | []].
    pose proof (getCartById_rejects _ Hid) as H. dispatch_throw getCartById H.
  - destruct Hk as [<- | []].
    pose proof (getUserCarts_rejects _ Hid) as H. dispatch_throw getUserCarts H.
  - pose proof (addCart_requires props k Hk Hmissing) as H.
    dispatch_throw addCart H.
  - destruct Hk as [<- | []].
    pose proof (updateCart_rejects_id _ Hid) as H. dispatch_throw updateCart H.
  - destruct Hk as [<- | []].
    pose proof (deleteCart_rejects _ Hid) as H. dispatch_throw deleteCart H.
  - destruct Hk as [<- | []].
    pose proof (getUserById_rejects _ Hid) as H. dispatch_throw getUserById H.
  - assert (Hchecked : In k ["email"; "username"; "password"; "firstname"; "lastname"]).
    { unfold unchecked_user_keys in Hexcept. cbn [In] in Hexcept.
      cbn [In]. intuition. }
    pose proof (addUser_requires props k Hchecked Hmissing) as H.
    dispatch_throw addUser H.
  - destruct Hk as [<- | []].
    pose proof (updateUser_rejects _ Hid) as H. dispatch_throw updateUser H.
  - destruct Hk as [<- | []].
    pose proof (deleteUser_rejects _ Hid) as H. dispatch_throw deleteUser H.
Qed.

Lemma required_of_entries_cases (t : Tool) (p k : string) :
  In t listTools -> In (p, k) (required_of_entries t) ->
  (name t = "fakestore_add_cart" \/ name t = "fakestore_update_cart")
  /\ p = "products" /\ (k = "productId" \/ k = "quantity").
Proof.
  intros Ht Hin. cbn in Ht.
  repeat (destruct Ht as [<- | Ht]); try contradiction;
    cbn in Hin; try contradiction;
    destruct Hin as [Hin | [Hin | []]]; injection Hin as <- <-; auto.
Qed.

(** Every key that a tool's [inputSchema] lists as [required], of the
    arguments or of the entries of [products], is enforced by the code, in
    that an invocation without it fails with a validation error before any
    HTTP call, with two exceptions.  [fakestore_add_user] requires [city],
    [street], [number], [zipcode], [lat], [long] and [phone] and never
    looks at them: its five other fields are enough.
    [fakestore_update_cart] requires [productId] and [quantity] of every
    entry of [products] and never looks at the entries: an entry with
    neither is sent on as it is. *)
Theorem required_keys_enforced (t : Tool) (props : list (string * JsValue)) (w : World) :
  In t listTools ->
  (forall k,
      In k (required t) ->
      ~ (name t = "fakestore_add_user" /\ In k unchecked_user_keys) ->
      assoc k props = None ->
      exists msg, try_block (name t) (JObj props) w = (Throw (JsError msg), w))
  /\ (forall p k entries entry,
         In (p, k) (required_of_entries t) ->
         name t <> "fakestore_update_cart" ->
         assoc p props = Some (JArr entries) ->
         In entry entries ->
         get_prop entry k = JUndefined ->
         exists msg, try_block (name t) (JObj props) w = (Throw (JsError msg), w))
  /\ (exists body,
         addUser (JObj [("email", JStr "ada@example.com"); ("username", JStr "ada");
                        ("password", JStr "secret"); ("firstname", JStr "Ada");
                        ("lastname", JStr "Lovelace")])
         = Ok (Post "/users" body))
  /\ updateCart (JObj [("id", JNum (of_Z 1)); ("products", JArr [JObj []])])
     = Ok (Put "/carts/1" (JObj [("products", JArr [JObj []])])).
Proof.
  intros Ht. split; [| split; [| split; [eexists; reflexivity | reflexivity]]].
  - intros k. apply required_top_level. exact Ht.
  - intros p k entries entry Hin Hname Hprods Hentry Hmissing.
    destruct (required_of_entries_cases t p k Ht Hin) as ([Hn | Hn] & -> & Hk);
      [| contradiction].
    rewrite Hn.
    assert (H : exists msg, addCart (JObj props) = Throw (JsError msg)).
    { apply (addCart_rejects_entry props entries entry (get_prop entry k) Hprods Hentry).
      - destruct Hk as [-> | ->]; [left | right]; reflexivity.
      - left. rewrite Hmissing. intros n. discriminate. }
    dispatch_throw addCart H.
Qed.

End Platform.

(* ===================================================================== *)
(** ** Instances on the sample platform *)
(* ===================================================================== *)

Lemma not_positive_integer_of_Z (z : Z) : z <= 0 -> ~ positive_integer (JNum (of_Z z)).
Proof.
  intros Hz (p & q & Heq & Hq). injection Heq as <-.
  unfold Qeq in Hq. simpl in Hq. lia.
Qed.

Lemma not_positive_integer_fraction : ~ positive_integer (JNum (Finite (3 # 2))).
Proof.
  intros (p & q & Heq & Hq). injection Heq as <-.
  unfold Qeq in Hq. simpl in Hq. lia.
Qed.

(** An [addCart] whose only entry has the fractional [productId] 1.5 passes
    validation, whatever the platform. *)
Lemma addCart_accepts_fractional_productId (Number_toString_other : number -> string) :
  let products :=
    JArr [JObj [("productId", JNum (Finite (3 # 2))); ("quantity", JNum (of_Z 1))]] in
  let args :=
    JObj [("userId", JNum (of_Z 1)); ("date", JStr "2024-01-01"); ("products", products)] in
  addCart Number_toString_other args = Ok (Post "/carts" args).
Proof. reflexivity. Qed.

(** An [updateCart] never looks into the entries of [products]. *)
Lemma updateCart_ignores_entries (Number_toString_other : number -> string)
      (entries : list JsValue) :
  entries <> [] ->
  updateCart Number_toString_other
    (JObj [("id", JNum (of_Z 1)); ("products", JArr entries)])
  = Ok (Put "/carts/1" (JObj [("products", JArr entries)])).
Proof.
  intros H. destruct entries as [| e rest]; [contradiction | reflexivity].
Qed.

(** C1 (as stated) fails.  1.5 is not a positive integer, yet [addCart]
    with the entry [{productId: 1.5, quantity: 1}] returns a success
    envelope after its create call has left for the upstream service; zero
    and -1 are not positive integers, yet [updateCart] with the entry
    [{productId: 0, quantity: -1}] does the same with its replace call. *)
Lemma C1_counterexample :
  let fractional :=
    JObj [("productId", JNum (Finite (3 # 2))); ("quantity", JNum (of_Z 1))] in
  let add_args :=
    JObj [("userId", JNum (of_Z 1)); ("date", JStr "2024-01-01");
          ("products", JArr [fractional])] in
  let nonpositive :=
    JObj [("productId", JNum (of_Z 0)); ("quantity", JNum (of_Z (-1)))] in
  let update_args :=
    JObj [("id", JNum (of_Z 1)); ("products", JArr [nonpositive])] in
  (~ positive_integer (get_prop fractional "productId")
   /\ callToolHandler sample_URL_protocol sample_Number_toString_other
        sample_JSON_stringify sample_upstream
        (mkParams "fakestore_add_cart" add_args) start
      = (Ok (mkEnvelope (Some "{}") false),
         mkWorld 1 [60000] 0 [Post "/carts" add_args]))
  /\
  (~ positive_integer (get_prop nonpositive "productId")
   /\ ~ positive_integer (get_prop nonpositive "quantity")
   /\ callToolHandler sample_URL_protocol sample_Number_toString_other
        sample_JSON_stringify sample_upstream
        (mkParams "fakestore_update_cart" update_args) start
      = (Ok (mkEnvelope (Some "{}") false),
         mkWorld 1 [60000] 0
           [Put "/carts/1" (JObj [("products", JArr [nonpositive])])])).
Proof.
  cbv zeta. split; [split | split; [| split]].
  - exact not_positive_integer_fraction.
  - reflexivity.
  - apply not_positive_integer_of_Z. lia.
  - apply not_positive_integer_of_Z. lia.
  - reflexivity.
Qed.

(** C1 (as amended) at a fractional [limit] and at a cart entry of quantity zero. *)
Lemma C1_witness :
  (exists msg,
      try_block sample_URL_protocol sample_Number_toString_other sample_JSON_stringify
        sample_upstream "fakestore_get_products" (JObj [("limit", JNum (Finite (5 # 2)))])
        start
      = (Throw (JsError msg), start)
      /\ callToolHandler sample_URL_protocol sample_Number_toString_other
           sample_JSON_stringify sample_upstream
           (mkParams "fakestore_get_products" (JObj [("limit", JNum (Finite (5 # 2)))]))
           start
         = (Ok (mkEnvelope (Some ("Error: " ++ msg)) true), start))
  /\
  (exists msg,
      try_block sample_URL_protocol sample_Number_toString_other sample_JSON_stringify
        sample_upstream "fakestore_add_cart"
        (JObj [("userId", JNum (of_Z 1)); ("date", JStr "2024-01-01");
               ("products",
                JArr [JObj [("productId", JNum (of_Z 3)); ("quantity", JNum (of_Z 0))]])])
        start
      = (Throw (JsError msg), start)
      /\ callToolHandler sample_URL_protocol sample_Number_toString_other
           sample_JSON_stringify sample_upstream
           (mkParams "fakestore_add_cart"
              (JObj [("userId", JNum (of_Z 1)); ("date", JStr "2024-01-01");
                     ("products",
                      JArr [JObj [("productId", JNum (of_Z 3));
                                  ("quantity", JNum (of_Z 0))]])]))
           start
         = (Ok (mkEnvelope (Some ("Error: " ++ msg)) true), start)).
Proof.
  destruct (C1_invalid_fields_rejected_before_network sample_URL_protocol
              sample_Number_toString_other sample_JSON_stringify sample_upstream start)
    as [Hfield Hentry].
  split.
  - apply (Hfield "fakestore_get_products" "limit"
             [("limit", JNum (Finite (5 # 2)))] (JNum (Finite (5 # 2)))).
    + simpl. left. reflexivity.
    + reflexivity.
    + discriminate.
    + intros (p & q & Heq & Hq). injection Heq as <-.
      unfold Qeq in Hq. simpl in Hq. lia.
  - apply (Hentry _ [JObj [("productId", JNum (of_Z 3)); ("quantity", JNum (of_Z 0))]]
             (JObj [("productId", JNum (of_Z 3)); ("quantity", JNum (of_Z 0))])
             (JNum (of_Z 0))).
    + reflexivity.
    + simpl. left. reflexivity.
    + right. reflexivity.
    + right. right. exists (inject_Z 0). split; [reflexivity |].
      unfold Qle. simpl. lia.
Defined.

(** C2 at a deletion that the upstream service answers with a 500. *)
Lemma C2_witness :
  exists response w',
    callToolHandler sample_URL_protocol sample_Number_toString_other
      sample_JSON_stringify sample_upstream
      (mkParams "fakestore_delete_product" (JObj [("id", JNum (of_Z 1))])) start
    = (Ok response, w')
    /\ response = mkEnvelope (Some "Error: Unknown error occurred") true
    /\ sent w' = [Del "/products/1"].
Proof.
  destruct (C2_handler_always_returns_envelope sample_URL_protocol
              sample_Number_toString_other sample_JSON_stringify sample_upstream
              (mkParams "fakestore_delete_product" (JObj [("id", JNum (of_Z 1))])) start)
    as (response & w' & Hret & Hcaught & _).
  exists response, w'. split; [exact Hret |].
  destruct (Hcaught
              (ThrownObject
                 (mkApiError "Request failed with status code 500"
                    (Some (Finite (inject_Z 500))) (Some "ERR_BAD_RESPONSE")))
              (mkWorld 1 [60000] 0 [Del "/products/1"]) eq_refl)
    as (Hw & Hresp & _).
  split; [exact Hresp |]. rewrite Hw. reflexivity.
Defined.

(** C3 (as stated) fails.  [fakestore_get_orders] matches none of the
    registered names, and the text of the envelope that the handler
    returns for it is [Error: Unknown tool: fakestore_get_orders]: it is
    not the message [Unknown tool: fakestore_get_orders]. *)
Lemma C3_counterexample :
  let response :=
    fst (callToolHandler sample_URL_protocol sample_Number_toString_other
           sample_JSON_stringify sample_upstream
           (mkParams "fakestore_get_orders" (JObj [])) start) in
  ~ In "fakestore_get_orders" (map name listTools)
  /\ response = Ok (mkEnvelope (Some "Error: Unknown tool: fakestore_get_orders") true)
  /\ response <> Ok (mkEnvelope (Some "Unknown tool: fakestore_get_orders") true).
Proof.
  cbv zeta. split; [| split; [reflexivity | discriminate]].
  simpl. intros H.
  repeat (destruct H as [H | H]; [discriminate H |]). exact H.
Qed.

(** C3 at the name [fakestore_get_orders]. *)
Lemma C3_witness :
  ~ In "fakestore_get_orders" (map name listTools)
  /\ callToolHandler sample_URL_protocol sample_Number_toString_other
       sample_JSON_stringify sample_upstream
       (mkParams "fakestore_get_orders" (JObj [])) start
     = (Ok (mkEnvelope (Some "Error: Unknown tool: fakestore_get_orders") true), start).
Proof.
  assert (H : ~ In "fakestore_get_orders" (map name listTools)).
  { simpl. intros H.
    repeat (destruct H as [H | H]; [discriminate H |]). exact H. }
  split; [exact H |].
  apply (C3_unknown_tool_envelope sample_URL_protocol sample_Number_toString_other
           sample_JSON_stringify sample_upstream "fakestore_get_orders" (JObj []) start H).
Defined.

(** C4 at a mug: price [0], then price [19.99] with an extra argument. *)
Lemma C4_witness :
  (exists msg,
      addProduct sample_URL_protocol
        (JObj [("title", JStr "Mug"); ("price", JNum (of_Z 0));
               ("description", JStr "A mug"); ("image", JStr "https://example.com/mug.png");
               ("category", JStr "kitchen")])
      = Throw (JsError msg)
      /\ msg = "Price must be a positive number")
  /\ addProduct sample_URL_protocol
       (JObj [("category", JStr "kitchen"); ("title", JStr "Mug");
              ("price", JNum price_19_99); ("description", JStr "A mug");
              ("image", JStr "https://example.com/mug.png"); ("stock", JNum (of_Z 3))])
     = Ok (Post "/products"
             (JObj [("title", JStr "Mug"); ("price", JNum price_19_99);
                    ("description", JStr "A mug");
                    ("image", JStr "https://example.com/mug.png");
                    ("category", JStr "kitchen")])).
Proof.
  split.
  - destruct (C4_addProduct_price sample_URL_protocol sample_Number_toString_other
                sample_JSON_stringify sample_upstream
                (JObj [("title", JStr "Mug"); ("price", JNum (of_Z 0));
                       ("description", JStr "A mug");
                       ("image", JStr "https://example.com/mug.png");
                       ("category", JStr "kitchen")]) start)
      as [Hreject _].
    destruct (Hreject (or_introl eq_refl)) as (msg & Hthrow & _ & Hmsg).
    exists msg. split; [exact Hthrow |].
    apply Hmsg. exists "Mug". split; [reflexivity | discriminate].
  - destruct (C4_addProduct_price sample_URL_protocol sample_Number_toString_other
                sample_JSON_stringify sample_upstream
                (JObj [("category", JStr "kitchen"); ("title", JStr "Mug");
                       ("price", JNum price_19_99); ("description", JStr "A mug");
                       ("image", JStr "https://example.com/mug.png");
                       ("stock", JNum (of_Z 3))]) start)
      as [_ Haccept].
    apply (Haccept "Mug" "A mug" "https://example.com/mug.png" "kitchen");
      try reflexivity; discriminate.
Defined.

(** C6 at user 7. *)
Lemma C6_witness :
  updateUser sample_Number_toString_other
    (JObj [("id", JNum (of_Z 7)); ("firstname", JStr "Ada")])
  = Ok (Put "/users/7" (JObj [("name", JObj [("firstname", JStr "Ada")])])).
Proof.
  apply (C6_updateUser_firstname_only sample_Number_toString_other
           (JObj [("id", JNum (of_Z 7)); ("firstname", JStr "Ada")])
           (JNum (of_Z 7)) (JStr "Ada")).
  - reflexivity.
  - exists 7%positive, (inject_Z 7). split; reflexivity.
  - reflexivity.
  - discriminate.
  - intros k Hk. simpl in Hk.
    repeat (destruct Hk as [Hk | Hk]; [rewrite <- Hk; reflexivity |]).
    contradiction.
Defined.

(** C8 at start-up and with the counter at the cap. *)
Lemma C8_witness :
  (sent (snd (perform sample_Number_toString_other sample_upstream
                (Get "/products" (JObj [])) start))
   = [Get "/products" (JObj [])]
   /\ timers (snd (perform sample_Number_toString_other sample_upstream
                     (Get "/products" (JObj [])) start))
      = [60000])
  /\ (sent (snd (perform sample_Number_toString_other sample_upstream
                   (Get "/products" (JObj [])) (mkWorld 100 [] 0 [])))
      = []
      /\ timers (snd (perform sample_Number_toString_other sample_upstream
                        (Get "/products" (JObj [])) (mkWorld 100 [] 0 [])))
         = []
      /\ fst (perform sample_Number_toString_other sample_upstream
                (Get "/products" (JObj [])) (mkWorld 100 [] 0 []))
         = Throw (ThrownObject (mkApiError rate_limit_message None None))).
Proof.
  split.
  - destruct (C8_rate_limit_counter sample_Number_toString_other sample_upstream
                (Get "/products" (JObj [])) start) as (_ & Hsent & _ & _).
    assert (Hcap : requestCount start + 1 <= RATE_LIMIT)
      by (unfold RATE_LIMIT; simpl; lia).
    destruct (Hsent Hcap) as (H1 & H2 & _). split; [exact H1 | exact H2].
  - destruct (C8_rate_limit_counter sample_Number_toString_other sample_upstream
                (Get "/products" (JObj [])) (mkWorld 100 [] 0 [])) as (_ & _ & Hrefused & _).
    apply Hrefused. unfold RATE_LIMIT; simpl; lia.
Defined.

(** C9 at a deletion that the upstream service answers with a 500. *)
Lemma C9_witness :
  perform sample_Number_toString_other sample_upstream (Del "/carts/3") start
  = (Throw (ThrownObject
              (mkApiError "Request failed with status code 500"
                 (Some (Finite (inject_Z 500))) (Some "ERR_BAD_RESPONSE"))),
     mkWorld 1 [60000] 0 [Del "/carts/3"]).
Proof.
  destruct (C9_wrapper_normalizes_errors sample_Number_toString_other sample_upstream
              (Del "/carts/3") start) as (_ & Hthrow & _).
  apply (Hthrow
           (AxiosError "Request failed with status code 500"
              (Some (Finite (inject_Z 500))) (Some "ERR_BAD_RESPONSE"))
           (mkWorld 1 [60000] 0 [Del "/carts/3"])).
  reflexivity.
Defined.

(** [validateEmail] on a few addresses. *)
Example validateEmail_examples :
  validateEmail (JStr "ada@example.com") = Ok tt
  /\ validateEmail (JStr "ada@mail.example.com") = Ok tt
  /\ validateEmail (JStr "ada@example") = Throw (JsError "Invalid email format")
  /\ validateEmail (JStr "ada lovelace@example.com") = Throw (JsError "Invalid email format")
  /\ validateEmail (JStr "ada@@example.com") = Throw (JsError "Invalid email format")
  /\ validateEmail (JStr "@example.com") = Throw (JsError "Invalid email format")
  /\ validateEmail (JNum (of_Z 1)) = Throw (JsError "Invalid email format").
Proof. repeat split. Qed.

(** C10 at [not-an-email]. *)
Lemma C10_witness :
  addUser
    (JObj [("email", JStr "not-an-email"); ("username", JStr "ada");
           ("password", JStr "secret"); ("firstname", JStr "Ada");
           ("lastname", JStr "Lovelace")])
  = Ok (Post "/users"
          (JObj [("email", JStr "not-an-email");
                 ("username", JStr "ada");
                 ("password", JStr "secret");
                 ("name", JObj [("firstname", JStr "Ada"); ("lastname", JStr "Lovelace")]);
                 ("address",
                  JObj [("city", JUndefined);
                        ("street", JUndefined);
                        ("number", JUndefined);
                        ("zipcode", JUndefined);
                        ("geolocation", JObj [("lat", JUndefined); ("long", JUndefined)])]);
                 ("phone", JUndefined)]))
  /\ validateEmail (JStr "not-an-email") = Throw (JsError "Invalid email format").
Proof.
  destruct (C10_addUser_accepts_any_nonempty_email sample_URL_protocol
              sample_Number_toString_other sample_JSON_stringify sample_upstream
              (JObj [("email", JStr "not-an-email"); ("username", JStr "ada");
                     ("password", JStr "secret"); ("firstname", JStr "Ada");
                     ("lastname", JStr "Lovelace")])
              "not-an-email" start)
    as (_ & Hissue & Hformat).
  - reflexivity.
  - discriminate.
  - split; [| exact Hformat].
    apply Hissue.
    + exists "ada". split; [reflexivity | discriminate].
    + exists "secret". split; [reflexivity | discriminate].
    + exists "Ada". split; [reflexivity | discriminate].
    + exists "Lovelace". split; [reflexivity | discriminate].
Defined.

(* ===================================================================== *)
(** ** Instances of the further properties *)
(* ===================================================================== *)

(** An image URL that is blank, one that does not parse and one of the
    scheme [ftp], each with its error. *)
Lemma validateUrl_outcomes_witness :
  validateUrl sample_URL_protocol (JStr "   ") "Image URL"
  = Throw (JsError "Image URL must be a non-empty string")
  /\ validateUrl sample_URL_protocol (JStr "mug.png") "Image URL"
     = Throw (JsError "Image URL must be a valid URL")
  /\ validateUrl sample_URL_protocol (JStr "ftp://example.com/mug.png") "Image URL"
     = Throw (JsError "Image URL must be a valid URL").
Proof.
  split; [| split].
  - destruct (validateUrl_outcomes sample_URL_protocol (JStr "   ") "Image URL")
      as (_ & [_ Hblank] & _).
    apply Hblank. right. exists "   ". split; reflexivity.
  - destruct (validateUrl_outcomes sample_URL_protocol (JStr "mug.png") "Image URL")
      as (_ & _ & _ & Hparse & _).
    apply (Hparse "mug.png"); [reflexivity | discriminate | reflexivity].
  - destruct (validateUrl_outcomes sample_URL_protocol
                (JStr "ftp://example.com/mug.png") "Image URL")
      as (_ & _ & _ & _ & Hscheme & _).
    apply (Hscheme "ftp://example.com/mug.png" "ftp:");
      [reflexivity | discriminate | reflexivity | discriminate | discriminate].
Defined.

(** Surrounding blanks make no difference to the segment, a blank inside
    does. *)
Lemma sanitizePathSegment_injective_witness :
  (exists sa sb,
      sanitizePathSegment " men's clothing " = Ok sa
      /\ sanitizePathSegment "men's clothing" = Ok sb
      /\ (sa = sb <-> trim " men's clothing " = trim "men's clothing"))
  /\ trim " men's clothing " = trim "men's clothing".
Proof.
  split; [| reflexivity].
  apply (sanitizePathSegment_injective " men's clothing " "men's clothing");
    reflexivity.
Defined.

(** The category made of the lone surrogate U+D800 is refused by
    [encodeURIComponent]; a category of blanks goes to the bare path. *)
Lemma getProductsByCategory_exact_witness :
  getProductsByCategory (JObj [("category", JStr (bytes [237; 160; 128]))])
  = Throw (JsError "URI malformed")
  /\ getProductsByCategory (JObj [("category", JStr "  ")])
     = Ok (Get "/products/category/" JUndefined).
Proof.
  split.
  - pose proof (getProductsByCategory_exact [("category", JStr (bytes [237; 160; 128]))])
      as H.
    cbv zeta in H. destruct H as (_ & _ & Huri & _).
    apply (Huri (bytes [237; 160; 128])); [reflexivity | discriminate | discriminate].
  - pose proof (getProductsByCategory_exact [("category", JStr "  ")]) as H.
    cbv zeta in H. destruct H as (_ & _ & _ & _ & Hblank).
    apply (Hblank "  "); [reflexivity | discriminate | reflexivity].
Defined.

(** A blank is encoded with a percent sign. *)
Lemma sanitizePathSegment_alphabet_witness :
  sanitizePathSegment "men's clothing" = Ok "men's%20clothing"
  /\ In "%"%char (list_ascii_of_string "men's%20clothing")
  /\ (uri_unreserved "%" = true \/ "%"%char = "%"%char).
Proof.
  assert (Hs : sanitizePathSegment "men's clothing" = Ok "men's%20clothing")
    by reflexivity.
  assert (H : In "%"%char (list_ascii_of_string "men's%20clothing"))
    by (vm_compute; tauto).
  split; [exact Hs |]. split; [exact H |].
  exact (sanitizePathSegment_alphabet "men's clothing" "men's%20clothing" "%" Hs H).
Defined.

(** The category [jewelery] is sent as it is. *)
Lemma getProductsByCategory_plain_witness :
  sanitizePathSegment "jewelery" = Ok "jewelery"
  /\ getProductsByCategory (JObj [("category", JStr "jewelery")])
     = Ok (Get "/products/category/jewelery" JUndefined).
Proof.
  apply (getProductsByCategory_plain (JObj [("category", JStr "jewelery")]) "jewelery").
  - reflexivity.
  - discriminate.
  - reflexivity.
Defined.

(** The list operations at [limit = 5], [sort = desc]. *)
Lemma list_operations_exact_witness :
  getAllProducts (JObj [("sort", JStr "desc"); ("limit", JNum (of_Z 5))])
  = Ok (Get "/products" (JObj [("limit", JNum (of_Z 5)); ("sort", JStr "desc")]))
  /\ getAllCarts (JObj [("sort", JStr "desc"); ("limit", JNum (of_Z 5))])
     = Ok (Get "/carts" (JObj [("limit", JNum (of_Z 5)); ("sort", JStr "desc")]))
  /\ getAllUsers (JObj [("sort", JStr "desc"); ("limit", JNum (of_Z 5))])
     = Ok (Get "/users" (JObj [("limit", JNum (of_Z 5)); ("sort", JStr "desc")])).
Proof.
  pose proof (list_operations_exact [("sort", JStr "desc"); ("limit", JNum (of_Z 5))])
    as H.
  cbv zeta in H. destruct H as [Hvalid _]. apply Hvalid. split.
  - right. exists 5%positive, (inject_Z 5). split; reflexivity.
  - right. right. reflexivity.
Defined.

(** The identifier operations at 42. *)
Lemma identifier_operations_exact_witness :
  getProductById sample_Number_toString_other (JObj [("id", JNum (of_Z 42))])
  = Ok (Get "/products/42" JUndefined)
  /\ deleteUser sample_Number_toString_other (JObj [("id", JNum (of_Z 42))])
     = Ok (Del "/users/42")
  /\ getUserCarts sample_Number_toString_other (JObj [("id", JNum (of_Z 42))])
     = Throw (JsError "User ID must be a positive integer").
Proof.
  pose proof (identifier_operations_exact sample_Number_toString_other
                [("id", JNum (of_Z 42))]) as H.
  cbv zeta in H. destruct H as (Hok & _ & _ & Hbad & _).
  destruct Hok as (H1 & _ & _ & _ & _ & H6).
  - exists 42%positive, (inject_Z 42). split; reflexivity.
  - split; [exact H1 |]. split; [exact H6 |].
    apply Hbad. intros (p & q & Heq & _). discriminate Heq.
Defined.

(** A product at half a unit of currency is accepted. *)
Lemma addProduct_exact_witness :
  addProduct sample_URL_protocol
    (JObj [("title", JStr "Pin"); ("price", JNum (Finite (1 # 2)));
           ("description", JStr "A pin"); ("image", JStr "http://example.com/pin.png");
           ("category", JStr "misc")])
  = Ok (Post "/products"
          (JObj [("title", JStr "Pin"); ("price", JNum (Finite (1 # 2)));
                 ("description", JStr "A pin");
                 ("image", JStr "http://example.com/pin.png");
                 ("category", JStr "misc")])).
Proof.
  pose proof (addProduct_exact sample_URL_protocol
                [("title", JStr "Pin"); ("price", JNum (Finite (1 # 2)));
                 ("description", JStr "A pin");
                 ("image", JStr "http://example.com/pin.png");
                 ("category", JStr "misc")]) as H.
  cbv zeta in H. destruct H as (_ & _ & _ & _ & _ & Hok).
  apply Hok.
  - exists "Pin". split; [reflexivity | discriminate].
  - exists (Finite (1 # 2)). split; reflexivity.
  - exists "A pin". split; [reflexivity | discriminate].
  - reflexivity.
  - exists "misc". split; [reflexivity | discriminate].
Defined.

(** A user without address and phone is accepted; one without [username]
    and [lastname] is refused for the [username]. *)
Lemma addUser_exact_witness :
  (exists body,
      addUser (JObj [("email", JStr "ada@example.com"); ("username", JStr "ada");
                     ("password", JStr "secret"); ("firstname", JStr "Ada");
                     ("lastname", JStr "Lovelace")])
      = Ok (Post "/users" body)
      /\ get_prop (get_prop body "address") "city" = JUndefined)
  /\ addUser (JObj [("email", JStr "ada@example.com"); ("password", JStr "secret");
                    ("firstname", JStr "Ada")])
     = Throw (JsError "Username must be a non-empty string").
Proof.
  split.
  - pose proof (addUser_exact [("email", JStr "ada@example.com"); ("username", JStr "ada");
                               ("password", JStr "secret"); ("firstname", JStr "Ada");
                               ("lastname", JStr "Lovelace")]) as H.
    cbv zeta in H. destruct H as (_ & _ & _ & _ & _ & Hok).
    eexists. split.
    + apply Hok; eexists; (split; [reflexivity | discriminate]).
    + reflexivity.
  - pose proof (addUser_exact [("email", JStr "ada@example.com");
                               ("password", JStr "secret"); ("firstname", JStr "Ada")])
      as H.
    cbv zeta in H. destruct H as (_ & Husername & _).
    apply Husername.
    + eexists. split; [reflexivity | discriminate].
    + intros (s & Hs & _). discriminate Hs.
Defined.

(** A cart with one and a half of product 3 is accepted. *)
Lemma addCart_exact_witness :
  addCart sample_Number_toString_other
    (JObj [("userId", JNum (of_Z 1)); ("date", JStr "2024-01-01");
           ("products",
            JArr [JObj [("productId", JNum (of_Z 3));
                        ("quantity", JNum (Finite (3 # 2)))]])])
  = Ok (Post "/carts"
          (JObj [("userId", JNum (of_Z 1)); ("date", JStr "2024-01-01");
                 ("products",
                  JArr [JObj [("productId", JNum (of_Z 3));
                              ("quantity", JNum (Finite (3 # 2)))]])])).
Proof.
  pose proof (addCart_exact sample_Number_toString_other
                [("userId", JNum (of_Z 1)); ("date", JStr "2024-01-01");
                 ("products",
                  JArr [JObj [("productId", JNum (of_Z 3));
                              ("quantity", JNum (Finite (3 # 2)))]])]) as H.
  cbv zeta in H. destruct H as [Hok _]. apply Hok.
  split; [| split; [| split]].
  - exists 1%positive, (inject_Z 1). split; reflexivity.
  - exists "2024-01-01". split; [reflexivity | discriminate].
  - eexists. eexists. reflexivity.
  - constructor; [| constructor].
    split; [reflexivity |].
    split; eexists; (split; [reflexivity | reflexivity]).
Defined.

(** An update may set a negative price. *)
Lemma updateProduct_exact_witness :
  updateProduct sample_URL_protocol sample_Number_toString_other
    (JObj [("price", JNum (of_Z (-5))); ("id", JNum (of_Z 3))])
  = Ok (Put "/products/3" (JObj [("price", JNum (of_Z (-5)))])).
Proof.
  pose proof (updateProduct_exact sample_URL_protocol sample_Number_toString_other
                [("price", JNum (of_Z (-5))); ("id", JNum (of_Z 3))]) as H.
  cbv zeta in H. destruct H as (_ & Hok & _). apply Hok.
  - exists 3%positive, (inject_Z 3). split; reflexivity.
  - left. reflexivity.
Defined.

(** An update of the date alone. *)
Lemma updateCart_exact_witness :
  updateCart sample_Number_toString_other
    (JObj [("id", JNum (of_Z 2)); ("date", JStr "2024-02-29")])
  = Ok (Put "/carts/2" (JObj [("date", JStr "2024-02-29")])).
Proof.
  pose proof (updateCart_exact sample_Number_toString_other
                [("id", JNum (of_Z 2)); ("date", JStr "2024-02-29")]) as H.
  cbv zeta in H. destruct H as [Hok _]. apply Hok.
  split; [| split].
  - exists 2%positive, (inject_Z 2). split; reflexivity.
  - left. reflexivity.
  - left. reflexivity.
Defined.

(** An update of the latitude and the phone number. *)
Lemma updateUser_exact_witness :
  updateUser sample_Number_toString_other
    (JObj [("id", JNum (of_Z 7)); ("lat", JStr "48.85"); ("phone", JStr "555-0100")])
  = Ok (Put "/users/7"
          (JObj [("phone", JStr "555-0100");
                 ("address", JObj [("geolocation", JObj [("lat", JStr "48.85")])])])).
Proof.
  pose proof (updateUser_exact sample_Number_toString_other
                [("id", JNum (of_Z 7)); ("lat", JStr "48.85");
                 ("phone", JStr "555-0100")]) as H.
  cbv zeta in H. destruct H as [Hok _]. apply Hok.
  exists 7%positive, (inject_Z 7). split; reflexivity.
Defined.

(** Two hundred calls in a row: a hundred are sent, a hundred refused, and
    a day later two more calls are refused as well. *)
Lemma lockout_after_refusals_witness :
  let events := repeat (Call (Get "/products" (JObj []))) 200 in
  let later := [Wait 86400000; Call (Get "/users" (JObj [])); Call (Del "/carts/1")] in
  let w := run sample_Number_toString_other sample_upstream events start in
  length (sent w) = 100%nat
  /\ sent (run sample_Number_toString_other sample_upstream later w) = sent w.
Proof.
  cbv zeta.
  assert (Hsent : length
                    (sent (run sample_Number_toString_other sample_upstream
                             (repeat (Call (Get "/products" (JObj []))) 200) start))
                  = 100%nat) by (vm_compute; reflexivity).
  split; [exact Hsent |].
  pose proof (lockout_after_refusals sample_Number_toString_other sample_upstream
                (repeat (Call (Get "/products" (JObj []))) 200)
                [Wait 86400000; Call (Get "/users" (JObj [])); Call (Del "/carts/1")]
                (Get "/products" (JObj []))) as H.
  cbv zeta in H. apply H.
  rewrite Hsent. vm_compute. discriminate.
Defined.

(** Two calls at start-up, then a minute of quiet. *)
Lemma burst_then_quiet_window_witness :
  let cs := [Get "/products" (JObj []); Del "/carts/1"] in
  let w1 := run sample_Number_toString_other sample_upstream (map Call cs) start in
  sent w1 = cs
  /\ requestCount w1 = 2
  /\ requestCount (advance 59999 w1) = 2
  /\ requestCount (advance 60000 w1) = 0.
Proof.
  cbv zeta.
  pose proof (burst_then_quiet_window sample_Number_toString_other sample_upstream
                [Get "/products" (JObj []); Del "/carts/1"] start) as H.
  cbv zeta in H.
  destruct H as (Hsent & Hcount & _ & Hbefore & Hafter).
  - reflexivity.
  - reflexivity.
  - vm_compute. discriminate.
  - split; [exact Hsent |]. split; [exact Hcount |]. split.
    + apply (Hbefore 59999). unfold RATE_LIMIT_WINDOW. lia.
    + apply (Hafter 60000). unfold RATE_LIMIT_WINDOW. lia.
Defined.

(** A deletion that the upstream service answers with a 500. *)
Lemma wrapper_errors_are_anonymous_witness :
  callToolHandler sample_URL_protocol sample_Number_toString_other
    sample_JSON_stringify sample_upstream
    (mkParams "fakestore_delete_user" (JObj [("id", JNum (of_Z 9))])) start
  = (Ok (mkEnvelope (Some "Error: Unknown error occurred") true),
     mkWorld 1 [60000] 0 [Del "/users/9"])
  /\ mkEnvelope (Some "Error: Unknown error occurred") true
     = mkEnvelope (Some "Error: Unknown error occurred") true.
Proof.
  split; [reflexivity |].
  apply (wrapper_errors_are_anonymous sample_URL_protocol sample_Number_toString_other
           sample_JSON_stringify sample_upstream
           (mkParams "fakestore_delete_user" (JObj [("id", JNum (of_Z 9))])) start
           (mkEnvelope (Some "Error: Unknown error occurred") true)
           (mkWorld 1 [60000] 0 [Del "/users/9"])).
  - reflexivity.
  - reflexivity.
  - simpl. discriminate.
Defined.

(** A cart without a date. *)
Lemma required_keys_enforced_witness :
  (exists msg,
      try_block sample_URL_protocol sample_Number_toString_other sample_JSON_stringify
        sample_upstream "fakestore_add_cart"
        (JObj [("userId", JNum (of_Z 1)); ("products", JArr [])]) start
      = (Throw (JsError msg), start))
  /\ (exists msg,
         try_block sample_URL_protocol sample_Number_toString_other sample_JSON_stringify
           sample_upstream "fakestore_add_cart"
           (JObj [("userId", JNum (of_Z 1)); ("date", JStr "2024-01-01");
                  ("products", JArr [JObj [("productId", JNum (of_Z 3))]])]) start
         = (Throw (JsError msg), start)).
Proof.
  assert (Ht : In (mkTool "fakestore_add_cart"
                     (SObject
                        [("userId", SNumber); ("date", string_schema);
                         ("products", SArray cart_entry_schema)]
                        ["userId"; "date"; "products"]))
                  listTools).
  { unfold listTools, cartTools. apply in_or_app. right. apply in_or_app. left.
    simpl. tauto. }
  split.
  - destruct (required_keys_enforced sample_URL_protocol sample_Number_toString_other
                sample_JSON_stringify sample_upstream _
                [("userId", JNum (of_Z 1)); ("products", JArr [])] start Ht)
      as [Htop _].
    apply (Htop "date").
    + simpl. tauto.
    + intros [H _]. discriminate H.
    + reflexivity.
  - destruct (required_keys_enforced sample_URL_protocol sample_Number_toString_other
                sample_JSON_stringify sample_upstream _
                [("userId", JNum (of_Z 1)); ("date", JStr "2024-01-01");
                 ("products", JArr [JObj [("productId", JNum (of_Z 3))]])] start Ht)
      as (_ & Hentries & _).
    apply (Hentries "products" "quantity"
             [JObj [("productId", JNum (of_Z 3))]] (JObj [("productId", JNum (of_Z 3))])).
    + simpl. tauto.
    + discriminate.
    + reflexivity.
    + left. reflexivity.
    + reflexivity.
Defined.
